(** * Document verification and experience consolidation

  A shallow embedding of the identity-verification matcher
  ([services/document_verifier.py]), of the experience duration
  consolidator ([db/crud.py]) and of the persistence step of the
  verification handler ([api/form.py]), with the properties the
  specification states about them, and of the functions that prepare their
  inputs ([utils/validators.py], [services/ocr_cleaner.py],
  [services/llm_extractor.py]), with further properties of the code.

  Conventions of the embedding.
  - A Python [str] is a [string] of ASCII characters (code points below
    128); the Unicode-aware behaviour of [upper], [isdigit], [\d], [\s]
    on other code points is outside the model.
  - Python [None] for an optional text value is [None : option string].
  - A raised exception is the [Raise] case of [Py.result].
  - A Python [float] of [db/crud.py] is the rational number ([Q], in
    lowest terms) that its binary64 value holds, or the positive infinity.
    Reading a literal, multiplying, dividing and converting an integer each
    round the exact result to the nearest binary64 number, a tie going to
    the even significand. These floats are read from digits or made from
    totals of months and are never negative, so negative zero, the negative
    infinity and NaN do not occur.
  - The similarity ratio of [difflib], the quotient [2.0 * M / T] of two
    lengths that is only compared with the threshold, is kept as the exact
    rational. *)

From Stdlib Require Import ZArith QArith Qround Qabs Qpower Lqa String Ascii List Lia Bool
  DecimalString.
From stdpp Require Import gmap strings.

Local Open Scope Z_scope.

(** ** Python built-ins used by the modelled code *)
Module Py.

Inductive exn : Set := ValueError | TypeError | OverflowError.

Inductive result (A : Type) : Type :=
| Ok (a : A)
| Raise (e : exn).
Arguments Ok {A} a.
Arguments Raise {A} e.

Definition bind {A B} (r : result A) (k : A -> result B) : result B :=
  match r with
  | Ok a => k a
  | Raise e => Raise e
  end.

Definition is_ok {A} (r : result A) : bool :=
  match r with Ok _ => true | Raise _ => false end.

(** [str.isspace] on one ASCII character: TAB, LF, VT, FF, CR, the four
    separators FS, GS, RS, US, and the space. *)
Definition isspace (c : ascii) : bool :=
  let n := nat_of_ascii c in
  ((9 <=? n) && (n <=? 13) || (28 <=? n) && (n <=? 31) || (n =? 32))%nat.

(** The white space [int()] skips around a literal: no FS, GS, RS, US. *)
Definition int_space (c : ascii) : bool :=
  let n := nat_of_ascii c in
  ((9 <=? n) && (n <=? 13) || (n =? 32))%nat.

Definition is_digit (c : ascii) : bool :=
  let n := nat_of_ascii c in ((48 <=? n) && (n <=? 57))%nat.

Definition digit_value (c : ascii) : Z := Z.of_nat (nat_of_ascii c) - 48.

Fixpoint drop_while (p : ascii -> bool) (s : string) : string :=
  match s with
  | EmptyString => EmptyString
  | String c s' => if p c then drop_while p s' else s
  end.

(** [s.strip()] *)
Definition strip (s : string) : string :=
  String.rev (drop_while isspace (String.rev (drop_while isspace s))).

Fixpoint map_chars (f : ascii -> ascii) (s : string) : string :=
  match s with
  | EmptyString => EmptyString
  | String c s' => String (f c) (map_chars f s')
  end.

(** [s.replace(old, new)] for one-character [old] and [new]. *)
Definition replace (old new : ascii) (s : string) : string :=
  map_chars (fun c => if Ascii.eqb c old then new else c) s.

(** [s.split(sep)] for a one-character separator: never the empty list. *)
Fixpoint split (sep : ascii) (s : string) : list string :=
  match s with
  | EmptyString => [EmptyString]
  | String c s' =>
      if Ascii.eqb c sep then EmptyString :: split sep s'
      else match split sep s' with
           | p :: ps => String c p :: ps
           | [] => [String c EmptyString]
           end
  end.

Fixpoint all_chars (p : ascii -> bool) (s : string) : bool :=
  match s with
  | EmptyString => true
  | String c s' => p c && all_chars p s'
  end.

(** [s.isdigit()]: at least one character and every character a digit. *)
Definition isdigit (s : string) : bool :=
  match s with
  | EmptyString => false
  | _ => all_chars is_digit s
  end.

Fixpoint zeros (n : nat) : string :=
  match n with
  | O => EmptyString
  | S n' => String "0" (zeros n')
  end.

(** [s.zfill(width)]: zeros go after a leading sign. *)
Definition zfill (width : nat) (s : string) : string :=
  if (width <=? String.length s)%nat then s
  else
    let fill := zeros (width - String.length s) in
    match s with
    | String c s' =>
        if Ascii.eqb c "+" || Ascii.eqb c "-" then String c (fill +:+ s')
        else fill +:+ s
    | EmptyString => fill
    end.

(** Digits of an integer literal, most significant first; a single
    underscore may separate two digits. [acc] is the value read so far and
    [prev_digit] tells whether the previous character was a digit. *)
Fixpoint int_digits (s : string) (acc : Z) (prev_digit : bool) : option Z :=
  match s with
  | EmptyString => if prev_digit then Some acc else None
  | String c s' =>
      if is_digit c then int_digits s' (10 * acc + digit_value c) true
      else if Ascii.eqb c "_" && prev_digit then
        match s' with
        | String d _ => if is_digit d then int_digits s' acc false else None
        | EmptyString => None
        end
      else None
  end.

(** [int(s)] for a string in base 10. *)
Definition int_of_str (s : string) : result Z :=
  let s := String.rev (drop_while int_space (String.rev (drop_while int_space s))) in
  let '(neg, body) :=
    match s with
    | String c s' =>
        if Ascii.eqb c "-" then (true, s')
        else if Ascii.eqb c "+" then (false, s')
        else (false, s)
    | EmptyString => (false, s)
    end in
  match int_digits body 0 false with
  | Some v => Ok (if neg then - v else v)
  | None => Raise ValueError
  end.

(** Truth value of an optional string: [None] and the empty string are
    false. *)
Definition truthy (s : option string) : bool :=
  match s with
  | Some (String _ _) => true
  | _ => false
  end.

Definition upper_char (c : ascii) : ascii :=
  let n := nat_of_ascii c in
  if ((97 <=? n) && (n <=? 122))%nat then ascii_of_nat (n - 32) else c.

Definition lower_char (c : ascii) : ascii :=
  let n := nat_of_ascii c in
  if ((65 <=? n) && (n <=? 90))%nat then ascii_of_nat (n + 32) else c.

(** [s.upper()] and [s.lower()] *)
Definition upper (s : string) : string := map_chars upper_char s.
Definition lower (s : string) : string := map_chars lower_char s.

(** [s[:n]] for [n >= 0] *)
Definition prefix (n : nat) (s : string) : string := String.substring 0 n s.

(** Nearest integer, a tie going to the even neighbour. *)
Definition round_half_even (q : Q) : Z :=
  let n := Qnum q in
  let d := Z.pos (Qden q) in
  let f := n / d in
  let r2 := 2 * (n mod d) in
  if r2 <? d then f
  else if d <? r2 then f + 1
  else if Z.even f then f else f + 1.

(** [round(x, ndigits)]: the nearest multiple of [10 ** -ndigits], a tie
    going to the even one. *)
Definition round_ndigits (x : Q) (ndigits : nat) : Q :=
  let scale := 10 ^ Z.of_nat ndigits in
  Qred (Qmake (round_half_even (x * inject_Z scale)) (Z.to_pos scale)).

(** [int(x)] for a finite float: the fraction is dropped. *)
Definition truncate (x : Q) : Z :=
  if Qle_bool 0 x then Qfloor x else Qceiling x.

(** [2 ** k] for an integer [k] of either sign. *)
Definition pow2 (k : Z) : Q := (2 ^ k)%Q.

(** The binary exponent of [q]: the [e] with [2**e <= |q| < 2**(e+1)], for
    [q] other than 0. *)
Definition ilog2 (q : Q) : Z :=
  let a := Qabs q in
  let k := Z.log2 (Qnum a) - Z.log2 (Z.pos (Qden a)) in
  if Qle_bool (pow2 k) a then k else k - 1.

(** The binary64 number nearest to [q], a tie going to the even
    significand: 53 significant bits, the last of them worth [2**ulp] and
    never less than [2**-1074]. The range is not bounded above here. *)
Definition nearest_double (q : Q) : Q :=
  let ulp := Z.max (ilog2 q - 52) (-1074) in
  Qred (inject_Z (round_half_even (q * pow2 (- ulp))) * pow2 ulp).

(** A float is the rational that a finite binary64 value holds, or the
    positive infinity that a too large literal or product becomes. *)
Inductive pyfloat : Set :=
| Finite (q : Q)
| Infinity.

(** Values from [2**1024 - 2**970] on round to infinity. *)
Definition overflow_bound : Z := 2 ^ 1024 - 2 ^ 970.

(** The float that an operation with the exact result [q], not below 0,
    gives. *)
Definition to_float (q : Q) : pyfloat :=
  if Qle_bool (inject_Z overflow_bound) q then Infinity else Finite (nearest_double q).

(** [x * y] for a float [x] and a finite float [y] above 0. *)
Definition float_mul (x : pyfloat) (y : Q) : pyfloat :=
  match x with
  | Finite q => to_float (q * y)
  | Infinity => Infinity
  end.

(** [x / y] for a float [x] and a finite float [y] above 0. *)
Definition float_div (x : pyfloat) (y : Q) : pyfloat :=
  match x with
  | Finite q => to_float (q / y)
  | Infinity => Infinity
  end.

(** [int(x)] for a float. *)
Definition int_of_float (x : pyfloat) : result Z :=
  match x with
  | Finite q => Ok (truncate q)
  | Infinity => Raise OverflowError
  end.

(** [float(n)] for an integer: an integer that would round to infinity is
    an [OverflowError]. *)
Definition float_of_int (n : Z) : result pyfloat :=
  if overflow_bound <=? Z.abs n then Raise OverflowError
  else Ok (Finite (nearest_double (inject_Z n))).

(** [n / y] for an integer [n] and a finite float [y] above 0: the integer
    becomes a float, then the floats are divided. *)
Definition int_div_float (n : Z) (y : Q) : result pyfloat :=
  bind (float_of_int n) (fun x => Ok (float_div x y)).

(** [a / b] for two integers, [b] above 0: the exact quotient is rounded
    once, and a quotient that would round to infinity is an
    [OverflowError]. *)
Definition int_truediv (a b : Z) : result pyfloat :=
  let q := (inject_Z a / inject_Z b)%Q in
  if Qle_bool (inject_Z overflow_bound) (Qabs q) then Raise OverflowError
  else Ok (Finite (nearest_double q)).

(** [round(x, ndigits)] for a float and [0 <= ndigits <= 323]: the exact
    value is rounded to a decimal with [ndigits] digits after the point,
    and the float nearest to that decimal is returned. *)
Definition round_float (x : pyfloat) (ndigits : nat) : result pyfloat :=
  match x with
  | Finite q =>
      match to_float (round_ndigits q ndigits) with
      | Finite r => Ok (Finite r)
      | Infinity => Raise OverflowError
      end
  | Infinity => Ok Infinity
  end.

Fixpoint take_while (p : ascii -> bool) (s : string) : string :=
  match s with
  | EmptyString => EmptyString
  | String c s' => if p c then String c (take_while p s') else EmptyString
  end.

Fixpoint digits_value (s : string) (acc : Z) : Z :=
  match s with
  | EmptyString => acc
  | String c s' => digits_value s' (10 * acc + digit_value c)
  end.

(** [float(s)] for a text of digits, an optional point and more digits, the
    only texts the modelled callers pass (group 1 of their patterns); on
    another text the model reads the digits up to the first other character. *)
Definition float_of_decimal (s : string) : pyfloat :=
  let ip := take_while is_digit s in
  match drop_while is_digit s with
  | String c rest =>
      if Ascii.eqb c "." then
        let fp := take_while is_digit rest in
        to_float (Qmake (digits_value fp (digits_value ip 0))
                    (Z.to_pos (10 ^ Z.of_nat (String.length fp))))
      else to_float (inject_Z (digits_value ip 0))
  | EmptyString => to_float (inject_Z (digits_value ip 0))
  end.

(** [str(n)] for an integer. *)
Definition str_of_int (n : Z) : string := NilZero.string_of_int (Z.to_int n).

(** *** A backtracking matcher for the regular expressions of the code

    Greedy repetition of a character class, optional class, alternation in
    the order written, numbered groups. A continuation receives the rest of
    the text, the position reached and the groups closed so far. *)
Inductive regex : Type :=
| Chr (p : ascii -> bool)
| Cat (r1 r2 : regex)
| Alt (r1 r2 : regex)
| Star (p : ascii -> bool)
| Opt (p : ascii -> bool)
| Group (g : nat) (r : regex).

Definition groups : Type := list (nat * (nat * nat)).

Fixpoint star_match {R} (p : ascii -> bool) (s : string) (pos : nat)
    (k : string -> nat -> option R) : option R :=
  match s with
  | String c s' =>
      if p c then
        match star_match p s' (S pos) k with
        | Some r => Some r
        | None => k s pos
        end
      else k s pos
  | EmptyString => k s pos
  end.

Fixpoint rmatch {R} (r : regex) (s : string) (pos : nat) (gs : groups)
    (k : string -> nat -> groups -> option R) : option R :=
  match r with
  | Chr p =>
      match s with
      | String c s' => if p c then k s' (S pos) gs else None
      | EmptyString => None
      end
  | Cat r1 r2 => rmatch r1 s pos gs (fun s' pos' gs' => rmatch r2 s' pos' gs' k)
  | Alt r1 r2 =>
      match rmatch r1 s pos gs k with
      | Some x => Some x
      | None => rmatch r2 s pos gs k
      end
  | Star p => star_match p s pos (fun s' pos' => k s' pos' gs)
  | Opt p =>
      match s with
      | String c s' =>
          if p c then
            match k s' (S pos) gs with
            | Some x => Some x
            | None => k s pos gs
            end
          else k s pos gs
      | EmptyString => k s pos gs
      end
  | Group g r1 =>
      rmatch r1 s pos gs (fun s' pos' gs' => k s' pos' ((g, (pos, pos')) :: gs'))
  end.

(** A match found: where it ends and its groups. *)
Definition found : Type := (nat * groups)%type.

Definition match_here (r : regex) (s : string) (pos : nat) : option found :=
  rmatch r s pos [] (fun _ pos' gs => Some (pos', gs)).

(** [re.match(r, s)] *)
Definition re_match (r : regex) (s : string) : option found := match_here r s 0.

Fixpoint search_from (r : regex) (s : string) (pos : nat) : option found :=
  match match_here r s pos with
  | Some m => Some m
  | None =>
      match s with
      | String _ s' => search_from r s' (S pos)
      | EmptyString => None
      end
  end.

(** [re.search(r, s)]: the leftmost match. *)
Definition re_search (r : regex) (s : string) : option found := search_from r s 0.

Fixpoint lookup_group (g : nat) (gs : groups) : option (nat * nat) :=
  match gs with
  | [] => None
  | (g', span) :: gs' => if (g =? g')%nat then Some span else lookup_group g gs'
  end.

(** [m.group(g)] on the text [s] that was searched. *)
Definition group (s : string) (m : found) (g : nat) : option string :=
  match lookup_group g m.2 with
  | Some (start, stop) => Some (String.substring start (stop - start) s)
  | None => None
  end.

Definition char_is (c : ascii) : ascii -> bool := fun x => Ascii.eqb x c.

Definition char_in (lo hi : ascii) : ascii -> bool :=
  fun x => ((nat_of_ascii lo <=? nat_of_ascii x)
            && (nat_of_ascii x <=? nat_of_ascii hi))%nat.

(** The regular expression of a literal word of at least one character. *)
Fixpoint lit_from (c : ascii) (s : string) : regex :=
  match s with
  | EmptyString => Chr (char_is c)
  | String d s' => Cat (Chr (char_is c)) (lit_from d s')
  end.

Definition lit (c : ascii) (s : string) : regex := lit_from c s.

End Py.

Import Py.

Global Instance result_bind : MBind Py.result := fun A B k r => Py.bind r k.

(** ** difflib.SequenceMatcher, as [fuzzy_match_names] uses it

    The standard library's matcher with [isjunk=None] and the default
    [autojunk=True], following [difflib.py]: [__chain_b],
    [find_longest_match], [get_matching_blocks], [ratio]. Positions are
    integers as in Python. *)
Module Difflib.

(** [Match(a, b, size)] *)
Record Match : Set := mkMatch { m_a : Z; m_b : Z; m_size : Z }.

(** [seq[i]] for a position inside the sequence. The callers below only read
    positions [0 <= i < len(seq)]; outside them the model has no element. *)
Definition item (l : list ascii) (i : Z) : option ascii :=
  if i <? 0 then None else l !! Z.to_nat i.

Definition same_item (x y : option ascii) : bool :=
  match x, y with
  | Some c, Some d => Ascii.eqb c d
  | _, _ => false
  end.

(** First loop of [__chain_b]: [b2j[elt]] lists the positions of [elt] in
    [b], in increasing order. *)
Fixpoint index_elements (b : list ascii) (i : Z) (b2j : gmap ascii (list Z))
  : gmap ascii (list Z) :=
  match b with
  | [] => b2j
  | elt :: b' =>
      index_elements b' (i + 1) (<[elt := default [] (b2j !! elt) ++ [i]]> b2j)
  end.

(** [isjunk] is [None]: the junk set stays empty. *)
Definition bjunk : gset ascii := ∅.

Definition isbjunk (c : option ascii) : bool :=
  match c with
  | Some x => bool_decide (x ∈ bjunk)
  | None => false
  end.

(** [__chain_b]: with at least 200 elements, those that occur more than
    [n // 100 + 1] times are dropped from [b2j]. *)
Definition chain_b (b : list ascii) : gmap ascii (list Z) :=
  let b2j := index_elements b 0 ∅ in
  let n := Z.of_nat (length b) in
  if 200 <=? n then
    let ntest := n / 100 + 1 in
    omap (fun idxs : list Z =>
            if ntest <? Z.of_nat (length idxs) then None else Some idxs) b2j
  else b2j.

Section FindLongestMatch.

Variables a b : list ascii.
Variable b2j : gmap ascii (list Z).
Variables alo ahi blo bhi : Z.

(** The inner loop [for j in b2j.get(a[i], nothing)], with its [continue]
    and its [break]. *)
Fixpoint scan_row (js : list Z) (i : Z) (j2len newj2len : gmap Z Z)
    (best : Z * Z * Z) : gmap Z Z * (Z * Z * Z) :=
  match js with
  | [] => (newj2len, best)
  | j :: js' =>
      if j <? blo then scan_row js' i j2len newj2len best
      else if bhi <=? j then (newj2len, best)
      else
        let k := default 0 (j2len !! (j - 1)) + 1 in
        let newj2len := <[j := k]> newj2len in
        let best := if best.2 <? k then (i - k + 1, j - k + 1, k) else best in
        scan_row js' i j2len newj2len best
  end.

(** The outer loop [for i in range(alo, ahi)], [n] rows left from row [i]. *)
Fixpoint scan_rows (n : nat) (i : Z) (j2len : gmap Z Z) (best : Z * Z * Z)
  : Z * Z * Z :=
  match n with
  | O => best
  | S n' =>
      let js := match item a i with
                | Some x => default [] (b2j !! x)
                | None => []
                end in
      let '(newj2len, best') := scan_row js i j2len ∅ best in
      scan_rows n' (i + 1) newj2len best'
  end.

(** [while besti > alo and bestj > blo and <junk test> and
    a[besti-1] == b[bestj-1]]: at most [n] rounds, and [besti - alo] rounds
    already make the guard false. [junk] is the value the junk test wants. *)
Fixpoint extend_left (n : nat) (junk : bool) (best : Z * Z * Z) : Z * Z * Z :=
  match n with
  | O => best
  | S n' =>
      let '(besti, bestj, bestsize) := best in
      if (alo <? besti) && (blo <? bestj)
         && Bool.eqb (isbjunk (item b (bestj - 1))) junk
         && same_item (item a (besti - 1)) (item b (bestj - 1))
      then extend_left n' junk (besti - 1, bestj - 1, bestsize + 1)
      else best
  end.

(** [while besti+bestsize < ahi and bestj+bestsize < bhi and <junk test> and
    a[besti+bestsize] == b[bestj+bestsize]]. *)
Fixpoint extend_right (n : nat) (junk : bool) (best : Z * Z * Z) : Z * Z * Z :=
  match n with
  | O => best
  | S n' =>
      let '(besti, bestj, bestsize) := best in
      if (besti + bestsize <? ahi) && (bestj + bestsize <? bhi)
         && Bool.eqb (isbjunk (item b (bestj + bestsize))) junk
         && same_item (item a (besti + bestsize)) (item b (bestj + bestsize))
      then extend_right n' junk (besti, bestj, bestsize + 1)
      else best
  end.

Definition left_rounds (best : Z * Z * Z) : nat := Z.to_nat (best.1.1 - alo).
Definition right_rounds (best : Z * Z * Z) : nat :=
  Z.to_nat (ahi - (best.1.1 + best.2)).

Definition find_longest_match : Match :=
  let best := scan_rows (Z.to_nat (ahi - alo)) alo ∅ (alo, blo, 0) in
  let best := extend_left (left_rounds best) false best in
  let best := extend_right (right_rounds best) false best in
  let best := extend_left (left_rounds best) true best in
  let best := extend_right (right_rounds best) true best in
  mkMatch best.1.1 best.1.2 best.2.

End FindLongestMatch.

(** The [while queue:] loop of [get_matching_blocks]. The head of [queue] is
    the element [queue.pop()] takes. [None] when [fuel] rounds do not empty
    the queue. *)
Fixpoint matching_loop (fuel : nat) (a b : list ascii) (b2j : gmap ascii (list Z))
    (queue : list (Z * Z * Z * Z)) (matching_blocks : list Match)
  : option (list Match) :=
  match queue with
  | [] => Some matching_blocks
  | (alo, ahi, blo, bhi) :: queue' =>
      match fuel with
      | O => None
      | S fuel' =>
          let x := find_longest_match a b b2j alo ahi blo bhi in
          let i := m_a x in
          let j := m_b x in
          let k := m_size x in
          if k =? 0 then matching_loop fuel' a b b2j queue' matching_blocks
          else
            let q1 := if (alo <? i) && (blo <? j)
                      then (alo, i, blo, j) :: queue' else queue' in
            let q2 := if (i + k <? ahi) && (j + k <? bhi)
                      then (i + k, ahi, j + k, bhi) :: q1 else q1 in
            matching_loop fuel' a b b2j q2 (matching_blocks ++ [x])
      end
  end.

(** Tuple order of [Match], for [matching_blocks.sort()]. *)
Definition match_leb (x y : Match) : bool :=
  (m_a x <? m_a y)
  || (m_a x =? m_a y) && ((m_b x <? m_b y)
                          || (m_b x =? m_b y) && (m_size x <=? m_size y)).

Fixpoint insert_sorted (x : Match) (l : list Match) : list Match :=
  match l with
  | [] => [x]
  | y :: l' => if match_leb x y then x :: l else y :: insert_sorted x l'
  end.

Definition sort_blocks (l : list Match) : list Match :=
  fold_right insert_sorted [] l.

(** The loop that merges adjacent blocks; [cur] is [(i1, j1, k1)]. *)
Fixpoint collapse (blocks : list Match) (cur : Z * Z * Z)
    (non_adjacent : list Match) : list Match :=
  let '(i1, j1, k1) := cur in
  match blocks with
  | [] =>
      if k1 =? 0 then non_adjacent else non_adjacent ++ [mkMatch i1 j1 k1]
  | x :: blocks' =>
      if (i1 + k1 =? m_a x) && (j1 + k1 =? m_b x)
      then collapse blocks' (i1, j1, k1 + m_size x) non_adjacent
      else
        collapse blocks' (m_a x, m_b x, m_size x)
          (if k1 =? 0 then non_adjacent else non_adjacent ++ [mkMatch i1 j1 k1])
  end.

(** Rounds that always empty the queue (see [matching_loop_total]). *)
Definition rounds (a : list ascii) : nat := S (S (2 * length a)).

Definition get_matching_blocks (a b : list ascii) : list Match :=
  let la := Z.of_nat (length a) in
  let lb := Z.of_nat (length b) in
  let found := default [] (matching_loop (rounds a) a b (chain_b b)
                             [(0, la, 0, lb)] []) in
  collapse (sort_blocks found) (0, 0, 0) [] ++ [mkMatch la lb 0].

Definition sum_sizes (l : list Match) : Z :=
  fold_right (fun x acc => m_size x + acc) 0 l.

(** [_calculate_ratio(matches, length)]: the float [2.0 * matches / length]
    as the rational in lowest terms. *)
Definition calculate_ratio (matches length : Z) : Q :=
  if length =? 0 then 1%Q else Qred (Qmake (2 * matches) (Z.to_pos length)).

(** [SequenceMatcher(None, a, b).ratio()] *)
Definition ratio (a b : string) : Q :=
  let a := list_ascii_of_string a in
  let b := list_ascii_of_string b in
  let matches := sum_sizes (get_matching_blocks a b) in
  calculate_ratio matches (Z.of_nat (length a) + Z.of_nat (length b)).

End Difflib.

(** ** services/document_verifier.py *)
Module DocumentVerifier.

(** Lines 9-41. The two [re.sub] calls are a filter that keeps capital
    letters and white space, and the replacement of every run of white space
    by one space. *)
Fixpoint keep_letters_spaces (s : string) : string :=
  match s with
  | EmptyString => EmptyString
  | String c s' =>
      if char_in "A" "Z" c || isspace c then String c (keep_letters_spaces s')
      else keep_letters_spaces s'
  end.

Fixpoint collapse_spaces (s : string) (in_run : bool) : string :=
  match s with
  | EmptyString => EmptyString
  | String c s' =>
      if isspace c then
        if in_run then collapse_spaces s' true
        else String " " (collapse_spaces s' true)
      else String c (collapse_spaces s' false)
  end.

Definition normalize_name (name : string) : string :=
  match name with
  | EmptyString => EmptyString
  | _ =>
      let normalized := strip (upper name) in
      let normalized := keep_letters_spaces normalized in
      let normalized := collapse_spaces normalized false in
      strip normalized
  end.

(** Lines 44-83. The similarity and the threshold are rationals. *)
Definition fuzzy_match_names (name1 name2 : option string) (threshold : Q)
  : bool * Q :=
  match name1, name2 with
  | Some n1, Some n2 =>
      if truthy name1 && truthy name2 then
        let norm1 := normalize_name n1 in
        let norm2 := normalize_name n2 in
        if String.eqb norm1 norm2 then (true, 1%Q)
        else
          let similarity := Difflib.ratio norm1 norm2 in
          (Qle_bool threshold similarity, similarity)
      else (false, 0%Q)
  | _, _ => (false, 0%Q)
  end.

(** The default of the [threshold] parameter, 0.85. *)
Definition default_threshold : Q := 85 # 100.

Definition join3 (a b c : string) : string := a +:+ "-" +:+ b +:+ "-" +:+ c.

(** Lines 86-144. *)
Definition normalize_date (date_str : string) : result string :=
  match date_str with
  | EmptyString => Ok EmptyString
  | _ =>
      let date_str := strip date_str in
      let date_str := replace " " "-" (replace "." "-" (replace "/" "-" date_str)) in
      let parts := split "-" date_str in
      match parts with
      | [p0; p1; p2] =>
          if (String.length p0 =? 4)%nat && isdigit p0 then
            (* year, month, day = parts *)
            Ok (join3 (zfill 2 p2) (zfill 2 p1) p0)
          else
            (* day, month, year = parts *)
            let day := zfill 2 p0 in
            let month := zfill 2 p1 in
            if (String.length p2 =? 2)%nat then
              year_int ← int_of_str p2;
              Ok (join3 day month
                    (if 50 <? year_int then "19" +:+ p2 else "20" +:+ p2))
            else Ok (join3 day month p2)
      | _ => Ok date_str
      end
  end.

(** Lines 147-176. *)
Definition exact_match_dob (dob1 dob2 : option string) : result (bool * string) :=
  match dob1, dob2 with
  | Some d1, Some d2 =>
      if truthy dob1 && truthy dob2 then
        norm1 ← normalize_date d1;
        norm2 ← normalize_date d2;
        if String.eqb norm1 norm2 then Ok (true, "DOBs match")
        else Ok (false, "DOB mismatch: " +:+ norm1 +:+ " vs " +:+ norm2)
      else Ok (false, "One or both DOBs are missing")
  | _, _ => Ok (false, "One or both DOBs are missing")
  end.

(** One educational document as [verify_documents] reads it with
    [edu_doc.get]: [None] is an absent key or a stored NULL. *)
Record EduDoc : Set := mkEduDoc {
  id : option Z;
  qualification : option string;
  extracted_name : option string;
  extracted_dob : option string
}.

Record Comparison : Set := mkComparison {
  document_id : option Z;
  c_qualification : string;
  name_match : bool;
  name_similarity : Q;
  dob_match : bool;
  overall_match : bool
}.

(** The [reason] text of a mismatch: the name reason is built from the
    similarity, the DOB reason is the message of [exact_match_dob]. *)
Inductive Reason : Set :=
| NameBelowThreshold (similarity : Q)
| DobMessage (message : string).

Record Mismatch : Set := mkMismatch {
  mm_document_id : option Z;
  mm_qualification : string;
  field : string;
  personal_value : string;
  document_value : string;
  mm_match : bool;
  similarity : option Q;
  reason : Reason
}.

Record VerificationResult : Set := mkResult {
  status : string;
  verified_count : Z;
  total_count : Z;
  comparisons : list Comparison;
  mismatches : list Mismatch;
  error : option string
}.

(** [x or "Not found"] *)
Definition or_not_found (x : option string) : string :=
  match x with
  | Some (String c s) => String c s
  | _ => "Not found"
  end.

(** The state of the loop over the documents:
    [comparisons], [mismatches], [verified_count]. *)
Definition loop_state : Set := (list Comparison * list Mismatch * Z)%type.

(** One round of the loop, lines 254-311. *)
Definition verify_one (personal_name personal_dob : string) (st : loop_state)
    (edu_doc : EduDoc) : result loop_state :=
  let '(comparisons, mismatches, verified_count) := st in
  let doc_id := id edu_doc in
  let qualification := default "Unknown" (qualification edu_doc) in
  let edu_name := extracted_name edu_doc in
  let edu_dob := extracted_dob edu_doc in
  let '(name_match, name_similarity) :=
    fuzzy_match_names (Some personal_name) edu_name default_threshold in
  '(dob_match, dob_message) ← exact_match_dob (Some personal_dob) edu_dob;
  let overall_match := name_match && dob_match in
  let verified_count := if overall_match then verified_count + 1 else verified_count in
  let comparison :=
    mkComparison doc_id qualification name_match (round_ndigits name_similarity 3)
      dob_match overall_match in
  let comparisons := comparisons ++ [comparison] in
  let mismatches :=
    if name_match then mismatches
    else mismatches ++
         [mkMismatch doc_id qualification "name" personal_name
            (or_not_found edu_name) false (Some (round_ndigits name_similarity 3))
            (NameBelowThreshold name_similarity)] in
  let mismatches :=
    if dob_match then mismatches
    else mismatches ++
         [mkMismatch doc_id qualification "dob" personal_dob
            (or_not_found edu_dob) false None (DobMessage dob_message)] in
  Ok (comparisons, mismatches, verified_count).

Fixpoint verify_loop (personal_name personal_dob : string)
    (educational_documents : list EduDoc) (st : loop_state) : result loop_state :=
  match educational_documents with
  | [] => Ok st
  | edu_doc :: rest =>
      st' ← verify_one personal_name personal_dob st edu_doc;
      verify_loop personal_name personal_dob rest st'
  end.

(** Lines 179-338. *)
Definition verify_documents (personal_name personal_dob : option string)
    (educational_documents : list EduDoc) : result VerificationResult :=
  match personal_name, personal_dob with
  | Some (String c1 n1), Some (String c2 d2) =>
      match educational_documents with
      | [] =>
          Ok (mkResult "pending" 0 0 [] [] (Some "No educational documents found"))
      | _ =>
          '(comparisons, mismatches, verified_count) ←
            verify_loop (String c1 n1) (String c2 d2) educational_documents ([], [], 0);
          let total_count := Z.of_nat (length educational_documents) in
          let status := if verified_count =? total_count then "verified" else "failed" in
          Ok (mkResult status verified_count total_count comparisons mismatches None)
      end
  | _, _ =>
      Ok (mkResult "pending" 0 (Z.of_nat (length educational_documents)) [] []
            (Some "Personal document data incomplete"))
  end.

End DocumentVerifier.

Import DocumentVerifier.

(** ** db/crud.py *)
Module Crud.

(** A value of a workplace entry, as decoded from JSON: [None], a string or
    an integer. The other kinds of JSON value (floats, lists, objects) are
    not modelled. *)
Inductive pyval : Set :=
| PNone
| PStr (s : string)
| PInt (n : Z).

(** [bool(v)] *)
Definition truth (v : pyval) : bool :=
  match v with
  | PNone => false
  | PStr s => negb (String.eqb s "")
  | PInt n => negb (n =? 0)
  end.

(** [str(v)] *)
Definition str (v : pyval) : string :=
  match v with
  | PNone => "None"
  | PStr s => s
  | PInt n => str_of_int n
  end.

(** [int(v)] *)
Definition int (v : pyval) : result Z :=
  match v with
  | PNone => Raise TypeError
  | PStr s => int_of_str s
  | PInt n => Ok n
  end.

(** [k in workplace and workplace[k]] *)
Definition present_and_true (k : string) (workplace : gmap string pyval) : bool :=
  match workplace !! k with
  | Some v => truth v
  | None => false
  end.

Definition number : regex :=
  Cat (Cat (Chr is_digit) (Star is_digit)) (Cat (Opt (char_is ".")) (Star is_digit)).

(** The pattern of line 400: group 1 is a number [\d+\.?\d*], then white
    space [\s*], then one of [year], [yr], [y]. *)
Definition years_re : regex :=
  Cat (Group 1 number)
    (Cat (Star isspace) (Alt (lit "y" "ear") (Alt (lit "y" "r") (lit "y" "")))).

(** The pattern of line 401: the same with [month], [mon], [m]. *)
Definition months_re : regex :=
  Cat (Group 1 number)
    (Cat (Star isspace) (Alt (lit "m" "onth") (Alt (lit "m" "on") (lit "m" "")))).

(** [m.group(1)] of a search on [s], when there is a match. *)
Definition search_group1 (r : regex) (s : string) : option string :=
  match re_search r s with
  | Some m => group s m 1
  | None => None
  end.

Definition four_digits : regex :=
  Cat (Chr is_digit) (Cat (Chr is_digit) (Cat (Chr is_digit) (Chr is_digit))).

(** The directives of [_strptime]: [%m] is [1[0-2]|0[1-9]|[1-9]] and [%d] is
    [3[0-1]|[1-2]\d|0[1-9]|[1-9]| [1-9]]; groups 1, 2, 3 are [Y], [m], [d]. *)
Definition directive_m : regex :=
  Alt (Cat (Chr (char_is "1")) (Chr (char_in "0" "2")))
    (Alt (Cat (Chr (char_is "0")) (Chr (char_in "1" "9"))) (Chr (char_in "1" "9"))).

Definition directive_d : regex :=
  Alt (Cat (Chr (char_is "3")) (Chr (char_in "0" "1")))
    (Alt (Cat (Chr (char_in "1" "2")) (Chr is_digit))
       (Alt (Cat (Chr (char_is "0")) (Chr (char_in "1" "9")))
          (Alt (Chr (char_in "1" "9"))
             (Cat (Chr (char_is " ")) (Chr (char_in "1" "9")))))).

(** ["%Y-%m"] *)
Definition format_ym : regex :=
  Cat (Group 1 four_digits) (Cat (Chr (char_is "-")) (Group 2 directive_m)).

(** ["%Y-%m-%d"] *)
Definition format_ymd : regex :=
  Cat format_ym (Cat (Chr (char_is "-")) (Group 3 directive_d)).

Definition is_leap (year : Z) : bool :=
  (year mod 4 =? 0) && (negb (year mod 100 =? 0) || (year mod 400 =? 0)).

Definition days_in_month (year month : Z) : Z :=
  if month =? 2 then (if is_leap year then 29 else 28)
  else if (month =? 4) || (month =? 6) || (month =? 9) || (month =? 11) then 30
  else 31.

Definition group_int (s : string) (m : found) (g : nat) (dflt : Z) : result Z :=
  match group s m g with
  | Some text => int_of_str text
  | None => Ok dflt
  end.

(** [datetime.strptime(s, fmt)], as the year and the month of the date: the
    whole text must match, year 0 and a day the month does not have are
    [ValueError]. *)
Definition strptime (s : string) (fmt : regex) : result (Z * Z) :=
  match re_match fmt s with
  | None => Raise ValueError
  | Some m =>
      if negb (m.1 =? String.length s)%nat then Raise ValueError
      else
        year ← group_int s m 1 1900;
        month ← group_int s m 2 1;
        day ← group_int s m 3 1;
        if (1 <=? year) && (1 <=? month) && (month <=? 12)
           && (1 <=? day) && (day <=? days_in_month year month)
        then Ok (year, month)
        else Raise ValueError
  end.

(** Lines 433-442, for one of the two dates. *)
Definition parse_date (date_str : string) : result (Z * Z) :=
  if (String.length date_str =? 7)%nat then strptime date_str format_ym
  else strptime (prefix 10 date_str) format_ymd.

(** Lines 392-418: [Some months] when the entry is settled by its
    [work_duration] (the [continue]), [None] when the code goes on to the
    next rule. *)
Definition from_work_duration (workplace : gmap string pyval) : result (option Z) :=
  if present_and_true "work_duration" workplace then
    let duration_str := strip (lower (str (default PNone (workplace !! "work_duration")))) in
    let years_match := search_group1 years_re duration_str in
    let months_match := search_group1 months_re duration_str in
    let workplace_months := 0 in
    workplace_months ←
      match years_match with
      | Some text =>
          let years := float_of_decimal text in
          n ← int_of_float (float_mul years 12);
          Ok (workplace_months + n)
      | None => Ok workplace_months
      end;
    workplace_months ←
      match months_match with
      | Some text =>
          let months := float_of_decimal text in
          n ← int_of_float months;
          Ok (workplace_months + n)
      | None => Ok workplace_months
      end;
    Ok (if 0 <? workplace_months then Some workplace_months else None)
  else Ok None.

(** Lines 420-446: the rules tried when [work_duration] did not settle the
    entry. *)
Definition from_other_fields (workplace : gmap string pyval) : result Z :=
  if present_and_true "duration_months" workplace then
    duration ← int (default (PInt 0) (workplace !! "duration_months"));
    Ok (Z.max 0 duration)
  else
    match workplace !! "start_date", workplace !! "end_date" with
    | Some start_date, Some end_date =>
        let start_str := strip (str start_date) in
        let end_str := strip (str end_date) in
        '(start_year, start_month) ← parse_date start_str;
        '(end_year, end_month) ← parse_date end_str;
        let months := (end_year - start_year) * 12 + (end_month - start_month) in
        Ok (Z.max 0 months)
    | _, _ => Ok 0
    end.

(** The body of the [try], as the months the entry adds to the total. *)
Definition try_body (workplace : gmap string pyval) : result Z :=
  settled ← from_work_duration workplace;
  match settled with
  | Some months => Ok months
  | None => from_other_fields workplace
  end.

(** [except (ValueError, TypeError, AttributeError): continue]: nothing was
    added when one of them was raised; another exception leaves the loop. *)
Definition workplace_months (workplace : gmap string pyval) : result Z :=
  match try_body workplace with
  | Ok months => Ok months
  | Raise ValueError | Raise TypeError => Ok 0
  | Raise e => Raise e
  end.

Fixpoint duration_loop (workplaces : list (gmap string pyval)) (total_months : Z)
  : result Z :=
  match workplaces with
  | [] => Ok total_months
  | workplace :: rest =>
      months ← workplace_months workplace;
      duration_loop rest (total_months + months)
  end.

(** Lines 375-455. After the loop, line 452 divides the total by [12.0]
    for the log; the quotient is not returned, but the division raises when
    the total does not fit a float. *)
Definition calculate_total_experience_duration
    (workplaces : list (gmap string pyval)) : result Z :=
  match workplaces with
  | [] => Ok 0
  | _ =>
      total_months ← duration_loop workplaces 0;
      total_years ← int_div_float total_months 12;
      Ok total_months
  end.

(** Line 512: [round(total_duration_months / 12.0, 1)] *)
Definition experience_years_float (total_duration_months : Z) : result pyfloat :=
  total_years ← int_div_float total_duration_months 12;
  round_float total_years 1.

(** Line 513: [int(total_duration_months / 12)] *)
Definition experience_years_int (total_duration_months : Z) : result Z :=
  total_years ← int_truediv total_duration_months 12;
  int_of_float total_years.

(** Lines 506-518 of [save_experience]: the stored [experience_years] and
    [experience_years_float]; [experience_years] is the value the function
    had before these lines. *)
Definition stored_years (workplaces : list (gmap string pyval))
    (experience_years : Z) : result (Z * option pyfloat) :=
  total_duration_months ← calculate_total_experience_duration workplaces;
  if negb (Nat.eqb (length workplaces) 0) && (0 <? total_duration_months) then
    years_float ← experience_years_float total_duration_months;
    years_int ← experience_years_int total_duration_months;
    Ok (years_int, Some years_float)
  else Ok (experience_years, None).

End Crud.

Import Crud.

(** ** api/form.py: the verification step of [process_ocr_llm_verification] *)
Module Form.

(** The verification columns of a row of [educational_documents]; the
    errors are the [field] and the [reason] of a mismatch. *)
Record DocRow : Set := mkDocRow {
  verification_status : string;
  verification_errors : option (string * Reason)
}.

(** The verification columns of the worker's row and the worker's
    educational documents by [id]. *)
Record Db : Type := mkDb {
  worker_verification_status : string;
  worker_verification_errors : option (list Mismatch);
  educational_documents : gmap Z DocRow
}.

(** [crud.update_worker_verification(worker_id, status, errors)]: the
    errors column is written only when errors are given. *)
Definition update_worker_verification (db : Db) (status : string)
    (errors : option (list Mismatch)) : Db :=
  mkDb status
    (match errors with
     | Some e => Some e
     | None => worker_verification_errors db
     end)
    (educational_documents db).

(** [crud.update_educational_document_verification(doc_id, status, errors)]:
    an [UPDATE ... WHERE id = ?] that writes both columns of the row with
    that id, if there is one. *)
Definition update_educational_document_verification (db : Db)
    (doc_id : option Z) (status : string) (errors : option (string * Reason)) : Db :=
  match doc_id with
  | Some d =>
      mkDb (worker_verification_status db) (worker_verification_errors db)
        (alter (fun _ => mkDocRow status errors) d (educational_documents db))
  | None => db
  end.

(** Lines 443-460. *)
Definition persist_verification (verification_result : VerificationResult)
    (db : Db) : Db :=
  if String.eqb (status verification_result) "verified" then
    let db := update_worker_verification db "verified" None in
    fold_left
      (fun db comp =>
         if overall_match comp
         then update_educational_document_verification db (document_id comp)
                "verified" None
         else db)
      (comparisons verification_result) db
  else
    let db := update_worker_verification db "failed"
                (Some (mismatches verification_result)) in
    fold_left
      (fun db mismatch =>
         update_educational_document_verification db (mm_document_id mismatch)
           "failed" (Some (field mismatch, reason mismatch)))
      (mismatches verification_result) db.

(** Lines 436-478: the verification and its persistence; an exception of
    [verify_documents] is caught by the handler, which reports ["failed"]
    and writes nothing. The result is the database and the reported
    [verification_status]. *)
Definition run_verification (personal_name personal_dob : option string)
    (educational_docs : list EduDoc) (db : Db) : Db * string :=
  match verify_documents personal_name personal_dob educational_docs with
  | Ok verification_result =>
      (persist_verification verification_result db, status verification_result)
  | Raise _ => (db, "failed")
  end.

End Form.

Import Form.

(** ** utils/validators.py *)
Module Validators.

(** [re.sub(r'\D', '', mobile)]: every character that is not a digit is
    removed. *)
Fixpoint remove_non_digits (s : string) : string :=
  match s with
  | EmptyString => EmptyString
  | String c s' =>
      if is_digit c then String c (remove_non_digits s') else remove_non_digits s'
  end.

(** Lines 7-32. *)
Definition validate_mobile_number (mobile : string) : bool :=
  match mobile with
  | EmptyString => false
  | _ =>
      let mobile_clean := remove_non_digits mobile in
      (String.length mobile_clean =? 10)%nat && isdigit mobile_clean
  end.

End Validators.

Import Validators.

(** ** services/ocr_cleaner.py *)
Module OcrCleaner.

(** The ASCII characters of [quote_chars]: the single and the double
    quote, TAB and the space. The six other characters of the set are
    outside ASCII. *)
Definition quote_char (c : ascii) : bool :=
  Ascii.eqb c "'" || Ascii.eqb c (ascii_of_nat 34)
  || Ascii.eqb c (ascii_of_nat 9) || Ascii.eqb c " ".

(** [s.strip(chars)] for the set of characters [p]. *)
Definition strip_chars (p : ascii -> bool) (s : string) : string :=
  String.rev (drop_while p (String.rev (drop_while p s))).

(** Lines 62-69. *)
Definition _normalize_name (name : string) : string :=
  match name with
  | EmptyString => name
  | _ =>
      let s := strip name in
      strip (strip_chars quote_char s)
  end.

End OcrCleaner.

Import OcrCleaner.

(** ** services/llm_extractor.py *)
Module LlmExtractor.

(** Lines 14-57. *)
Definition normalize_date_format (date_str : string) : result string :=
  match date_str with
  | EmptyString => Ok EmptyString
  | _ =>
      let date_str := strip date_str in
      let date_str := replace " " "-" (replace "." "-" (replace "/" "-" date_str)) in
      let parts := split "-" date_str in
      match parts with
      | [p0; p1; p2] =>
          if (String.length p0 =? 4)%nat && isdigit p0 then
            (* year, month, day = parts *)
            Ok (join3 (zfill 2 p2) (zfill 2 p1) p0)
          else
            (* day, month, year = parts *)
            let day := zfill 2 p0 in
            let month := zfill 2 p1 in
            if (String.length p2 =? 2)%nat then
              year_int ← int_of_str p2;
              Ok (join3 day month
                    (if 50 <? year_int then "19" +:+ p2 else "20" +:+ p2))
            else Ok (join3 day month p2)
      | _ => Ok date_str
      end
  end.

End LlmExtractor.

Import LlmExtractor.

(** ** api/form.py: step 3 of [process_ocr_background], with its guards *)
Module Handler.

(** The dictionary [crud.get_worker_extraction_status] returns, without
    its [verification_status]. *)
Record ExtractionStatus : Set := mkStatus {
  personal_extracted : bool;
  personal_name : option string;
  personal_dob : option string;
  educational_extracted : Z
}.

(** crud.py, lines 1883-1969, from what its queries return: the two
    extracted columns of the worker's row ([None] for NULL and when there
    is no row) and the count of the worker's educational documents with a
    qualification. *)
Definition get_worker_extraction_status (personal_name personal_dob : option string)
    (edu_count : Z) : ExtractionStatus :=
  mkStatus (truthy personal_name && truthy personal_dob)
    personal_name personal_dob edu_count.

(** form.py, lines 422-478. [educational_docs] is what
    [crud.get_educational_documents_for_verification] returns; the result
    is the database and the reported [verification_status]. *)
Definition verification_step (extraction_status : ExtractionStatus)
    (educational_docs : list EduDoc) (db : Db) : Db * string :=
  if negb (personal_extracted extraction_status) then (db, "pending")
  else if educational_extracted extraction_status =? 0 then (db, "pending")
  else
    run_verification (personal_name extraction_status)
      (personal_dob extraction_status) educational_docs db.

End Handler.

(** * Vocabulary of the statements *)

(** How a comparison record relates to the document it was computed from. *)
Definition compared (personal_name personal_dob : string) (doc : EduDoc)
    (c : Comparison) : Prop :=
  document_id c = id doc
  /\ name_match c
     = (fuzzy_match_names (Some personal_name) (extracted_name doc) default_threshold).1
  /\ (exists msg,
        exact_match_dob (Some personal_dob) (extracted_dob doc) = Ok (dob_match c, msg))
  /\ overall_match c = name_match c && dob_match c.

Definition count_matches (cs : list Comparison) : Z :=
  fold_right (fun c n => (if overall_match c then 1 else 0) + n) 0 cs.

(** Two documents of a worker: the first matches the personal data, the
    second carries another date of birth. *)
Definition sample_docs : list EduDoc :=
  [mkEduDoc (Some 1) (Some "Class 10") (Some "BABU  KHAN") (Some "1987-12-01");
   mkEduDoc (Some 2) (Some "Class 12") (Some "Babu Khan") (Some "01-12-1988")].

Definition sample_result : VerificationResult :=
  Eval vm_compute in
    match verify_documents (Some "Babu Khan") (Some "01-12-1987") sample_docs with
    | Ok r => r
    | Raise _ => mkResult "" 0 0 [] [] None
    end.

(** The text [normalize_date] splits: outer white space removed and every
    [/], [.] and space turned into a hyphen. *)
Definition hyphenated (s : string) : string :=
  replace " " "-" (replace "." "-" (replace "/" "-" (strip s))).

Definition date_parts (s : string) : list string := split "-" (hyphenated s).

(** The century [normalize_date] puts before a two-digit year. *)
Definition century (year : string) : string :=
  if 50 <? digits_value year 0 then "19" else "20".

(** The whole number [int()] gives for a float; an infinite float has
    none and is counted as no month. *)
Definition whole (x : pyfloat) : Z :=
  match x with
  | Finite q => truncate q
  | Infinity => 0
  end.

Definition is_finite (x : pyfloat) : bool :=
  match x with
  | Finite _ => true
  | Infinity => false
  end.

(** The integer can be made a float: it does not reach the values that
    round to infinity. *)
Definition fits_float (n : Z) : bool := Z.abs n <? overflow_bound.

Definition sum_over {A} (f : A -> Z) (l : list A) : Z :=
  fold_right (fun x n => f x + n) 0 l.

(** The months of a duration phrase as the code counts them:
    [int(years * 12) + int(months)]. *)
Definition phrase_months (duration_str : string) : Z :=
  let text := strip (lower duration_str) in
  match search_group1 years_re text with
  | Some y => whole (float_mul (float_of_decimal y) 12)
  | None => 0
  end
  + match search_group1 months_re text with
    | Some m => whole (float_of_decimal m)
    | None => 0
    end.

(** The numbers of a duration phrase stay in the range of a float. *)
Definition finite_phrase (duration_str : string) : bool :=
  let text := strip (lower duration_str) in
  match search_group1 years_re text with
  | Some y => is_finite (float_mul (float_of_decimal y) 12)
  | None => true
  end
  && match search_group1 months_re text with
     | Some m => is_finite (float_of_decimal m)
     | None => true
     end.

Definition finite_entry (workplace : gmap string pyval) : bool :=
  match workplace !! "work_duration" with
  | Some v => if truth v then finite_phrase (str v) else true
  | None => true
  end.

(** The duration phrase of an entry has no number followed by a year or a
    month unit. *)
Definition no_unit (workplace : gmap string pyval) : Prop :=
  exists v,
    workplace !! "work_duration" = Some v
    /\ truth v = true
    /\ search_group1 years_re (strip (lower (str v))) = None
    /\ search_group1 months_re (strip (lower (str v))) = None.

Definition duration_rule (workplace : gmap string pyval) : Z :=
  match workplace !! "work_duration" with
  | Some v => if truth v then phrase_months (str v) else 0
  | None => 0
  end.

Definition months_field_rule (v : pyval) : Z :=
  match int v with
  | Ok n => Z.max 0 n
  | Raise _ => 0
  end.

Definition dates_rule (start_date end_date : pyval) : Z :=
  match parse_date (strip (str start_date)), parse_date (strip (str end_date)) with
  | Ok (start_year, start_month), Ok (end_year, end_month) =>
      Z.max 0 ((end_year - start_year) * 12 + (end_month - start_month))
  | _, _ => 0
  end.

(** What an entry that [work_duration] does not settle adds: the
    [duration_months] field when it is there and true, else the dates when
    both are there, else nothing. *)
Definition other_rules (workplace : gmap string pyval) : Z :=
  if present_and_true "duration_months" workplace then
    months_field_rule (default (PInt 0) (workplace !! "duration_months"))
  else
    match workplace !! "start_date", workplace !! "end_date" with
    | Some start_date, Some end_date => dates_rule start_date end_date
    | _, _ => 0
    end.

(** The months of one entry by the rules the code follows: the duration
    phrase when it gives more than zero months, else the other rules. *)
Definition rule_months (workplace : gmap string pyval) : Z :=
  if 0 <? duration_rule workplace then duration_rule workplace
  else other_rules workplace.

(** The months of one entry in the words of the specification:
    [int(years) * 12 + int(months)] when a duration phrase is present, else
    the [duration_months] field when present, else the dates. *)
Definition spec_phrase_months (duration_str : string) : Z :=
  let text := strip (lower duration_str) in
  match search_group1 years_re text with
  | Some y => whole (float_of_decimal y) * 12
  | None => 0
  end
  + match search_group1 months_re text with
    | Some m => whole (float_of_decimal m)
    | None => 0
    end.

Definition spec_entry_months (workplace : gmap string pyval) : Z :=
  if present_and_true "work_duration" workplace then
    spec_phrase_months (str (default PNone (workplace !! "work_duration")))
  else
    match workplace !! "duration_months" with
    | Some v => months_field_rule v
    | None =>
        match workplace !! "start_date", workplace !! "end_date" with
        | Some start_date, Some end_date => dates_rule start_date end_date
        | _, _ => 0
        end
    end.

(** The stored verification status of the educational document [d]. *)
Definition doc_status (db : Db) (d : Z) : option string :=
  verification_status <$> educational_documents db !! d.

(** A worker whose two documents are stored and not yet verified. *)
Definition sample_db : Db :=
  mkDb "pending" None
    {[ 1 := mkDocRow "pending" None; 2 := mkDocRow "pending" None ]}.

(** A loop over [l] that updates, for each element it does not skip, the
    document the element names with the row of the element. *)
Definition update_all {A} (key : A -> option Z) (written : A -> bool)
    (row : A -> DocRow) (l : list A) (db : Db) : Db :=
  fold_left
    (fun db x =>
       if written x
       then update_educational_document_verification db (key x)
              (verification_status (row x)) (verification_errors (row x))
       else db)
    l db.

(** A candidate block [(i, j, k)] of [find_longest_match] is either the
    empty block at the start of the two windows or a block of positive size
    inside them. *)
Definition good (alo ahi blo bhi : Z) (best : Z * Z * Z) : Prop :=
  let '(i, j, k) := best in
  (k = 0 /\ i = alo /\ j = blo)
  \/ (0 < k /\ alo <= i /\ i + k <= ahi /\ blo <= j /\ j + k <= bhi).

(** The run lengths kept in [j2len] before row [i] fit in the rows and the
    columns of the windows read so far. *)
Definition lengths_ok (alo blo i : Z) (j2len : gmap Z Z) : Prop :=
  forall j v, j2len !! j = Some v -> 1 <= v <= i - alo /\ v <= j - blo + 1.

(** The lengths of the two windows of a queue element, and the weight that
    goes down at each round of the loop of [get_matching_blocks]. *)
Definition span_a (q : Z * Z * Z * Z) : Z :=
  let '(alo, ahi, _, _) := q in Z.max 0 (ahi - alo).

Definition span_b (q : Z * Z * Z * Z) : Z :=
  let '(_, _, blo, bhi) := q in Z.max 0 (bhi - blo).

Definition weight (q : Z * Z * Z * Z) : Z := 1 + 2 * span_a q.

(** What a verification returns apart from its records: the status, the
    verified count and the total count. *)
Definition summary (res : result VerificationResult) : result (string * Z * Z) :=
  r ← res; Ok (status r, verified_count r, total_count r).

(** The overall match of one document, when its dates can be compared. *)
Definition doc_outcome (personal_name personal_dob : string) (doc : EduDoc)
  : result bool :=
  dob_result ← exact_match_dob (Some personal_dob) (extracted_dob doc);
  Ok ((fuzzy_match_names (Some personal_name) (extracted_name doc)
         default_threshold).1 && dob_result.1).

(** The number of documents of a list that match. *)
Fixpoint tally (personal_name personal_dob : string) (docs : list EduDoc)
  : result Z :=
  match docs with
  | [] => Ok 0
  | doc :: rest =>
      Py.bind (doc_outcome personal_name personal_dob doc) (fun m : bool =>
      Py.bind (tally personal_name personal_dob rest) (fun k : Z =>
      Ok ((if m then 1 else 0) + k)))
  end.

(** The verified count a loop state holds. *)
Definition count_of (st : result loop_state) : result Z :=
  s ← st; Ok s.2.

(** The comparisons of a list that did not match. *)
Definition failures (cs : list Comparison) : Z :=
  Z.of_nat (length cs) - count_matches cs.

(** [s.rstrip()] without reversing the text: characters that satisfy [p]
    are dropped from the end. *)
Fixpoint drop_while_end (p : ascii -> bool) (s : string) : string :=
  match s with
  | EmptyString => EmptyString
  | String c s' =>
      match drop_while_end p s' with
      | EmptyString => if p c then EmptyString else String c EmptyString
      | r => String c r
      end
  end.

(** The characters of a normalized name: a capital letter or the space. *)
Definition letter_or_space (c : ascii) : bool :=
  char_in "A" "Z" c || Ascii.eqb c " ".

(** No space at the end, no two spaces in a row and, when [after_space]
    holds, no space at the start. *)
Fixpoint single_spaced (t : string) (after_space : bool) : bool :=
  match t with
  | EmptyString => negb after_space
  | String c t' =>
      if Ascii.eqb c " " then negb after_space && single_spaced t' true
      else single_spaced t' false
  end.

(** Words of capital letters with one space between two words; the empty
    text has no word. *)
Definition tidy (t : string) : bool :=
  all_chars letter_or_space t
  && match t with
     | EmptyString => true
     | _ => single_spaced t true
     end.

(** Whether two dates were found equal, apart from the message. *)
Definition verdict (res : result (bool * string)) : result bool :=
  r ← res; Ok r.1.

(** No two spaces in a row and, when [after_space] holds, no space at the
    start: what [single_spaced] asks, apart from the end of the text. *)
Fixpoint spaced (t : string) (after_space : bool) : bool :=
  match t with
  | EmptyString => true
  | String c t' =>
      if Ascii.eqb c " " then negb after_space && spaced t' true
      else spaced t' false
  end.

(** The four characters [normalize_date] reads as a separator. *)
Definition is_sep (c : ascii) : bool :=
  Ascii.eqb c "/" || Ascii.eqb c "." || Ascii.eqb c " " || Ascii.eqb c "-".

(** A date written as three texts with a separator after the first and
    after the second. *)
Definition written (a : string) (s1 : ascii) (b : string) (s2 : ascii) (c : string)
  : string :=
  a +:+ String s1 (b +:+ String s2 c).

(** The row that the last written element naming the document [d] gives,
    if an element of the loop names [d]. *)
Definition last_row {A} (key : A -> option Z) (written : A -> bool)
    (row : A -> DocRow) (l : list A) (d : Z) : option DocRow :=
  fold_left
    (fun acc x => if written x && bool_decide (key x = Some d) then Some (row x) else acc)
    l None.

(** A month number written with two digits, as in ["2021-07"]. *)
Definition month_text (month : Z) : string := zfill 2 (str_of_int month).

(** The text of a year and a month, ["YYYY-MM"]. *)
Definition year_month (year : string) (month : Z) : string :=
  year +:+ String "-" (month_text month).

(** * Properties *)

#[global] Arguments fuzzy_match_names : simpl never.
#[global] Arguments exact_match_dob : simpl never.
#[global] Arguments normalize_date : simpl never.
#[global] Arguments normalize_name : simpl never.

(** ** Results and exceptions *)

Lemma bind_Ok {A B} (r : result A) (k : A -> result B) (b : B) :
  r ≫= k = Ok b -> exists a, r = Ok a /\ k a = Ok b.
Proof. destruct r as [a|e]; simpl; [eauto | discriminate]. Qed.

Lemma bind_Ok_eq {A B} (a : A) (k : A -> result B) : Ok a ≫= k = k a.
Proof. reflexivity. Qed.

Lemma bind_Raise_eq {A B} (e : exn) (k : A -> result B) : Raise e ≫= k = Raise e.
Proof. reflexivity. Qed.

Lemma truthy_true (s : option string) :
  truthy s = true <-> exists c s', s = Some (String c s').
Proof.
  split.
  - destruct s as [[|c s']|]; simpl; try discriminate; eauto.
  - intros (c & s' & ->); reflexivity.
Qed.

(** ** The aggregate status of [verify_documents] *)

Lemma count_matches_app (cs1 cs2 : list Comparison) :
  count_matches (cs1 ++ cs2) = count_matches cs1 + count_matches cs2.
Proof. induction cs1 as [|c cs1 IH]; simpl; [reflexivity | rewrite IH; lia]. Qed.

Lemma count_matches_bounds (cs : list Comparison) :
  0 <= count_matches cs <= Z.of_nat (length cs).
Proof.
  induction cs as [|c cs IH]; simpl length; simpl count_matches; [lia|].
  destruct (overall_match c); lia.
Qed.

Lemma count_matches_all (cs : list Comparison) :
  count_matches cs = Z.of_nat (length cs)
  <-> Forall (fun c => overall_match c = true) cs.
Proof.
  induction cs as [|c cs IH]; simpl length; simpl count_matches.
  - split; [constructor | reflexivity].
  - pose proof (count_matches_bounds cs) as Hb.
    rewrite Forall_cons. destruct (overall_match c).
    + rewrite <- IH. split; [intros; split; [reflexivity | lia] | intros [_ ?]; lia].
    + split; [lia | intros [? _]; discriminate].
Qed.

Lemma verify_one_Ok (n d : string) (cs : list Comparison) (ms : list Mismatch)
    (vc : Z) (doc : EduDoc) (st : loop_state) :
  verify_one n d (cs, ms, vc) doc = Ok st ->
  exists c ms',
    st = (cs ++ [c], ms', vc + (if overall_match c then 1 else 0))
    /\ compared n d doc c.
Proof.
  unfold verify_one.
  destruct (fuzzy_match_names (Some n) (extracted_name doc) default_threshold)
    as [nm sim] eqn:Hn.
  destruct (exact_match_dob (Some d) (extracted_dob doc)) as [[dm msg]|e] eqn:Hd;
    simpl; [|discriminate].
  intros [= <-]. eexists; eexists; split.
  - f_equal. destruct (nm && dm); simpl; [reflexivity | f_equal; lia].
  - unfold compared; cbn [document_id name_match dob_match overall_match].
    rewrite Hn. repeat split; eauto.
Qed.

Lemma verify_loop_Ok (n d : string) (docs : list EduDoc) :
  forall (cs : list Comparison) (ms : list Mismatch) (vc : Z)
         (cs' : list Comparison) (ms' : list Mismatch) (vc' : Z),
  verify_loop n d docs (cs, ms, vc) = Ok (cs', ms', vc') ->
  exists new,
    cs' = cs ++ new
    /\ vc' = vc + count_matches new
    /\ Forall2 (compared n d) docs new.
Proof.
  induction docs as [|doc docs IH]; intros cs ms vc cs' ms' vc'; simpl.
  - intros [= <- <- <-]. exists []. rewrite app_nil_r. simpl.
    split; [|split]; [reflexivity | lia | constructor].
  - intros H. apply bind_Ok in H as (st & H1 & H2).
    apply verify_one_Ok in H1 as (c & ms1 & -> & Hc).
    apply IH in H2 as (new & -> & -> & HF).
    exists (c :: new). rewrite <- app_assoc. simpl. split; [reflexivity|].
    split; [lia | constructor; assumption].
Qed.

(** When the personal data and the document list are there, a returned
    result holds one comparison per document and the count of the
    comparisons that matched. *)
Lemma verify_documents_Ok (personal_name personal_dob : option string)
    (docs : list EduDoc) (r : VerificationResult) :
  truthy personal_name = true -> truthy personal_dob = true -> docs <> [] ->
  verify_documents personal_name personal_dob docs = Ok r ->
  exists n d,
    personal_name = Some n /\ personal_dob = Some d
    /\ Forall2 (compared n d) docs (comparisons r)
    /\ verified_count r = count_matches (comparisons r)
    /\ total_count r = Z.of_nat (length docs)
    /\ status r = (if verified_count r =? total_count r then "verified" else "failed")
    /\ error r = None.
Proof.
  intros Hn Hd Hdocs.
  apply truthy_true in Hn as (c1 & n1 & ->). apply truthy_true in Hd as (c2 & d1 & ->).
  unfold verify_documents. destruct docs as [|doc docs]; [congruence|].
  intros H. apply bind_Ok in H as ([[cs ms] vc] & H1 & H2).
  injection H2 as <-. apply verify_loop_Ok in H1 as (new & -> & -> & HF).
  exists (String c1 n1), (String c2 d1). simpl. repeat split; try reflexivity; assumption.
Qed.

Lemma status_eq_dec (b : bool) :
  ((if b then "verified" else "failed") = "verified" <-> b = true)
  /\ ((if b then "verified" else "failed") = "failed" <-> b = false).
Proof. destruct b; split; split; intros; try reflexivity; discriminate. Qed.

Lemma exact_match_dob_returns (d1 : string) (dob2 : option string) :
  is_ok (normalize_date d1) = true ->
  (forall d2, dob2 = Some d2 -> is_ok (normalize_date d2) = true) ->
  exists res, exact_match_dob (Some d1) dob2 = Ok res.
Proof.
  intros H1 H2. unfold exact_match_dob.
  destruct dob2 as [d2|]; [|eauto].
  destruct (truthy (Some d1) && truthy (Some d2)); [|eauto].
  specialize (H2 d2 eq_refl).
  destruct (normalize_date d1); [|discriminate].
  destruct (normalize_date d2); [|discriminate]. simpl.
  destruct (String.eqb _ _); eauto.
Qed.

(** [verify_documents] returns a result whenever [normalize_date] raises
    on none of the dates of birth. *)
Lemma verify_documents_returns (personal_name personal_dob : option string)
    (docs : list EduDoc) :
  (forall d, personal_dob = Some d -> is_ok (normalize_date d) = true) ->
  (forall doc d, doc ∈ docs -> extracted_dob doc = Some d ->
     is_ok (normalize_date d) = true) ->
  exists r, verify_documents personal_name personal_dob docs = Ok r.
Proof.
  intros Hp Hdocs. unfold verify_documents.
  destruct personal_name as [[|c1 n1]|], personal_dob as [[|c2 d1]|]; eauto.
  destruct docs as [|doc0 docs0]; [eauto|].
  set (docs := doc0 :: docs0) in *. clearbody docs.
  specialize (Hp _ eq_refl).
  assert (Hloop : forall st, exists st',
             verify_loop (String c1 n1) (String c2 d1) docs st = Ok st').
  { induction docs as [|doc docs IH]; intros st; simpl; [eauto|].
    destruct (exact_match_dob_returns (String c2 d1) (extracted_dob doc) Hp)
      as ([dm msg] & Hd).
    { intros d2 Hd2. apply (Hdocs doc d2); [left | exact Hd2]. }
    destruct st as [[cs ms] vc]. unfold verify_one.
    destruct (fuzzy_match_names _ _ _) as [nm sim]. rewrite Hd. simpl.
    apply IH. intros doc' d' Hin. apply Hdocs. right. exact Hin. }
  destruct (Hloop ([], [], 0)) as ([[cs ms] vc] & ->). simpl. eauto.
Qed.

Lemma verify_documents_verified_iff (personal_name personal_dob : option string)
    (docs : list EduDoc) (r : VerificationResult) :
  truthy personal_name = true -> truthy personal_dob = true -> docs <> [] ->
  verify_documents personal_name personal_dob docs = Ok r ->
  status r = "verified" <-> Forall (fun c => overall_match c = true) (comparisons r).
Proof.
  intros Hn Hd Hdocs H.
  destruct (verify_documents_Ok _ _ _ _ Hn Hd Hdocs H)
    as (n & d & -> & -> & HF & Hvc & Htc & Hst & _).
  pose proof (Forall2_length _ _ _ HF) as Hlen.
  rewrite Hst, (proj1 (status_eq_dec _)), Z.eqb_eq, Hvc, Htc, Hlen.
  apply count_matches_all.
Qed.

(** C1. With a non-empty personal name, a non-empty personal DOB and at
    least one educational document, the status a call returns is "verified"
    exactly when the overall match of every document is true and "failed"
    exactly when some document did not match; the overall match of a
    document is its name match and its DOB match, so one mismatched
    document fails the verification whatever the others did. *)
Theorem verify_documents_all_or_nothing (personal_name personal_dob : option string)
    (docs : list EduDoc) (r : VerificationResult) :
  truthy personal_name = true -> truthy personal_dob = true -> docs <> [] ->
  verify_documents personal_name personal_dob docs = Ok r ->
  (status r = "verified" <-> Forall (fun c => overall_match c = true) (comparisons r))
  /\ (status r = "failed" <-> Exists (fun c => overall_match c = false) (comparisons r))
  /\ (status r = "verified" \/ status r = "failed")
  /\ length (comparisons r) = length docs
  /\ exists n d, personal_name = Some n /\ personal_dob = Some d
       /\ Forall2 (compared n d) docs (comparisons r).
Proof.
  intros Hn Hd Hdocs H.
  destruct (verify_documents_Ok _ _ _ _ Hn Hd Hdocs H)
    as (n & d & -> & -> & HF & Hvc & Htc & Hst & _).
  pose proof (Forall2_length _ _ _ HF) as Hlen.
  assert (Hall : (verified_count r =? total_count r) = true
                 <-> Forall (fun c => overall_match c = true) (comparisons r)).
  { rewrite Z.eqb_eq, Hvc, Htc, Hlen. apply count_matches_all. }
  destruct (status_eq_dec (verified_count r =? total_count r)) as [Hv Hf].
  rewrite Hst. split; [|split; [|split; [|split]]].
  - rewrite Hv. exact Hall.
  - rewrite Hf. split.
    + intros Hb. destruct (decide (Forall (fun c => overall_match c = true) (comparisons r)))
        as [HA|HA]; [apply Hall in HA; congruence|].
      apply not_Forall_Exists in HA; [|intros c; apply _].
      eapply Exists_impl; [exact HA|]. intros c Hc. simpl in Hc.
      destruct (overall_match c); congruence.
    + intros HE. destruct (verified_count r =? total_count r) eqn:Hb; [|reflexivity].
      exfalso. apply Exists_exists in HE as (c & Hin & Hc).
      assert (HA : Forall (fun c => overall_match c = true) (comparisons r))
        by (apply Hall; reflexivity).
      rewrite Forall_forall in HA. specialize (HA c Hin). congruence.
  - destruct (verified_count r =? total_count r); auto.
  - symmetry; exact Hlen.
  - exists n, d. auto.
Qed.

(** C6. When the personal name is empty, the personal DOB is empty or
    there is no educational document, [verify_documents] raises nothing and
    returns the status "pending" with no comparison, a verified count of
    zero and an error text. *)
Theorem verify_documents_pending (personal_name personal_dob : option string)
    (docs : list EduDoc) :
  truthy personal_name = false \/ truthy personal_dob = false \/ docs = [] ->
  exists r,
    verify_documents personal_name personal_dob docs = Ok r
    /\ status r = "pending"
    /\ comparisons r = []
    /\ mismatches r = []
    /\ verified_count r = 0
    /\ exists text, error r = Some text /\ text <> "".
Proof.
  intros H. unfold verify_documents.
  destruct personal_name as [[|c1 n1]|], personal_dob as [[|c2 d1]|];
    try (eexists; repeat split; eexists; split; [reflexivity | discriminate]).
  destruct docs as [|doc docs].
  - eexists; repeat split; eexists; split; [reflexivity | discriminate].
  - exfalso. destruct H as [H|[H|H]]; discriminate.
Qed.

(** ** The name matcher *)

Lemma fuzzy_match_names_missing (name1 name2 : option string) (threshold : Q) :
  truthy name1 = false \/ truthy name2 = false ->
  fuzzy_match_names name1 name2 threshold = (false, 0%Q).
Proof.
  unfold fuzzy_match_names. intros H.
  destruct name1 as [n1|], name2 as [n2|]; try reflexivity.
  destruct H as [H|H]; rewrite H; [reflexivity | rewrite andb_false_r; reflexivity].
Qed.

Lemma fuzzy_match_names_present (n1 n2 : string) (threshold : Q) :
  truthy (Some n1) = true -> truthy (Some n2) = true ->
  fuzzy_match_names (Some n1) (Some n2) threshold
  = if String.eqb (normalize_name n1) (normalize_name n2) then (true, 1%Q)
    else (Qle_bool threshold (Difflib.ratio (normalize_name n1) (normalize_name n2)),
          Difflib.ratio (normalize_name n1) (normalize_name n2)).
Proof. unfold fuzzy_match_names. intros -> ->. reflexivity. Qed.

(** C3. [fuzzy_match_names] returns [(False, 0.0)] when a name is empty;
    for two non-empty names with equal normalized forms it returns
    [(True, 1.0)]; otherwise the similarity is the matcher's ratio and the
    names match exactly when the ratio is at least the threshold, so with
    the default threshold 0.85 a ratio of 0.84 does not match and a ratio of
    0.86 matches. *)
Theorem fuzzy_match_names_spec (name1 name2 : option string) (threshold : Q) :
  (truthy name1 = false \/ truthy name2 = false ->
   fuzzy_match_names name1 name2 threshold = (false, 0%Q))
  /\ (forall n1 n2,
        name1 = Some n1 -> name2 = Some n2 ->
        truthy name1 = true -> truthy name2 = true ->
        (normalize_name n1 = normalize_name n2 ->
         fuzzy_match_names name1 name2 threshold = (true, 1%Q))
        /\ (normalize_name n1 <> normalize_name n2 ->
            let similarity := Difflib.ratio (normalize_name n1) (normalize_name n2) in
            (fuzzy_match_names name1 name2 threshold).2 = similarity
            /\ ((fuzzy_match_names name1 name2 threshold).1 = true
                <-> (threshold <= similarity)%Q)
            /\ ((similarity == 84 # 100)%Q ->
                (fuzzy_match_names name1 name2 default_threshold).1 = false)
            /\ ((similarity == 86 # 100)%Q ->
                (fuzzy_match_names name1 name2 default_threshold).1 = true))).
Proof.
  split; [apply fuzzy_match_names_missing|].
  intros n1 n2 -> -> H1 H2. split.
  - intros Heq. rewrite fuzzy_match_names_present by assumption.
    rewrite Heq, String.eqb_refl. reflexivity.
  - intros Hne similarity.
    assert (Hpresent : forall t, fuzzy_match_names (Some n1) (Some n2) t
                                 = (Qle_bool t similarity, similarity)).
    { intros t. rewrite fuzzy_match_names_present by assumption.
      destruct (String.eqb_spec (normalize_name n1) (normalize_name n2));
        [contradiction | reflexivity]. }
    rewrite !Hpresent. cbn [fst snd]. split; [reflexivity|]. split; [apply Qle_bool_iff|].
    split; intros Hs.
    + destruct (Qle_bool default_threshold similarity) eqn:Hle; [|reflexivity].
      apply Qle_bool_iff in Hle. rewrite Hs in Hle. vm_compute in Hle.
      exfalso; apply Hle; reflexivity.
    + apply Qle_bool_iff. rewrite Hs. vm_compute. discriminate.
Qed.

Lemma fuzzy_match_names_spec_witness :
  fuzzy_match_names (Some "") (Some "Babu Khan") default_threshold = (false, 0%Q)
  /\ fuzzy_match_names (Some "Babu Khan") (Some "BABU  KHAN") default_threshold = (true, 1%Q)
  /\ (fuzzy_match_names (Some "AAAAAAAAAAAAAAAAAAAAABBBB")
        (Some "AAAAAAAAAAAAAAAAAAAAACCCC") default_threshold).1 = false
  /\ (fuzzy_match_names (Some "AAAAAAAAAAAAAAAAAAAAAAAAAAAAAAAAAAAAAAAAAAABBBBBBB")
        (Some "AAAAAAAAAAAAAAAAAAAAAAAAAAAAAAAAAAAAAAAAAAACCCCCCC") default_threshold).1 = true.
Proof.
  split; [|split; [|split]].
  - apply (proj1 (fuzzy_match_names_spec (Some "") (Some "Babu Khan") default_threshold)).
    left; reflexivity.
  - apply (proj2 (fuzzy_match_names_spec (Some "Babu Khan") (Some "BABU  KHAN")
                    default_threshold) "Babu Khan" "BABU  KHAN");
      reflexivity.
  - destruct (fuzzy_match_names_spec (Some "AAAAAAAAAAAAAAAAAAAAABBBB")
                (Some "AAAAAAAAAAAAAAAAAAAAACCCC") default_threshold) as [_ H].
    destruct (H _ _ eq_refl eq_refl eq_refl eq_refl) as [_ H2].
    destruct H2 as (_ & _ & H84 & _); [vm_compute; discriminate|].
    apply H84. vm_compute. reflexivity.
  - destruct (fuzzy_match_names_spec
                (Some "AAAAAAAAAAAAAAAAAAAAAAAAAAAAAAAAAAAAAAAAAAABBBBBBB")
                (Some "AAAAAAAAAAAAAAAAAAAAAAAAAAAAAAAAAAAAAAAAAAACCCCCCC")
                default_threshold) as [_ H].
    destruct (H _ _ eq_refl eq_refl eq_refl eq_refl) as [_ H2].
    destruct H2 as (_ & _ & _ & H86); [vm_compute; discriminate|].
    apply H86. vm_compute. reflexivity.
Defined.

(** ** The date-of-birth matcher *)

Lemma exact_match_dob_missing (dob1 dob2 : option string) :
  truthy dob1 = false \/ truthy dob2 = false ->
  exact_match_dob dob1 dob2 = Ok (false, "One or both DOBs are missing").
Proof.
  unfold exact_match_dob. intros H.
  destruct dob1 as [d1|], dob2 as [d2|]; try reflexivity.
  destruct H as [H|H]; rewrite H; [reflexivity | rewrite andb_false_r; reflexivity].
Qed.

Lemma exact_match_dob_present (d1 d2 : string) :
  truthy (Some d1) = true -> truthy (Some d2) = true ->
  exact_match_dob (Some d1) (Some d2)
  = (norm1 ← normalize_date d1;
     norm2 ← normalize_date d2;
     if String.eqb norm1 norm2 then Ok (true, "DOBs match")
     else Ok (false, "DOB mismatch: " +:+ norm1 +:+ " vs " +:+ norm2)).
Proof. unfold exact_match_dob. intros -> ->. reflexivity. Qed.

(** C4. [exact_match_dob] returns false with the missing-data message
    when a DOB is empty; otherwise it returns true exactly when
    [normalize_date] gives the same string for both, with no tolerance: two
    DOBs whose normalized forms differ do not match. The DOBs "01-12-1987"
    and "1-12-87" match, both being normalized to "01-12-1987". *)
Theorem exact_match_dob_spec (dob1 dob2 : option string) :
  (truthy dob1 = false \/ truthy dob2 = false ->
   exact_match_dob dob1 dob2 = Ok (false, "One or both DOBs are missing"))
  /\ (forall d1 d2,
        dob1 = Some d1 -> dob2 = Some d2 ->
        truthy dob1 = true -> truthy dob2 = true ->
        ((exists msg, exact_match_dob dob1 dob2 = Ok (true, msg))
         <-> (exists n, normalize_date d1 = Ok n /\ normalize_date d2 = Ok n))
        /\ (forall n1 n2,
              normalize_date d1 = Ok n1 -> normalize_date d2 = Ok n2 -> n1 <> n2 ->
              exists msg, exact_match_dob dob1 dob2 = Ok (false, msg)))
  /\ normalize_date "01-12-1987" = Ok "01-12-1987"
  /\ normalize_date "1-12-87" = Ok "01-12-1987"
  /\ exact_match_dob (Some "01-12-1987") (Some "1-12-87") = Ok (true, "DOBs match").
Proof.
  split; [apply exact_match_dob_missing|].
  split; [|repeat split; vm_compute; reflexivity].
  intros d1 d2 -> -> H1 H2. rewrite (exact_match_dob_present _ _ H1 H2). split; [split|].
  - intros [msg H]. apply bind_Ok in H as (n1 & Hn1 & H).
    apply bind_Ok in H as (n2 & Hn2 & H).
    destruct (String.eqb_spec n1 n2) as [->|Hne]; [eauto | discriminate].
  - intros (n & -> & ->). simpl. rewrite String.eqb_refl. eauto.
  - intros n1 n2 -> -> Hne. simpl.
    destruct (String.eqb_spec n1 n2) as [->|_]; [contradiction | eauto].
Qed.

Lemma exact_match_dob_spec_witness :
  exact_match_dob (Some "") (Some "01-12-1987") = Ok (false, "One or both DOBs are missing")
  /\ (exists msg, exact_match_dob (Some "01-12-1987") (Some "1987/12/01") = Ok (true, msg))
  /\ (exists msg, exact_match_dob (Some "01-12-1987") (Some "01-12-1981") = Ok (false, msg)).
Proof.
  split; [|split].
  - apply (proj1 (exact_match_dob_spec (Some "") (Some "01-12-1987"))).
    left; reflexivity.
  - destruct (exact_match_dob_spec (Some "01-12-1987") (Some "1987/12/01")) as (_ & H & _).
    destruct (H _ _ eq_refl eq_refl eq_refl eq_refl) as [Hiff _].
    apply Hiff. exists "01-12-1987". split; vm_compute; reflexivity.
  - destruct (exact_match_dob_spec (Some "01-12-1987") (Some "01-12-1981")) as (_ & H & _).
    destruct (H _ _ eq_refl eq_refl eq_refl eq_refl) as [_ Hdiff].
    apply (Hdiff "01-12-1987" "01-12-1981"); [vm_compute; reflexivity .. | discriminate].
Defined.

Lemma verify_documents_pending_witness :
  exists r,
    verify_documents (Some "A") (Some "")
      [mkEduDoc (Some 1) (Some "Class 10") (Some "A") (Some "01-12-1987")] = Ok r
    /\ status r = "pending"
    /\ comparisons r = []
    /\ mismatches r = []
    /\ verified_count r = 0
    /\ exists text, error r = Some text /\ text <> "".
Proof.
  apply (verify_documents_pending (Some "A") (Some "")).
  right; left; reflexivity.
Defined.

Lemma verify_documents_all_or_nothing_witness :
  (status sample_result = "verified"
   <-> Forall (fun c => overall_match c = true) (comparisons sample_result))
  /\ (status sample_result = "failed"
      <-> Exists (fun c => overall_match c = false) (comparisons sample_result))
  /\ (status sample_result = "verified" \/ status sample_result = "failed")
  /\ length (comparisons sample_result) = length sample_docs
  /\ exists n d, Some "Babu Khan" = Some n /\ Some "01-12-1987" = Some d
       /\ Forall2 (compared n d) sample_docs (comparisons sample_result).
Proof.
  apply (verify_documents_all_or_nothing (Some "Babu Khan") (Some "01-12-1987")
           sample_docs sample_result);
    [reflexivity | reflexivity | discriminate | vm_compute; reflexivity].
Defined.

(** ** Date normalization *)

Lemma is_digit_plain (c : ascii) :
  is_digit c = true ->
  int_space c = false /\ Ascii.eqb c "-" = false /\ Ascii.eqb c "+" = false.
Proof.
  destruct c as [[] [] [] [] [] [] [] []]; vm_compute; intros H;
    first [discriminate H | repeat split].
Qed.

Lemma int_of_two_digits (year : string) :
  String.length year = 2%nat -> isdigit year = true ->
  int_of_str year = Ok (digits_value year 0).
Proof.
  destruct year as [|a [|b [|c rest]]]; try discriminate. intros _.
  unfold isdigit, all_chars. rewrite andb_true_r. intros H.
  apply andb_prop in H as [Ha Hb].
  destruct (is_digit_plain a Ha) as (Ha1 & Ha2 & Ha3).
  destruct (is_digit_plain b Hb) as (Hb1 & _ & _).
  unfold int_of_str. cbn [drop_while]. rewrite Ha1.
  unfold String.rev. cbn [String.rev_app drop_while]. rewrite Hb1.
  cbn [String.rev_app]. rewrite Ha2, Ha3. cbn [int_digits digits_value].
  rewrite Ha. cbn [int_digits]. rewrite Hb. cbn [int_digits]. reflexivity.
Qed.

Lemma normalize_date_parts (s : string) :
  s <> "" ->
  normalize_date s
  = match date_parts s with
    | [p0; p1; p2] =>
        if (String.length p0 =? 4)%nat && isdigit p0 then
          Ok (join3 (zfill 2 p2) (zfill 2 p1) p0)
        else if (String.length p2 =? 2)%nat then
          year_int ← int_of_str p2;
          Ok (join3 (zfill 2 p0) (zfill 2 p1)
                (if 50 <? year_int then "19" +:+ p2 else "20" +:+ p2))
        else Ok (join3 (zfill 2 p0) (zfill 2 p1) p2)
    | _ => Ok (hyphenated s)
    end.
Proof. destruct s; [congruence | reflexivity]. Qed.

(** What [normalize_date] returns, case by case. It removes outer white
    space and reads [/], [.], space and [-] as separators. A text that does
    not split into exactly 3 parts comes back in that hyphenated form,
    without an exception; the empty text comes back as it is. With 3 parts
    of which the first is 4 digits, the parts are year, month, day and the
    result is day-month-year; otherwise they are day, month, year. Day and
    month are filled with zeros to 2 characters, and a year of two digits
    gets "19" in front when its value is above 50 and "20" otherwise. Hence
    "1987-12-01" and "1/2/87" become "01-12-1987" and "01-02-1987". *)
Lemma normalize_date_spec (s : string) :
  s <> "" ->
  (length (date_parts s) <> 3%nat -> normalize_date s = Ok (hyphenated s))
  /\ (forall year month day,
        date_parts s = [year; month; day] ->
        String.length year = 4%nat -> isdigit year = true ->
        normalize_date s = Ok (join3 (zfill 2 day) (zfill 2 month) year))
  /\ (forall day month year,
        date_parts s = [day; month; year] ->
        ~ (String.length day = 4%nat /\ isdigit day = true) ->
        (String.length year = 2%nat -> isdigit year = true ->
         normalize_date s
         = Ok (join3 (zfill 2 day) (zfill 2 month) (century year +:+ year)))
        /\ (String.length year <> 2%nat ->
            normalize_date s = Ok (join3 (zfill 2 day) (zfill 2 month) year)))
  /\ normalize_date "" = Ok ""
  /\ normalize_date "1987-12-01" = Ok "01-12-1987"
  /\ normalize_date "1/2/87" = Ok "01-02-1987".
Proof.
  intros Hs. rewrite (normalize_date_parts s Hs).
  split; [|split; [|split; [|repeat split; vm_compute; reflexivity]]].
  - intros Hlen. destruct (date_parts s) as [|p0 [|p1 [|p2 [|p3 ps]]]];
      try reflexivity. simpl in Hlen. congruence.
  - intros year month day -> Hlen Hdig. rewrite Hlen, Hdig. reflexivity.
  - intros day month year -> Hday.
    assert (Hfirst : (String.length day =? 4)%nat && isdigit day = false).
    { destruct ((String.length day =? 4)%nat) eqn:Hl; [|reflexivity].
      destruct (isdigit day) eqn:Hd; [|reflexivity].
      exfalso. apply Hday. split; [apply Nat.eqb_eq; assumption | reflexivity]. }
    rewrite Hfirst. split.
    + intros Hlen Hdig. rewrite Hlen. cbn [Nat.eqb].
      rewrite (int_of_two_digits year Hlen Hdig). simpl. unfold century.
      destruct (50 <? digits_value year 0); reflexivity.
    + intros Hlen. apply Nat.eqb_neq in Hlen. rewrite Hlen. reflexivity.
Qed.

Lemma normalize_date_spec_witness :
  normalize_date "12/1987" = Ok "12-1987"
  /\ normalize_date "2001.7.9" = Ok "09-07-2001"
  /\ normalize_date "9 7 49" = Ok "09-07-2049"
  /\ normalize_date "9-7-1949" = Ok "09-07-1949".
Proof.
  pose proof (normalize_date_spec "12/1987" ltac:(discriminate)) as (H1 & _).
  pose proof (normalize_date_spec "2001.7.9" ltac:(discriminate)) as (_ & H2 & _).
  pose proof (normalize_date_spec "9 7 49" ltac:(discriminate)) as (_ & _ & H3 & _).
  pose proof (normalize_date_spec "9-7-1949" ltac:(discriminate)) as (_ & _ & H4 & _).
  split; [|split; [|split]].
  - apply H1. vm_compute. discriminate.
  - apply (H2 "2001" "7" "9"); reflexivity.
  - apply (H3 "9" "7" "49"); [reflexivity | intros [H _]; discriminate H | reflexivity ..].
  - apply (H4 "9" "7" "1949"); [reflexivity | intros [H _]; discriminate H | discriminate].
Defined.

(** C5. The text "12/1987" does not split into 3 parts, and
    [normalize_date] does not return it unchanged: the early return of line
    115, whose comment says the text is returned as it is, gives back the
    text after [strip] and the three [replace] calls, "12-1987". *)
Theorem normalize_date_not_unchanged :
  length (date_parts "12/1987") <> 3%nat
  /\ normalize_date "12/1987" = Ok "12-1987"
  /\ normalize_date "12/1987" <> Ok "12/1987".
Proof. repeat split; vm_compute; discriminate || reflexivity. Qed.

(** ** The two year fields of a stored experience *)


(** ** The experience duration *)

Lemma int_of_str_exn (s : string) (e : exn) :
  int_of_str s = Raise e -> e = ValueError.
Proof.
  unfold int_of_str.
  destruct (String.rev (drop_while int_space (String.rev (drop_while int_space s))))
    as [|c s']; simpl.
  - intros [= <-]; reflexivity.
  - destruct (Ascii.eqb c "-"); [|destruct (Ascii.eqb c "+")];
      match goal with
      | |- context [int_digits ?b 0 false] => destruct (int_digits b 0 false)
      end; congruence.
Qed.

Lemma int_exn (v : pyval) (e : exn) : int v = Raise e -> e <> OverflowError.
Proof.
  destruct v as [|s|n]; simpl; [congruence | | discriminate].
  intros H. apply int_of_str_exn in H. congruence.
Qed.

Lemma group_int_exn (s : string) (m : found) (g : nat) (dflt : Z) (e : exn) :
  group_int s m g dflt = Raise e -> e = ValueError.
Proof.
  unfold group_int. destruct (group s m g); [apply int_of_str_exn | discriminate].
Qed.

Lemma strptime_exn (s : string) (fmt : regex) (e : exn) :
  strptime s fmt = Raise e -> e = ValueError.
Proof.
  unfold strptime. destruct (re_match fmt s) as [m|]; [|congruence].
  destruct (negb (m.1 =? String.length s)%nat); [congruence|].
  destruct (group_int s m 1 1900) as [y|e1] eqn:H1; simpl;
    [|intros [= <-]; eapply group_int_exn; eassumption].
  destruct (group_int s m 2 1) as [mo|e2] eqn:H2; simpl;
    [|intros [= <-]; eapply group_int_exn; eassumption].
  destruct (group_int s m 3 1) as [d|e3] eqn:H3; simpl;
    [|intros [= <-]; eapply group_int_exn; eassumption].
  match goal with |- context [if ?c then _ else _] => destruct c end; congruence.
Qed.

Lemma parse_date_exn (s : string) (e : exn) : parse_date s = Raise e -> e = ValueError.
Proof. unfold parse_date. destruct (_ =? _)%nat; apply strptime_exn. Qed.

(** The body of the [try] for an entry that the duration phrase settles
    or leaves to the other rules. *)
Lemma from_work_duration_rule (w : gmap string pyval) :
  finite_entry w = true ->
  from_work_duration w
  = Ok (if 0 <? duration_rule w then Some (duration_rule w) else None).
Proof.
  unfold from_work_duration, finite_entry, duration_rule, present_and_true.
  destruct (w !! "work_duration") as [v|]; [|reflexivity].
  destruct (truth v); [|reflexivity]. simpl default.
  unfold finite_phrase, phrase_months. cbv zeta.
  destruct (search_group1 years_re _) as [y|];
    destruct (search_group1 months_re _) as [m|]; simpl.
  - destruct (float_mul (float_of_decimal y) 12); [|discriminate].
    destruct (float_of_decimal m); [|discriminate]. reflexivity.
  - destruct (float_mul (float_of_decimal y) 12); [|discriminate].
    intros _. simpl. rewrite Z.add_0_r. reflexivity.
  - destruct (float_of_decimal m); [|discriminate]. reflexivity.
  - reflexivity.
Qed.

Lemma from_other_fields_rule (w : gmap string pyval) :
  match from_other_fields w with
  | Ok months => months = other_rules w
  | Raise e => e <> OverflowError /\ other_rules w = 0
  end.
Proof.
  unfold from_other_fields, other_rules.
  destruct (present_and_true "duration_months" w).
  - unfold months_field_rule.
    destruct (int (default (PInt 0) (w !! "duration_months"))) as [n|e] eqn:Hi; simpl;
      [reflexivity | split; [eapply int_exn; eassumption | reflexivity]].
  - destruct (w !! "start_date") as [sd|]; [|reflexivity].
    destruct (w !! "end_date") as [ed|]; [|reflexivity].
    unfold dates_rule.
    destruct (parse_date (strip (str sd))) as [[sy sm]|e1] eqn:H1; simpl.
    + destruct (parse_date (strip (str ed))) as [[ey em]|e2] eqn:H2; simpl;
        [reflexivity|].
      apply parse_date_exn in H2 as ->. split; [discriminate | reflexivity].
    + apply parse_date_exn in H1 as ->. split; [discriminate | reflexivity].
Qed.

Lemma workplace_months_other (w : gmap string pyval) :
  (match from_other_fields w with
   | Ok months => Ok months
   | Raise ValueError | Raise TypeError => Ok 0
   | Raise e => Raise e
   end) = Ok (other_rules w).
Proof.
  pose proof (from_other_fields_rule w) as H.
  destruct (from_other_fields w) as [months|[]];
    [congruence | destruct H as [H ->]; congruence ..].
Qed.

Lemma workplace_months_rule (w : gmap string pyval) :
  finite_entry w = true -> workplace_months w = Ok (rule_months w).
Proof.
  intros Hf. unfold workplace_months, try_body, rule_months.
  rewrite (from_work_duration_rule w Hf). simpl.
  destruct (0 <? duration_rule w); [reflexivity | apply workplace_months_other].
Qed.

Lemma duration_loop_sum (ws : list (gmap string pyval)) :
  forall total_months,
  Forall (fun w => finite_entry w = true) ws ->
  duration_loop ws total_months = Ok (total_months + sum_over rule_months ws).
Proof.
  induction ws as [|w ws IH]; intros total Hf; simpl.
  - rewrite Z.add_0_r. reflexivity.
  - apply Forall_cons in Hf as [Hw Hws].
    rewrite (workplace_months_rule w Hw). simpl.
    rewrite (IH _ Hws). f_equal. lia.
Qed.

Lemma int_div_float_fits (n : Z) (y : Q) :
  int_div_float n y
  = if fits_float n then Ok (float_div (Finite (nearest_double (inject_Z n))) y)
    else Raise OverflowError.
Proof.
  unfold int_div_float, float_of_int, fits_float.
  destruct (Z.leb_spec overflow_bound (Z.abs n)), (Z.ltb_spec (Z.abs n) overflow_bound);
    first [reflexivity | lia].
Qed.

(** The total is the one the loop reaches, when line 452 can make it a
    float. *)
Lemma calculate_is_loop (ws : list (gmap string pyval)) :
  calculate_total_experience_duration ws
  = Py.bind (duration_loop ws 0)
      (fun total_months =>
         if fits_float total_months then Ok total_months else Raise OverflowError).
Proof.
  destruct ws as [|w ws]; [reflexivity|].
  unfold calculate_total_experience_duration.
  destruct (duration_loop (w :: ws) 0) as [total|e]; [|reflexivity].
  cbn [mbind result_bind Py.bind]. rewrite int_div_float_fits.
  destruct (fits_float total); reflexivity.
Qed.

(** C2, as the code has it. When the numbers of the duration phrases and
    the total stay in the range of a float,
    [calculate_total_experience_duration] returns the sum over the entries
    of the months of the first rule that applies:
    for a duration phrase, [int(years * 12) + int(months)] from the number
    and unit matches when that is more than zero; else the
    [duration_months] field, when it is there and not zero or empty, floored
    at 0; else the month difference of [start_date] and [end_date], floored
    at 0; a field that does not parse adds nothing. The entries
    "2 years" and "6 months" total 30 and the dates 2020-01 to 2021-07
    total 18. *)
Theorem calculate_total_by_rules (workplaces : list (gmap string pyval)) :
  Forall (fun w => finite_entry w = true) workplaces ->
  fits_float (sum_over rule_months workplaces) = true ->
  calculate_total_experience_duration workplaces
  = Ok (sum_over rule_months workplaces)
  /\ calculate_total_experience_duration
       [{[ "work_duration" := PStr "2 years" ]};
        {[ "work_duration" := PStr "6 months" ]}] = Ok 30
  /\ calculate_total_experience_duration
       [<[ "start_date" := PStr "2020-01" ]> {[ "end_date" := PStr "2021-07" ]}]
     = Ok 18.
Proof.
  intros Hf Hfits. split; [|split; vm_compute; reflexivity].
  rewrite calculate_is_loop, (duration_loop_sum _ 0 Hf).
  cbn [Py.bind]. rewrite Z.add_0_l, Hfits. reflexivity.
Qed.

Lemma calculate_total_by_rules_witness :
  calculate_total_experience_duration
    [{[ "work_duration" := PStr "1.5 years" ]};
     <[ "work_duration" := PStr "about 3" ]> {[ "duration_months" := PInt 7 ]};
     {[ "duration_months" := PStr "n/a" ]}]
  = Ok 25.
Proof.
  refine (eq_trans (proj1 (calculate_total_by_rules _ _ _)) _).
  - repeat constructor.
  - vm_compute. reflexivity.
  - vm_compute. reflexivity.
Defined.

(** C2, where the statement of the specification fails: with
    [int(years) * 12] for the years of a phrase the total of a single entry
    "1.5 years" would be 12, and the code returns 18; and an entry with a
    phrase without unit and a [duration_months] field would add nothing,
    and the code adds the field. *)
Lemma calculate_total_not_spec_rules :
  calculate_total_experience_duration [{[ "work_duration" := PStr "1.5 years" ]}]
  = Ok 18
  /\ sum_over spec_entry_months [{[ "work_duration" := PStr "1.5 years" ]}] = 12
  /\ calculate_total_experience_duration [{[ "work_duration" := PStr "1.5 years" ]}]
     <> Ok (sum_over spec_entry_months [{[ "work_duration" := PStr "1.5 years" ]}])
  /\ calculate_total_experience_duration
       [<[ "work_duration" := PStr "about 3" ]> {[ "duration_months" := PInt 7 ]}]
     = Ok 7
  /\ sum_over spec_entry_months
       [<[ "work_duration" := PStr "about 3" ]> {[ "duration_months" := PInt 7 ]}]
     = 0.
Proof. repeat split; vm_compute; discriminate || reflexivity. Qed.

Lemma workplace_months_exn (w : gmap string pyval) (e : exn) :
  workplace_months w = Raise e -> e = OverflowError.
Proof.
  unfold workplace_months. destruct (try_body w) as [m|[]]; congruence.
Qed.

Lemma duration_loop_exn (ws : list (gmap string pyval)) :
  forall total_months e,
  duration_loop ws total_months = Raise e -> e = OverflowError.
Proof.
  induction ws as [|w ws IH]; intros total e; simpl; [discriminate|].
  destruct (workplace_months w) as [m|e'] eqn:Hw; simpl.
  - apply IH.
  - intros [= <-]. eapply workplace_months_exn; eassumption.
Qed.

Lemma calculate_total_exn (ws : list (gmap string pyval)) (e : exn) :
  calculate_total_experience_duration ws = Raise e -> e = OverflowError.
Proof.
  rewrite calculate_is_loop.
  destruct (duration_loop ws 0) as [total|e'] eqn:Hl; cbn [Py.bind].
  - destruct (fits_float total); congruence.
  - intros [= <-]. eapply duration_loop_exn. exact Hl.
Qed.

Lemma no_unit_from_work_duration (w : gmap string pyval) :
  no_unit w -> from_work_duration w = Ok None.
Proof.
  intros (v & Hv & Ht & Hy & Hm).
  unfold from_work_duration, present_and_true. rewrite Hv, Ht. simpl default.
  rewrite Hy, Hm. reflexivity.
Qed.

Lemma no_unit_workplace_months (w : gmap string pyval) :
  no_unit w -> workplace_months w = Ok (other_rules w).
Proof.
  intros H. unfold workplace_months, try_body.
  rewrite (no_unit_from_work_duration w H). simpl. apply workplace_months_other.
Qed.

Lemma from_other_fields_delete (w : gmap string pyval) :
  from_other_fields (delete "work_duration" w) = from_other_fields w.
Proof.
  unfold from_other_fields, present_and_true.
  rewrite !lookup_delete_ne by discriminate. reflexivity.
Qed.

Lemma workplace_months_delete (w : gmap string pyval) :
  no_unit w -> workplace_months (delete "work_duration" w) = workplace_months w.
Proof.
  intros H. unfold workplace_months, try_body.
  rewrite (no_unit_from_work_duration w H).
  unfold from_work_duration at 1, present_and_true.
  rewrite lookup_delete_eq. simpl. rewrite from_other_fields_delete. reflexivity.
Qed.

Lemma duration_loop_replace (pre post : list (gmap string pyval))
    (w w' : gmap string pyval) :
  workplace_months w = workplace_months w' ->
  forall total_months,
  duration_loop (pre ++ w :: post) total_months
  = duration_loop (pre ++ w' :: post) total_months.
Proof.
  intros Hw. induction pre as [|x pre IH]; intros total; simpl.
  - rewrite Hw. reflexivity.
  - destruct (workplace_months x); simpl; [apply IH | reflexivity].
Qed.

Lemma duration_loop_skip (pre post : list (gmap string pyval))
    (w : gmap string pyval) :
  workplace_months w = Ok 0 ->
  forall total_months,
  duration_loop (pre ++ w :: post) total_months
  = duration_loop (pre ++ post) total_months.
Proof.
  intros Hw. induction pre as [|x pre IH]; intros total; simpl.
  - rewrite Hw. simpl. rewrite Z.add_0_r. reflexivity.
  - destruct (workplace_months x); simpl; [apply IH | reflexivity].
Qed.

Lemma other_rules_absent (w : gmap string pyval) :
  w !! "duration_months" = None ->
  w !! "start_date" = None \/ w !! "end_date" = None ->
  other_rules w = 0.
Proof.
  intros Hd Hdates. unfold other_rules, present_and_true. rewrite Hd.
  destruct Hdates as [-> | ->]; [reflexivity|].
  destruct (w !! "start_date"); reflexivity.
Qed.

(** C7, as the code has it. An entry whose duration phrase has no number
    followed by a year or month unit gets nothing from the phrase and raises
    nothing: it adds what the [duration_months] and date rules give, as if
    the phrase were not there, and so adds zero when it has no such fields;
    the total of a list with such an entry is the total of the list without
    the phrase. The exceptions of a malformed field do not leave the
    function: only an overflow can. A single entry "garbage" totals 0. *)
Theorem no_unit_entry_falls_through (pre post : list (gmap string pyval))
    (w : gmap string pyval) :
  no_unit w ->
  workplace_months w = Ok (other_rules w)
  /\ 0 <= other_rules w
  /\ calculate_total_experience_duration (pre ++ w :: post)
     = calculate_total_experience_duration (pre ++ delete "work_duration" w :: post)
  /\ (w !! "duration_months" = None ->
      w !! "start_date" = None \/ w !! "end_date" = None ->
      workplace_months w = Ok 0
      /\ calculate_total_experience_duration (pre ++ w :: post)
         = calculate_total_experience_duration (pre ++ post))
  /\ (forall ws e,
        calculate_total_experience_duration ws = Raise e -> e = OverflowError)
  /\ calculate_total_experience_duration [{[ "work_duration" := PStr "garbage" ]}]
     = Ok 0.
Proof.
  intros H. pose proof (no_unit_workplace_months w H) as Hw.
  split; [exact Hw|]. split; [|split; [|split; [|split]]].
  - unfold other_rules, months_field_rule, dates_rule.
    repeat match goal with
           | |- context [match ?x with _ => _ end] => destruct x
           end; lia.
  - rewrite !calculate_is_loop. f_equal. apply duration_loop_replace.
    symmetry. apply workplace_months_delete. exact H.
  - intros Hd Hdates. rewrite (other_rules_absent w Hd Hdates) in Hw.
    split; [exact Hw|]. rewrite !calculate_is_loop. f_equal.
    apply duration_loop_skip. exact Hw.
  - intros ws e. apply calculate_total_exn.
  - vm_compute. reflexivity.
Qed.

Lemma no_unit_entry_falls_through_witness :
  workplace_months {[ "work_duration" := PStr "garbage" ]} = Ok 0
  /\ calculate_total_experience_duration
       ([{[ "work_duration" := PStr "2 years" ]}]
        ++ {[ "work_duration" := PStr "garbage" ]}
        :: [{[ "work_duration" := PStr "6 months" ]}])
     = calculate_total_experience_duration
         ([{[ "work_duration" := PStr "2 years" ]}]
          ++ [{[ "work_duration" := PStr "6 months" ]}]).
Proof.
  assert (Hno : no_unit {[ "work_duration" := PStr "garbage" ]}).
  { exists (PStr "garbage"). repeat split. }
  destruct (no_unit_entry_falls_through
              [{[ "work_duration" := PStr "2 years" ]}]
              [{[ "work_duration" := PStr "6 months" ]}]
              {[ "work_duration" := PStr "garbage" ]} Hno)
    as (_ & _ & _ & H & _).
  apply H; [reflexivity | left; reflexivity].
Defined.

(** C7, where the statement of the specification fails: an entry whose
    phrase is a number without a unit does not always add zero months. *)
Lemma no_unit_entry_not_zero :
  no_unit (<[ "work_duration" := PStr "5" ]> {[ "duration_months" := PInt 7 ]})
  /\ workplace_months
       (<[ "work_duration" := PStr "5" ]> {[ "duration_months" := PInt 7 ]}) = Ok 7
  /\ calculate_total_experience_duration
       [<[ "work_duration" := PStr "5" ]> {[ "duration_months" := PInt 7 ]}]
     = Ok 7.
Proof.
  split; [exists (PStr "5"); repeat split | split; vm_compute; reflexivity].
Qed.

(** ** Persisting a verification *)

Lemma verify_one_mismatches (n d : string) (cs : list Comparison)
    (ms : list Mismatch) (vc : Z) (doc : EduDoc) (cs' : list Comparison)
    (ms' : list Mismatch) (vc' : Z) :
  verify_one n d (cs, ms, vc) doc = Ok (cs', ms', vc') ->
  exists c new,
    cs' = cs ++ [c] /\ ms' = ms ++ new
    /\ (forall mm, mm ∈ new -> mm_document_id mm = document_id c /\ overall_match c = false)
    /\ (overall_match c = false -> exists mm, mm ∈ new /\ mm_document_id mm = document_id c).
Proof.
  unfold verify_one.
  destruct (fuzzy_match_names (Some n) (extracted_name doc) default_threshold)
    as [nm sim].
  destruct (exact_match_dob (Some d) (extracted_dob doc)) as [[dm msg]|e];
    simpl; [|discriminate].
  intros [= <- <- <-]. destruct nm, dm; simpl.
  - eexists; exists []. rewrite app_nil_r.
    split; [reflexivity|]. split; [reflexivity|]. split; [|discriminate].
    intros mm Hmm. apply elem_of_nil in Hmm as [].
  - eexists; eexists [_].
    split; [reflexivity|]. split; [reflexivity|]. split.
    + intros mm Hmm. apply list_elem_of_singleton in Hmm as ->. split; reflexivity.
    + intros _. eexists; split; [left | reflexivity].
  - eexists; eexists [_].
    split; [reflexivity|]. split; [reflexivity|]. split.
    + intros mm Hmm. apply list_elem_of_singleton in Hmm as ->. split; reflexivity.
    + intros _. eexists; split; [left | reflexivity].
  - eexists; eexists [_; _]. rewrite <- app_assoc.
    split; [reflexivity|]. split; [reflexivity|]. split.
    + intros mm Hmm. apply elem_of_cons in Hmm as [->|Hmm]; [split; reflexivity|].
      apply list_elem_of_singleton in Hmm as ->. split; reflexivity.
    + intros _. eexists; split; [left | reflexivity].
Qed.

Lemma verify_loop_mismatches (n d : string) (docs : list EduDoc) :
  forall (cs : list Comparison) (ms : list Mismatch) (vc : Z)
         (cs' : list Comparison) (ms' : list Mismatch) (vc' : Z),
  verify_loop n d docs (cs, ms, vc) = Ok (cs', ms', vc') ->
  exists newc newm,
    cs' = cs ++ newc /\ ms' = ms ++ newm
    /\ (forall mm, mm ∈ newm ->
          exists c, c ∈ newc /\ mm_document_id mm = document_id c
                    /\ overall_match c = false)
    /\ (forall c, c ∈ newc -> overall_match c = false ->
          exists mm, mm ∈ newm /\ mm_document_id mm = document_id c).
Proof.
  induction docs as [|doc docs IH]; intros cs ms vc cs' ms' vc'; simpl.
  - intros [= <- <- <-]. exists [], []. rewrite !app_nil_r.
    repeat split; intros x Hx; apply elem_of_nil in Hx as [].
  - intros H. apply bind_Ok in H as ([[cs1 ms1] vc1] & H1 & H2).
    apply verify_one_mismatches in H1 as (c & new & -> & -> & Hnew & Hc).
    apply IH in H2 as (newc & newm & -> & -> & Hm & Hcs).
    exists (c :: newc), (new ++ newm). rewrite <- !app_assoc. simpl.
    split; [reflexivity|]. split; [reflexivity|]. split.
    + intros mm Hmm. apply elem_of_app in Hmm as [Hmm|Hmm].
      * exists c. destruct (Hnew mm Hmm). split; [left | split; assumption].
      * destruct (Hm mm Hmm) as (c' & Hc' & Hid & Hov).
        exists c'. split; [right; assumption | split; assumption].
    + intros c' Hc' Hov. apply elem_of_cons in Hc' as [->|Hc'].
      * destruct (Hc Hov) as (mm & Hmm & Hid).
        exists mm. split; [apply elem_of_app; left; assumption | assumption].
      * destruct (Hcs c' Hc' Hov) as (mm & Hmm & Hid).
        exists mm. split; [apply elem_of_app; right; assumption | assumption].
Qed.

(** The mismatch records of a returned result belong to the documents
    whose overall match is false, and each such document has one. *)
Lemma verify_documents_mismatches (personal_name personal_dob : option string)
    (docs : list EduDoc) (r : VerificationResult) :
  verify_documents personal_name personal_dob docs = Ok r ->
  (forall mm, mm ∈ mismatches r ->
     exists c, c ∈ comparisons r /\ mm_document_id mm = document_id c
               /\ overall_match c = false)
  /\ (forall c, c ∈ comparisons r -> overall_match c = false ->
        exists mm, mm ∈ mismatches r /\ mm_document_id mm = document_id c).
Proof.
  unfold verify_documents.
  assert (Hempty : forall text n,
            (forall mm, mm ∈ mismatches (mkResult "pending" 0 n [] [] text) ->
               exists c, c ∈ comparisons (mkResult "pending" 0 n [] [] text)
                         /\ mm_document_id mm = document_id c
                         /\ overall_match c = false)
            /\ (forall c, c ∈ comparisons (mkResult "pending" 0 n [] [] text) ->
                  overall_match c = false ->
                  exists mm, mm ∈ mismatches (mkResult "pending" 0 n [] [] text)
                             /\ mm_document_id mm = document_id c)).
  { intros text n. split; simpl; intros x Hx; apply elem_of_nil in Hx as []. }
  destruct personal_name as [[|c1 n1]|], personal_dob as [[|c2 d1]|];
    try (intros [= <-]; apply Hempty).
  destruct docs as [|doc docs]; [intros [= <-]; apply Hempty|].
  intros H. apply bind_Ok in H as ([[cs ms] vc] & H1 & H2). injection H2 as <-.
  apply verify_loop_mismatches in H1 as (newc & newm & -> & -> & Hm & Hc).
  simpl. split; assumption.
Qed.

Section Updates.

Context {A : Type}.
Variables (key : A -> option Z) (written : A -> bool) (row : A -> DocRow).

Lemma update_all_snoc (l : list A) (x : A) (db : Db) :
  update_all key written row (l ++ [x]) db
  = if written x
    then update_educational_document_verification (update_all key written row l db) (key x)
           (verification_status (row x)) (verification_errors (row x))
    else update_all key written row l db.
Proof. unfold update_all. rewrite fold_left_app. reflexivity. Qed.

Lemma update_lookup_ne (db : Db) (k : option Z) (st : string)
    (errs : option (string * Reason)) (d : Z) :
  k <> Some d ->
  educational_documents (update_educational_document_verification db k st errs) !! d
  = educational_documents db !! d.
Proof.
  destruct k as [d'|]; simpl; [|reflexivity].
  intros Hne. apply lookup_alter_ne. congruence.
Qed.

Lemma update_lookup_eq (db : Db) (st : string) (errs : option (string * Reason))
    (d : Z) :
  educational_documents (update_educational_document_verification db (Some d) st errs) !! d
  = (fun _ => mkDocRow st errs) <$> educational_documents db !! d.
Proof. simpl. apply lookup_alter_eq. Qed.

Lemma update_all_present (l : list A) (db : Db) (d : Z) :
  is_Some (educational_documents (update_all key written row l db) !! d)
  <-> is_Some (educational_documents db !! d).
Proof.
  induction l as [|x l IH] using rev_ind; [reflexivity|].
  rewrite update_all_snoc. destruct (written x); [|exact IH].
  destruct (decide (key x = Some d)) as [Hk|Hk].
  - rewrite Hk, update_lookup_eq, <- IH. rewrite fmap_is_Some. reflexivity.
  - rewrite update_lookup_ne by assumption. exact IH.
Qed.

(** Documents that no written element names keep their row. *)
Lemma update_all_untouched (l : list A) (db : Db) (d : Z) :
  (forall x, x ∈ l -> written x = true -> key x <> Some d) ->
  educational_documents (update_all key written row l db) !! d = educational_documents db !! d.
Proof.
  induction l as [|x l IH] using rev_ind; intros H; [reflexivity|].
  rewrite update_all_snoc.
  assert (Hl : educational_documents (update_all key written row l db) !! d
               = educational_documents db !! d).
  { apply IH. intros y Hy. apply H. apply elem_of_app. left. exact Hy. }
  destruct (written x) eqn:Hw; [|exact Hl].
  rewrite update_lookup_ne; [exact Hl|].
  apply H; [apply elem_of_app; right; left | exact Hw].
Qed.

(** A stored document that a written element names ends with the status
    the loop writes, when the loop writes one status only. *)
Lemma update_all_status (l : list A) (db : Db) (d : Z) (st : string) :
  (forall x, x ∈ l -> verification_status (row x) = st) ->
  (exists x, x ∈ l /\ written x = true /\ key x = Some d) ->
  is_Some (educational_documents db !! d) ->
  doc_status (update_all key written row l db) d = Some st.
Proof.
  unfold doc_status.
  induction l as [|x l IH] using rev_ind; intros Hst Hex Hsome.
  - destruct Hex as (x & Hx & _). apply elem_of_nil in Hx as [].
  - rewrite update_all_snoc.
    assert (Hstl : forall y, y ∈ l -> verification_status (row y) = st).
    { intros y Hy. apply Hst. apply elem_of_app. left. exact Hy. }
    destruct (written x) eqn:Hw.
    + destruct (decide (key x = Some d)) as [Hk|Hk].
      * rewrite Hk, update_lookup_eq.
        apply (update_all_present l) in Hsome as [rw Hrow]. rewrite Hrow. simpl.
        f_equal. apply Hst. apply elem_of_app. right. left.
      * rewrite update_lookup_ne by assumption. apply IH; try assumption.
        destruct Hex as (y & Hy & Hwy & Hky).
        apply elem_of_app in Hy as [Hy|Hy]; [eauto|].
        apply list_elem_of_singleton in Hy as ->. contradiction.
    + apply IH; try assumption.
      destruct Hex as (y & Hy & Hwy & Hky).
      apply elem_of_app in Hy as [Hy|Hy]; [eauto|].
      apply list_elem_of_singleton in Hy as ->. congruence.
Qed.

End Updates.

Lemma persist_verified (r : VerificationResult) (db : Db) :
  status r = "verified" ->
  persist_verification r db
  = update_all document_id overall_match (fun _ => mkDocRow "verified" None)
      (comparisons r) (update_worker_verification db "verified" None).
Proof. unfold persist_verification. intros ->. reflexivity. Qed.

Lemma persist_not_verified (r : VerificationResult) (db : Db) :
  status r <> "verified" ->
  persist_verification r db
  = update_all mm_document_id (fun _ => true)
      (fun mm => mkDocRow "failed" (Some (field mm, reason mm)))
      (mismatches r)
      (update_worker_verification db "failed" (Some (mismatches r))).
Proof.
  unfold persist_verification. intros H.
  destruct (String.eqb_spec (status r) "verified"); [contradiction | reflexivity].
Qed.

(** C10, as the code has it. After a verification that returned
    "verified", every compared document that is stored is marked
    "verified". After one that returned "failed", the stored documents
    with a mismatch are marked "failed", and a document whose overall match
    is true is not written: its stored row, and so its earlier status,
    stays as it was. *)
Theorem persist_verification_documents (personal_name personal_dob : option string)
    (docs : list EduDoc) (r : VerificationResult) (db : Db) (d : Z) :
  verify_documents personal_name personal_dob docs = Ok r ->
  is_Some (educational_documents db !! d) ->
  (status r = "verified" ->
   (exists c, c ∈ comparisons r /\ document_id c = Some d) ->
   doc_status (persist_verification r db) d = Some "verified")
  /\ (status r = "failed" ->
      ((exists c, c ∈ comparisons r /\ document_id c = Some d
                  /\ overall_match c = false) ->
       doc_status (persist_verification r db) d = Some "failed")
      /\ ((forall c, c ∈ comparisons r -> document_id c = Some d ->
             overall_match c = true) ->
          educational_documents (persist_verification r db) !! d
          = educational_documents db !! d)).
Proof.
  intros Hr Hsome. destruct (verify_documents_mismatches _ _ _ _ Hr) as [Hmm Hcmp].
  split.
  - intros Hst (c & Hc & Hid). rewrite (persist_verified r db Hst).
    apply update_all_status; [reflexivity | | exact Hsome].
    exists c. split; [exact Hc|]. split; [|exact Hid].
    destruct (overall_match c) eqn:Hov; [reflexivity|].
    exfalso.
    assert (Hpending : truthy personal_name = true /\ truthy personal_dob = true
                       /\ docs <> []).
    { unfold verify_documents in Hr.
      destruct personal_name as [[|c1 n1]|], personal_dob as [[|c2 d1]|];
        try (injection Hr as <-; discriminate Hst).
      destruct docs; [injection Hr as <-; discriminate Hst|].
      repeat split; discriminate. }
    destruct Hpending as (Hn & Hd & Hdocs).
    apply (verify_documents_verified_iff _ _ _ _ Hn Hd Hdocs Hr) in Hst.
    rewrite Forall_forall in Hst.
    specialize (Hst c Hc). congruence.
  - intros Hst. assert (Hnv : status r <> "verified") by (rewrite Hst; discriminate).
    rewrite (persist_not_verified r db Hnv). split.
    + intros (c & Hc & Hid & Hov). destruct (Hcmp c Hc Hov) as (mm & Hin & Hmid).
      apply update_all_status; [reflexivity | | exact Hsome].
      exists mm. split; [exact Hin|]. split; [reflexivity | congruence].
    + intros Hall. rewrite update_all_untouched; [reflexivity|].
      intros mm Hin _ Hk. destruct (Hmm mm Hin) as (c & Hc & Hmid & Hov).
      rewrite (Hall c Hc) in Hov; [discriminate | congruence].
Qed.

Lemma persist_verification_documents_witness :
  educational_documents (persist_verification sample_result sample_db) !! 1
  = educational_documents sample_db !! 1
  /\ doc_status (persist_verification sample_result sample_db) 2 = Some "failed".
Proof.
  assert (Hr : verify_documents (Some "Babu Khan") (Some "01-12-1987") sample_docs
               = Ok sample_result) by (vm_compute; reflexivity).
  split.
  - destruct (persist_verification_documents _ _ _ _ sample_db 1 Hr) as [_ H];
      [eexists; reflexivity|].
    destruct (H eq_refl) as [_ Hkeep]. apply Hkeep.
    intros c Hc Hid. apply elem_of_cons in Hc as [->|Hc]; [reflexivity|].
    apply list_elem_of_singleton in Hc as ->. discriminate Hid.
  - destruct (persist_verification_documents _ _ _ _ sample_db 2 Hr) as [_ H];
      [eexists; reflexivity|].
    destruct (H eq_refl) as [Hfail _]. apply Hfail.
    eexists. split; [right; left|]. split; reflexivity.
Defined.

(** C10, where the statement of the specification fails: of two stored
    documents the first matches and the second does not; the verification
    fails, and the first document is left "pending", not marked
    "verified". *)
Lemma matched_document_not_marked_verified :
  verify_documents (Some "Babu Khan") (Some "01-12-1987") sample_docs
  = Ok sample_result
  /\ status sample_result = "failed"
  /\ (exists c, c ∈ comparisons sample_result
                /\ document_id c = Some 1 /\ overall_match c = true)
  /\ doc_status (persist_verification sample_result sample_db) 1 = Some "pending"
  /\ doc_status (persist_verification sample_result sample_db) 1 <> Some "verified"
  /\ doc_status (persist_verification sample_result sample_db) 2 = Some "failed"
  /\ worker_verification_status (persist_verification sample_result sample_db)
     = "failed".
Proof.
  split; [vm_compute; reflexivity|]. split; [reflexivity|].
  split; [eexists; split; [left|]; split; reflexivity|].
  repeat split; vm_compute; discriminate || reflexivity.
Qed.

(** ** The matcher of difflib *)

Section Windows.

Variables a b : list ascii.
Variable b2j : gmap ascii (list Z).
Variables alo ahi blo bhi : Z.

Lemma scan_row_good (js : list Z) (i : Z) (j2len : gmap Z Z) :
  alo <= i < ahi ->
  lengths_ok alo blo i j2len ->
  forall newj2len best,
  lengths_ok alo blo (i + 1) newj2len ->
  good alo ahi blo bhi best ->
  lengths_ok alo blo (i + 1) (Difflib.scan_row blo bhi js i j2len newj2len best).1
  /\ good alo ahi blo bhi (Difflib.scan_row blo bhi js i j2len newj2len best).2.
Proof.
  intros Hi Hold. induction js as [|j js IH]; intros newj2len best Hnew Hbest; simpl.
  - split; assumption.
  - destruct (Z.ltb_spec j blo) as [Hlo|Hlo]; [apply IH; assumption|].
    destruct (Z.leb_spec bhi j) as [Hhi|Hhi]; [split; assumption|].
    assert (Hk : 1 <= default 0 (j2len !! (j - 1)) + 1 <= i + 1 - alo
                 /\ default 0 (j2len !! (j - 1)) + 1 <= j - blo + 1).
    { destruct (j2len !! (j - 1)) as [v|] eqn:Hv; simpl.
      - destruct (Hold _ _ Hv). lia.
      - lia. }
    set (k := default 0 (j2len !! (j - 1)) + 1) in *.
    apply IH.
    + intros j' v Hv. destruct (decide (j = j')) as [<-|Hne].
      * rewrite lookup_insert_eq in Hv. injection Hv as <-. exact Hk.
      * rewrite lookup_insert_ne in Hv by assumption. apply (Hnew _ _ Hv).
    + destruct best as [[bi bj] bk]. simpl.
      destruct (Z.ltb_spec bk k); [|assumption].
      right. lia.
Qed.

Lemma scan_rows_good (n : nat) :
  forall i j2len best,
  alo <= i ->
  n = O \/ i + Z.of_nat n <= ahi ->
  lengths_ok alo blo i j2len ->
  good alo ahi blo bhi best ->
  good alo ahi blo bhi (Difflib.scan_rows a b2j blo bhi n i j2len best).
Proof.
  induction n as [|n IH]; intros i j2len best Hlo Hn Hlen Hbest; simpl;
    [assumption|].
  destruct Hn as [Hn|Hn]; [discriminate|].
  set (js := match Difflib.item a i with
             | Some x => default [] (b2j !! x)
             | None => []
             end).
  destruct (scan_row_good js i j2len ltac:(lia) Hlen ∅ best) as [Hnew Hbest'];
    [intros j v Hv; rewrite lookup_empty in Hv; discriminate | assumption |].
  destruct (Difflib.scan_row blo bhi js i j2len ∅ best) as [newj2len best'].
  apply IH; [lia | destruct n; [left; reflexivity | right; lia] | assumption ..].
Qed.

Lemma extend_left_good (n : nat) (junk : bool) :
  forall best,
  good alo ahi blo bhi best ->
  good alo ahi blo bhi (Difflib.extend_left a b alo blo n junk best).
Proof.
  induction n as [|n IH]; intros [[i j] k] Hbest; simpl; [assumption|].
  destruct (Z.ltb_spec alo i) as [Hi|Hi]; simpl; [|assumption].
  destruct (Z.ltb_spec blo j) as [Hj|Hj]; simpl; [|assumption].
  destruct (eqb _ junk); simpl; [|assumption].
  destruct (Difflib.same_item _ _); [|assumption].
  apply IH. right. destruct Hbest as [H|H]; lia.
Qed.

Lemma extend_right_good (n : nat) (junk : bool) :
  forall best,
  good alo ahi blo bhi best ->
  good alo ahi blo bhi (Difflib.extend_right a b ahi bhi n junk best).
Proof.
  induction n as [|n IH]; intros [[i j] k] Hbest; simpl; [assumption|].
  destruct (Z.ltb_spec (i + k) ahi) as [Hi|Hi]; simpl; [|assumption].
  destruct (Z.ltb_spec (j + k) bhi) as [Hj|Hj]; simpl; [|assumption].
  destruct (eqb _ junk); simpl; [|assumption].
  destruct (Difflib.same_item _ _); [|assumption].
  apply IH. right. destruct Hbest as [H|H]; lia.
Qed.

(** The rounds given to the two [while] loops are enough: more rounds
    change nothing, the guard being false when they are used up. *)
Lemma extend_left_enough (n m : nat) (junk : bool) :
  forall best,
  (Difflib.left_rounds alo best <= n)%nat ->
  Difflib.extend_left a b alo blo (n + m) junk best
  = Difflib.extend_left a b alo blo n junk best.
Proof.
  unfold Difflib.left_rounds.
  induction n as [|n IH]; intros [[i j] k] Hn; simpl in Hn.
  - destruct m as [|m]; [reflexivity|]. simpl.
    destruct (Z.ltb_spec alo i) as [Hi|Hi]; [lia | reflexivity].
  - simpl. destruct (_ && _ && _ && _); [|reflexivity].
    apply IH. simpl. lia.
Qed.

Lemma extend_right_enough (n m : nat) (junk : bool) :
  forall best,
  (Difflib.right_rounds ahi best <= n)%nat ->
  Difflib.extend_right a b ahi bhi (n + m) junk best
  = Difflib.extend_right a b ahi bhi n junk best.
Proof.
  unfold Difflib.right_rounds.
  induction n as [|n IH]; intros [[i j] k] Hn; simpl in Hn.
  - destruct m as [|m]; [reflexivity|]. simpl.
    destruct (Z.ltb_spec (i + k) ahi) as [Hi|Hi]; [lia | reflexivity].
  - simpl. destruct (_ && _ && _ && _); [|reflexivity].
    apply IH. simpl. lia.
Qed.

(** The block [find_longest_match] returns is empty or lies inside the
    two windows. *)
Lemma find_longest_match_good :
  good alo ahi blo bhi
    (Difflib.m_a (Difflib.find_longest_match a b b2j alo ahi blo bhi),
     Difflib.m_b (Difflib.find_longest_match a b b2j alo ahi blo bhi),
     Difflib.m_size (Difflib.find_longest_match a b b2j alo ahi blo bhi)).
Proof.
  unfold Difflib.find_longest_match. cbv zeta.
  match goal with
  | |- good _ _ _ _ (Difflib.m_a (Difflib.mkMatch ?x.1.1 ?x.1.2 ?x.2), _, _) =>
      change (good alo ahi blo bhi (x.1.1, x.1.2, x.2));
      assert (H : good alo ahi blo bhi x); [|destruct x as [[? ?] ?]; exact H]
  end.
  apply extend_right_good, extend_left_good, extend_right_good, extend_left_good.
  apply scan_rows_good.
  - lia.
  - destruct (Z.le_gt_cases ahi alo) as [H|H].
    + left. lia.
    + right. rewrite Z2Nat.id; lia.
  - intros j v Hv. rewrite lookup_empty in Hv. discriminate.
  - left. auto.
Qed.

End Windows.

Lemma sum_sizes_app (l1 l2 : list Difflib.Match) :
  Difflib.sum_sizes (l1 ++ l2) = Difflib.sum_sizes l1 + Difflib.sum_sizes l2.
Proof. induction l1 as [|x l1 IH]; simpl; [reflexivity | rewrite IH; lia]. Qed.

Lemma sum_sizes_insert_sorted (x : Difflib.Match) (l : list Difflib.Match) :
  Difflib.sum_sizes (Difflib.insert_sorted x l)
  = Difflib.m_size x + Difflib.sum_sizes l.
Proof.
  induction l as [|y l IH]; simpl; [reflexivity|].
  destruct (Difflib.match_leb x y); simpl; [reflexivity | rewrite IH; lia].
Qed.

Lemma sum_sizes_sort_blocks (l : list Difflib.Match) :
  Difflib.sum_sizes (Difflib.sort_blocks l) = Difflib.sum_sizes l.
Proof.
  induction l as [|x l IH]; simpl; [reflexivity|].
  rewrite sum_sizes_insert_sorted, IH. reflexivity.
Qed.

Lemma sum_sizes_collapse (blocks : list Difflib.Match) :
  forall cur non_adjacent,
  Difflib.sum_sizes (Difflib.collapse blocks cur non_adjacent)
  = Difflib.sum_sizes non_adjacent + cur.2 + Difflib.sum_sizes blocks.
Proof.
  induction blocks as [|x blocks IH]; intros [[i1 j1] k1] acc; simpl.
  - destruct (Z.eqb_spec k1 0) as [->|_]; [lia|].
    rewrite sum_sizes_app. simpl. lia.
  - destruct (_ && _); rewrite IH; simpl; [lia|].
    destruct (Z.eqb_spec k1 0) as [->|_]; [lia|].
    rewrite sum_sizes_app. simpl. lia.
Qed.

Lemma sum_over_cons {A} (f : A -> Z) (x : A) (l : list A) :
  sum_over f (x :: l) = f x + sum_over f l.
Proof. reflexivity. Qed.

Lemma weight_eq (alo ahi blo bhi : Z) :
  weight (alo, ahi, blo, bhi) = 1 + 2 * Z.max 0 (ahi - alo).
Proof. reflexivity. Qed.

Lemma span_a_eq (alo ahi blo bhi : Z) :
  span_a (alo, ahi, blo, bhi) = Z.max 0 (ahi - alo).
Proof. reflexivity. Qed.

Lemma span_b_eq (alo ahi blo bhi : Z) :
  span_b (alo, ahi, blo, bhi) = Z.max 0 (bhi - blo).
Proof. reflexivity. Qed.

Lemma sum_over_weight_nonneg (queue : list (Z * Z * Z * Z)) :
  0 <= sum_over weight queue.
Proof.
  induction queue as [|[[[alo ahi] blo] bhi] queue IH]; [reflexivity|].
  rewrite sum_over_cons, weight_eq. lia.
Qed.

(** The loop of [get_matching_blocks] ends within the rounds its queue
    weighs, and the blocks it adds fit in the windows left in the queue. *)
Lemma matching_loop_total (a b : list ascii) (b2j : gmap ascii (list Z))
    (fuel : nat) :
  forall queue blocks,
  sum_over weight queue <= Z.of_nat fuel ->
  exists found,
    Difflib.matching_loop fuel a b b2j queue blocks = Some found
    /\ Difflib.sum_sizes blocks <= Difflib.sum_sizes found
    /\ Difflib.sum_sizes found <= Difflib.sum_sizes blocks + sum_over span_a queue
    /\ Difflib.sum_sizes found <= Difflib.sum_sizes blocks + sum_over span_b queue.
Proof.
  induction fuel as [|fuel IH]; intros queue blocks Hw;
    (destruct queue as [|[[[alo ahi] blo] bhi] queue];
     [exists blocks; simpl; repeat split; lia|]);
    pose proof (sum_over_weight_nonneg queue) as Hq;
    rewrite sum_over_cons, weight_eq in Hw; [lia|].
  cbn [Difflib.matching_loop].
  pose proof (find_longest_match_good a b b2j alo ahi blo bhi) as Hgood.
  set (x := Difflib.find_longest_match a b b2j alo ahi blo bhi) in *.
  rewrite !sum_over_cons, span_a_eq, span_b_eq. unfold good in Hgood.
  destruct (Z.eqb_spec (Difflib.m_size x) 0) as [Hk|Hk].
  - destruct (IH queue blocks ltac:(lia)) as (found & Hf & H1 & H2 & H3).
    exists found. repeat split; [assumption | lia ..].
  - destruct Hgood as [[Hz _]|(Hpos & Ha1 & Ha2 & Hb1 & Hb2)]; [contradiction|].
    match goal with
    | |- context [Difflib.matching_loop fuel a b b2j ?q ?bl] =>
        destruct (IH q bl) as (found & Hf & H1 & H2 & H3)
    end.
    { destruct (_ && _), (_ && _); rewrite ?sum_over_cons, ?weight_eq; lia. }
    exists found. split; [exact Hf|].
    rewrite sum_sizes_app in H1, H2, H3.
    cbn [Difflib.sum_sizes fold_right] in H1, H2, H3.
    revert H2 H3.
    destruct (_ && _), (_ && _);
      rewrite ?sum_over_cons, ?span_a_eq, ?span_b_eq;
      intros H2 H3; repeat split; lia.
Qed.

Lemma found_blocks_bounds (a b : list ascii) :
  let la := Z.of_nat (length a) in
  let lb := Z.of_nat (length b) in
  exists found,
    Difflib.matching_loop (Difflib.rounds a) a b (Difflib.chain_b b)
      [(0, la, 0, lb)] [] = Some found
    /\ 0 <= Difflib.sum_sizes found <= la
    /\ Difflib.sum_sizes found <= lb.
Proof.
  intros la lb.
  destruct (matching_loop_total a b (Difflib.chain_b b) (Difflib.rounds a)
              [(0, la, 0, lb)] []) as (found & Hf & H1 & H2 & H3).
  - unfold Difflib.rounds. rewrite sum_over_cons, weight_eq. simpl sum_over.
    subst la. lia.
  - exists found. split; [exact Hf|].
    rewrite sum_over_cons in H2, H3. rewrite span_a_eq in H2. rewrite span_b_eq in H3.
    simpl in H1, H2, H3. subst la lb. lia.
Qed.

Lemma matching_blocks_sum (a b : list ascii) :
  0 <= Difflib.sum_sizes (Difflib.get_matching_blocks a b) <= Z.of_nat (length a)
  /\ Difflib.sum_sizes (Difflib.get_matching_blocks a b) <= Z.of_nat (length b).
Proof.
  unfold Difflib.get_matching_blocks. cbv zeta.
  destruct (found_blocks_bounds a b) as (found & -> & H1 & H2). simpl default.
  rewrite sum_sizes_app, sum_sizes_collapse, sum_sizes_sort_blocks. simpl. lia.
Qed.

Lemma calculate_ratio_range (matches length : Z) :
  0 <= 2 * matches <= length ->
  (0 <= Difflib.calculate_ratio matches length <= 1)%Q.
Proof.
  intros H. unfold Difflib.calculate_ratio.
  destruct (Z.eqb_spec length 0) as [_|Hne]; [split; discriminate|].
  rewrite Qred_correct. unfold Qle. simpl. rewrite Z2Pos.id by lia. lia.
Qed.

(** The ratio of two texts is a fraction of one. *)
Lemma ratio_range (a b : string) : (0 <= Difflib.ratio a b <= 1)%Q.
Proof.
  unfold Difflib.ratio. cbv zeta. apply calculate_ratio_range.
  pose proof (matching_blocks_sum (list_ascii_of_string a) (list_ascii_of_string b)).
  lia.
Qed.

(** C8, as the code has it. For two non-empty names whose normalized
    forms differ, the similarity of [fuzzy_match_names] is the ratio of the
    matcher on the two normalized names in the order given, and it lies
    between 0 and 1. *)
Theorem fuzzy_similarity_range (name1 name2 : string) (threshold : Q) :
  truthy (Some name1) = true -> truthy (Some name2) = true ->
  normalize_name name1 <> normalize_name name2 ->
  (fuzzy_match_names (Some name1) (Some name2) threshold).2
  = Difflib.ratio (normalize_name name1) (normalize_name name2)
  /\ (0 <= (fuzzy_match_names (Some name1) (Some name2) threshold).2 <= 1)%Q.
Proof.
  intros H1 H2 Hne. rewrite (fuzzy_match_names_present _ _ _ H1 H2).
  destruct (String.eqb_spec (normalize_name name1) (normalize_name name2));
    [contradiction|].
  split; [reflexivity | apply ratio_range].
Qed.

Lemma fuzzy_similarity_range_witness :
  (fuzzy_match_names (Some "Babu Khan") (Some "Babu Khna") default_threshold).2
  = Difflib.ratio (normalize_name "Babu Khan") (normalize_name "Babu Khna")
  /\ (0 <= (fuzzy_match_names (Some "Babu Khan") (Some "Babu Khna")
             default_threshold).2 <= 1)%Q.
Proof.
  apply (fuzzy_similarity_range "Babu Khan" "Babu Khna" default_threshold);
    [reflexivity | reflexivity | vm_compute; discriminate].
Defined.

(** C8, where the statement of the specification fails: the similarity
    depends on the order of the two names, and so does the verdict at a
    threshold between the two values. *)
Lemma similarity_not_symmetric :
  normalize_name "tide" <> normalize_name "diet"
  /\ (fuzzy_match_names (Some "tide") (Some "diet") default_threshold).2 = (1 # 4)%Q
  /\ (fuzzy_match_names (Some "diet") (Some "tide") default_threshold).2 = (1 # 2)%Q
  /\ fuzzy_match_names (Some "tide") (Some "diet") (1 # 2) = (false, (1 # 4)%Q)
  /\ fuzzy_match_names (Some "diet") (Some "tide") (1 # 2) = (true, (1 # 2)%Q).
Proof. repeat split; vm_compute; discriminate || reflexivity. Qed.

(** ** Floats: powers of two and the binary exponent *)

Lemma pow2_pos (k : Z) : (0 < pow2 k)%Q.
Proof. apply Qpower_0_lt. reflexivity. Qed.

Lemma pow2_add (a b : Z) : (pow2 (a + b) == pow2 a * pow2 b)%Q.
Proof. apply Qpower_plus. discriminate. Qed.

Lemma pow2_le (a b : Z) : a <= b -> (pow2 a <= pow2 b)%Q.
Proof. intros H. apply Qpower_le_compat_l; [exact H | discriminate]. Qed.

Lemma pow2_lt_inv (a b : Z) : (pow2 a < pow2 b)%Q -> a < b.
Proof. intros H. apply (Qpower_lt_compat_l_inv 2); [exact H | reflexivity]. Qed.

Lemma pow2_Z (k : Z) : 0 <= k -> (pow2 k == inject_Z (2 ^ k))%Q.
Proof. intros H. symmetry. apply (Zpower_Qpower 2 k H). Qed.

Lemma pow2_cancel (k : Z) : (pow2 (- k) * pow2 k == 1)%Q.
Proof. rewrite <- pow2_add. replace (- k + k) with 0 by lia. reflexivity. Qed.

Lemma Qabs_pos_num (q : Q) : ~ (q == 0)%Q -> 0 < Qnum (Qabs q).
Proof.
  destruct q as [n d]. unfold Qeq. simpl. intros H. lia.
Qed.

Lemma ilog2_spec (q : Q) :
  ~ (q == 0)%Q -> (pow2 (ilog2 q) <= Qabs q < pow2 (ilog2 q + 1))%Q.
Proof.
  intros Hq. pose proof (Qabs_pos_num q Hq) as Hn. unfold ilog2. cbv zeta.
  destruct (Qabs q) as [n d]. simpl in Hn. cbn [Qnum Qden].
  pose proof (Z.log2_spec n Hn) as [Hn1 Hn2].
  pose proof (Z.log2_spec (Z.pos d) ltac:(lia)) as [Hd1 Hd2].
  pose proof (Z.log2_nonneg n) as Hln. pose proof (Z.log2_nonneg (Z.pos d)) as Hld.
  set (ln := Z.log2 n) in *. set (ld := Z.log2 (Z.pos d)) in *.
  assert (En : (n # d == inject_Z n / inject_Z (Z.pos d))%Q) by apply Qmake_Qdiv.
  assert (Hdpos : (0 < inject_Z (Z.pos d))%Q) by (rewrite <- (Zlt_Qlt 0); lia).
  assert (Hn1q : (pow2 ln <= inject_Z n)%Q) by (rewrite pow2_Z, <- Zle_Qle; lia).
  assert (Hn2q : (inject_Z n < pow2 (ln + 1))%Q)
    by (rewrite pow2_Z, <- Zlt_Qlt; [exact Hn2 | lia]).
  assert (Hd1q : (pow2 ld <= inject_Z (Z.pos d))%Q) by (rewrite pow2_Z, <- Zle_Qle; lia).
  assert (Hd2q : (inject_Z (Z.pos d) < pow2 (ld + 1))%Q)
    by (rewrite pow2_Z, <- Zlt_Qlt; [exact Hd2 | lia]).
  destruct (Qle_bool (pow2 (ln - ld)) (n # d)) eqn:Hb.
  - apply Qle_bool_iff in Hb. split; [exact Hb|].
    rewrite En. apply Qlt_shift_div_r; [exact Hdpos|].
    apply Qlt_le_trans with (pow2 (ln + 1)); [exact Hn2q|].
    replace (ln + 1) with ((ln - ld + 1) + ld) by lia. rewrite pow2_add.
    apply Qmult_le_l; [apply pow2_pos | exact Hd1q].
  - assert (Hlt : (n # d < pow2 (ln - ld))%Q).
    { apply Qnot_le_lt. intros H. apply Qle_bool_iff in H. congruence. }
    replace (ln - ld - 1 + 1) with (ln - ld) by lia. split; [|exact Hlt].
    rewrite En. apply Qle_shift_div_l; [exact Hdpos|].
    apply Qle_trans with (pow2 ln); [|exact Hn1q].
    replace ln with ((ln - ld - 1) + (ld + 1)) at 2 by lia. rewrite pow2_add.
    apply Qmult_le_l; [apply pow2_pos | apply Qlt_le_weak; exact Hd2q].
Qed.

(** ** Floats: rounding to an integer and to a binary64 number *)

Lemma round_half_even_near (q : Q) :
  - Z.pos (Qden q) <= 2 * (round_half_even q * Z.pos (Qden q) - Qnum q)
  <= Z.pos (Qden q).
Proof.
  unfold round_half_even. cbv zeta.
  pose proof (Z.div_mod (Qnum q) (Z.pos (Qden q)) ltac:(lia)) as Hq.
  pose proof (Z.mod_pos_bound (Qnum q) (Z.pos (Qden q)) ltac:(lia)) as Hr.
  destruct (Z.ltb_spec (2 * (Qnum q mod Z.pos (Qden q))) (Z.pos (Qden q))); [nia|].
  destruct (Z.ltb_spec (Z.pos (Qden q)) (2 * (Qnum q mod Z.pos (Qden q)))); [nia|].
  destruct (Z.even (Qnum q / Z.pos (Qden q))); nia.
Qed.

Lemma round_half_even_within (y : Q) :
  (y - (1 # 2) <= inject_Z (round_half_even y) <= y + (1 # 2))%Q.
Proof.
  pose proof (round_half_even_near y) as H. destruct y as [n d].
  unfold Qle, Qminus. unfold Qplus, Qopp, inject_Z. cbn [Qnum Qden] in *. lia.
Qed.

(** The integer that is less than one half away is the rounded one. *)
Lemma round_half_even_unique (y : Q) (z : Z) :
  (inject_Z z - (1 # 2) < y < inject_Z z + (1 # 2))%Q -> round_half_even y = z.
Proof.
  pose proof (round_half_even_near y) as H. destruct y as [n d].
  unfold Qlt, Qminus. unfold Qplus, Qopp, inject_Z. cbn [Qnum Qden] in *. nia.
Qed.

Lemma round_half_even_Z (y : Q) (z : Z) :
  (y == inject_Z z)%Q -> round_half_even y = z.
Proof.
  intros H. apply round_half_even_unique. rewrite H. split.
  - apply Qplus_lt_l with (1 # 2)%Q. ring_simplify. rewrite <- Qplus_0_r at 1.
    apply Qplus_lt_r. reflexivity.
  - rewrite <- Qplus_0_r at 1. apply Qplus_lt_r. reflexivity.
Qed.

(** What [nearest_double] rounds to, as an integer number of units in the
    last place. *)
Lemma nearest_double_eq (q : Q) :
  (nearest_double q
   == inject_Z (round_half_even (q * pow2 (- Z.max (ilog2 q - 52) (-1074))))
      * pow2 (Z.max (ilog2 q - 52) (-1074)))%Q.
Proof. unfold nearest_double. cbv zeta. apply Qred_correct. Qed.

(** The rounding error is at most half a unit in the last place. *)
Lemma nearest_double_near (q : Q) :
  (q - pow2 (Z.max (ilog2 q - 52) (-1074)) * (1 # 2) <= nearest_double q
   <= q + pow2 (Z.max (ilog2 q - 52) (-1074)) * (1 # 2))%Q.
Proof.
  rewrite nearest_double_eq. set (u := Z.max (ilog2 q - 52) (-1074)).
  pose proof (round_half_even_within (q * pow2 (- u))) as [H1 H2].
  pose proof (pow2_pos u) as Hu. pose proof (pow2_cancel u) as Hc.
  set (m := inject_Z (round_half_even (q * pow2 (- u)))) in *.
  assert (E : (q == q * pow2 (- u) * pow2 u)%Q)
    by (rewrite <- Qmult_assoc, Hc, Qmult_1_r; reflexivity).
  split.
  - apply Qle_trans with ((q * pow2 (- u) - (1 # 2)) * pow2 u)%Q.
    + rewrite E at 1. ring_simplify. apply Qle_refl.
    + apply Qmult_le_compat_r; [exact H1 | apply Qlt_le_weak; exact Hu].
  - apply Qle_trans with ((q * pow2 (- u) + (1 # 2)) * pow2 u)%Q.
    + apply Qmult_le_compat_r; [exact H2 | apply Qlt_le_weak; exact Hu].
    + rewrite E at 2. ring_simplify. apply Qle_refl.
Qed.

Lemma ilog2_zero (q : Q) : (q == 0)%Q -> ilog2 q < 0.
Proof.
  destruct q as [n d]. unfold Qeq. cbn [Qnum Qden]. intros H.
  assert (n = 0) as -> by lia. unfold ilog2. cbv zeta.
  change (Qabs (0 # d)) with (0 # d). cbn [Qnum Qden].
  change (Z.log2 0) with 0. pose proof (Z.log2_nonneg (Z.pos d)) as Hld.
  destruct (Qle_bool (pow2 (0 - Z.log2 (Z.pos d))) (0 # d)) eqn:Hb; [|lia].
  apply Qle_bool_iff in Hb. exfalso.
  apply (Qlt_not_le _ _ (pow2_pos (0 - Z.log2 (Z.pos d)))).
  apply Qle_trans with (0 # d)%Q; [exact Hb | unfold Qle; simpl; lia].
Qed.

(** The unit in the last place is at most the number itself, unless the
    number is below 1. *)
Lemma ulp_le (q : Q) :
  (0 <= q)%Q -> (pow2 (Z.max (ilog2 q - 52) (-1074)) <= q + 1)%Q.
Proof.
  intros H0.
  assert (Hone : forall k, k <= 0 -> (pow2 k <= q + 1)%Q).
  { intros k Hk. apply Qle_trans with (pow2 0); [apply pow2_le; exact Hk|].
    change (pow2 0) with 1%Q. rewrite <- Qplus_0_l at 1. apply Qplus_le_l. exact H0. }
  destruct (Z.max_spec (ilog2 q - 52) (-1074)) as [[_ ->]|[_ ->]]; [apply Hone; lia|].
  destruct (Qeq_dec q 0) as [Hz|Hz].
  - apply Hone. pose proof (ilog2_zero q Hz). lia.
  - destruct (ilog2_spec q Hz) as [Hlo _]. rewrite (Qabs_pos q H0) in Hlo.
    apply Qle_trans with (pow2 (ilog2 q)); [apply pow2_le; lia|].
    apply Qle_trans with q; [exact Hlo|].
    rewrite <- Qplus_0_r at 1. apply Qplus_le_r. discriminate.
Qed.

(** A rounded number is not far above the number. *)
Lemma nearest_double_le (q : Q) :
  (0 <= q)%Q -> (nearest_double q <= 2 * q + 1)%Q.
Proof.
  intros H0. destruct (nearest_double_near q) as [_ H].
  pose proof (ulp_le q H0) as Hu.
  set (p := pow2 (Z.max (ilog2 q - 52) (-1074))) in *. lra.
Qed.

Lemma nearest_double_nonneg (q : Q) : (0 <= q)%Q -> (0 <= nearest_double q)%Q.
Proof.
  intros H0. rewrite nearest_double_eq.
  set (u := Z.max (ilog2 q - 52) (-1074)).
  apply Qmult_le_0_compat; [|apply Qlt_le_weak, pow2_pos].
  pose proof (round_half_even_within (q * pow2 (- u))) as [H1 _].
  assert (Hy : (0 <= q * pow2 (- u))%Q)
    by (apply Qmult_le_0_compat; [exact H0 | apply Qlt_le_weak, pow2_pos]).
  change 0%Q with (inject_Z 0). rewrite <- Zle_Qle.
  assert (Hm : (inject_Z (-1) < inject_Z (round_half_even (q * pow2 (- u))))%Q).
  { eapply Qlt_le_trans; [|exact H1]. change (inject_Z (-1)) with (-1 # 1)%Q. lra. }
  rewrite <- Zlt_Qlt in Hm. lia.
Qed.

(** ** Floats: numbers that are not changed by rounding *)

Lemma round_half_even_comp (y y' : Q) :
  (y == y')%Q -> round_half_even y = round_half_even y'.
Proof.
  intros H. assert (Hf : Qfloor y = Qfloor y') by (rewrite H; reflexivity).
  destruct y as [n d], y' as [n' d']. unfold Qeq in H. unfold Qfloor in Hf.
  unfold round_half_even. cbn [Qnum Qden] in *. rewrite <- Hf.
  pose proof (Z.div_mod n (Z.pos d) ltac:(lia)) as E.
  pose proof (Z.div_mod n' (Z.pos d') ltac:(lia)) as E'. rewrite <- Hf in E'.
  set (f := n / Z.pos d) in *.
  assert (Hr : (n mod Z.pos d) * Z.pos d' = (n' mod Z.pos d') * Z.pos d) by nia.
  set (r := n mod Z.pos d) in *. set (r' := n' mod Z.pos d') in *.
  destruct (Z.ltb_spec (2 * r) (Z.pos d)), (Z.ltb_spec (2 * r') (Z.pos d'));
    try reflexivity; try (exfalso; nia).
  destruct (Z.ltb_spec (Z.pos d) (2 * r)), (Z.ltb_spec (Z.pos d') (2 * r'));
    try reflexivity; exfalso; nia.
Qed.

Lemma Qabs_inject_Z (m : Z) : Qabs (inject_Z m) = inject_Z (Z.abs m).
Proof. reflexivity. Qed.

(** A number with at most 53 significant bits, the last worth [2**j] with
    [j] not below -1074, is a binary64 number: rounding gives it back. *)
Lemma nearest_double_exact (q : Q) (m j : Z) :
  (q == inject_Z m * pow2 j)%Q -> Z.abs m < 2 ^ 53 -> -1074 <= j ->
  (nearest_double q == q)%Q.
Proof.
  intros Hq Hm Hj. rewrite nearest_double_eq.
  set (u := Z.max (ilog2 q - 52) (-1074)).
  destruct (Z.eq_dec m 0) as [->|Hm0].
  { assert (Hz : (q == 0)%Q) by (rewrite Hq; ring).
    assert (Hy : (q * pow2 (- u) == inject_Z 0)%Q) by (rewrite Hz; ring).
    rewrite (round_half_even_Z _ _ Hy), Hz. ring. }
  assert (Hu : u <= j).
  { assert (Hnz : ~ (q == 0)%Q).
    { rewrite Hq. intros H. apply Qmult_integral in H as [H|H].
      - apply Hm0. unfold Qeq in H. simpl in H. lia.
      - pose proof (pow2_pos j) as Hp. rewrite H in Hp. discriminate Hp. }
    destruct (ilog2_spec q Hnz) as [Hlo _].
    assert (Hlt : (pow2 (ilog2 q) < pow2 (53 + j))%Q).
    { eapply Qle_lt_trans; [exact Hlo|].
      rewrite Hq, Qabs_Qmult, Qabs_inject_Z, (Qabs_pos (pow2 j))
        by (apply Qlt_le_weak, pow2_pos).
      rewrite pow2_add. apply Qmult_lt_compat_r; [apply pow2_pos|].
      rewrite pow2_Z by lia. rewrite <- Zlt_Qlt. exact Hm. }
    apply pow2_lt_inv in Hlt. unfold u. lia. }
  assert (Hy : (q * pow2 (- u) == inject_Z (m * 2 ^ (j - u)))%Q).
  { rewrite Hq, inject_Z_mult, <- pow2_Z by lia.
    replace (j - u) with (j + - u) by lia. rewrite pow2_add. ring. }
  rewrite (round_half_even_Z _ _ Hy), Hq, inject_Z_mult, <- pow2_Z by lia.
  rewrite <- Qmult_assoc, <- pow2_add. replace (j - u + u) with j by lia.
  reflexivity.
Qed.

(** Below [2**(e+1)], for [e] not below 0, the unit in the last place is
    at most [2**(e-52)]. *)
Lemma ulp_small (q : Q) (e : Z) :
  (Qabs q < pow2 (e + 1))%Q -> 0 <= e ->
  (pow2 (Z.max (ilog2 q - 52) (-1074)) <= pow2 (e - 52))%Q.
Proof.
  intros Hq He. apply pow2_le.
  destruct (Qeq_dec q 0) as [Hz|Hnz].
  - pose proof (ilog2_zero q Hz). lia.
  - destruct (ilog2_spec q Hnz) as [Hlo _].
    assert (Hlt : (pow2 (ilog2 q) < pow2 (e + 1))%Q)
      by (eapply Qle_lt_trans; eassumption).
    apply pow2_lt_inv in Hlt. lia.
Qed.

Lemma Qfloor_between (v : Q) (k : Z) :
  (inject_Z k <= v < inject_Z (k + 1))%Q -> Qfloor v = k.
Proof.
  intros [H1 H2]. apply Qfloor_resp_le in H1. rewrite Qfloor_Z in H1.
  pose proof (Qfloor_le v) as H3.
  assert (H4 : (inject_Z (Qfloor v) < inject_Z (k + 1))%Q)
    by (eapply Qle_lt_trans; eassumption).
  rewrite <- Zlt_Qlt in H4. lia.
Qed.

(** ** Duration phrases of ordinary length stay in the float range *)

Lemma length_map_chars (f : ascii -> ascii) (s : string) :
  String.length (map_chars f s) = String.length s.
Proof. induction s as [|c s IH]; simpl; [reflexivity | rewrite IH; reflexivity]. Qed.

Lemma length_drop_while (p : ascii -> bool) (s : string) :
  (String.length (drop_while p s) <= String.length s)%nat.
Proof. induction s as [|c s IH]; simpl; [lia|]. destruct (p c); simpl; lia. Qed.

Lemma length_take_while (p : ascii -> bool) (s : string) :
  (String.length (take_while p s) <= String.length s)%nat.
Proof. induction s as [|c s IH]; simpl; [lia|]. destruct (p c); simpl; lia. Qed.

Lemma take_while_all (p : ascii -> bool) (s : string) :
  all_chars p (take_while p s) = true.
Proof.
  induction s as [|c s IH]; simpl; [reflexivity|].
  destruct (p c) eqn:Hc; simpl; [rewrite Hc, IH|]; reflexivity.
Qed.

Lemma take_drop_length (p : ascii -> bool) (s : string) :
  (String.length (take_while p s) + String.length (drop_while p s)
   = String.length s)%nat.
Proof. induction s as [|c s IH]; simpl; [reflexivity|]. destruct (p c); simpl; lia. Qed.

Lemma length_rev_app (s1 s2 : string) :
  String.length (String.rev_app s1 s2) = (String.length s1 + String.length s2)%nat.
Proof.
  revert s2. induction s1 as [|c s1 IH]; intros s2; simpl; [reflexivity|].
  rewrite IH. simpl. lia.
Qed.

Lemma length_rev (s : string) : String.length (String.rev s) = String.length s.
Proof. unfold String.rev. rewrite length_rev_app. simpl. lia. Qed.

Lemma length_strip (s : string) : (String.length (strip s) <= String.length s)%nat.
Proof.
  unfold strip. rewrite length_rev.
  etransitivity; [apply length_drop_while|]. rewrite length_rev.
  apply length_drop_while.
Qed.

Lemma length_substring (n m : nat) (s : string) :
  (String.length (String.substring n m s) <= String.length s)%nat.
Proof.
  revert n m. induction s as [|c s IH]; intros [|n] [|m]; simpl; try lia.
  - specialize (IH O m). lia.
  - specialize (IH n O). lia.
  - specialize (IH n (S m)). lia.
Qed.

Lemma length_search_group1 (r : regex) (s text : string) :
  search_group1 r s = Some text -> (String.length text <= String.length s)%nat.
Proof.
  unfold search_group1, group. destruct (re_search r s) as [m|]; [|discriminate].
  destruct (lookup_group 1 m.2) as [[start stop]|]; [|discriminate].
  intros [= <-]. apply length_substring.
Qed.

Lemma digit_value_range (c : ascii) : is_digit c = true -> 0 <= digit_value c <= 9.
Proof.
  unfold is_digit, digit_value. intros H. apply andb_prop in H as [H1 H2].
  apply Nat.leb_le in H1, H2. lia.
Qed.

Lemma digits_value_range (s : string) :
  forall acc,
  all_chars is_digit s = true -> 0 <= acc ->
  0 <= digits_value s acc < (acc + 1) * 10 ^ Z.of_nat (String.length s).
Proof.
  induction s as [|c s IH]; intros acc Hall Hacc; simpl digits_value.
  - simpl. lia.
  - simpl in Hall. apply andb_prop in Hall as [Hc Hs].
    pose proof (digit_value_range c Hc) as Hd.
    specialize (IH (10 * acc + digit_value c) Hs ltac:(lia)).
    change (String.length (String c s)) with (S (String.length s)).
    rewrite Nat2Z.inj_succ, Z.pow_succ_r by lia.
    assert (0 < 10 ^ Z.of_nat (String.length s)) by (apply Z.pow_pos_nonneg; lia).
    nia.
Qed.

(** The value [float_of_decimal] reads is below [10 ** len(s)]. *)
Lemma float_of_decimal_value (s : string) :
  exists q : Q,
    float_of_decimal s = to_float q
    /\ (0 <= q)%Q /\ (q < inject_Z (10 ^ Z.of_nat (String.length s)))%Q.
Proof.
  unfold float_of_decimal.
  pose proof (take_drop_length is_digit s) as Hlen.
  pose proof (digits_value_range (take_while is_digit s) 0
                (take_while_all is_digit s) ltac:(lia)) as Hip.
  set (ip := take_while is_digit s) in *.
  assert (Hpow : 10 ^ Z.of_nat (String.length ip) <= 10 ^ Z.of_nat (String.length s)).
  { apply Z.pow_le_mono_r; lia. }
  assert (Hint : (0 <= inject_Z (digits_value ip 0))%Q
                 /\ (inject_Z (digits_value ip 0)
                     < inject_Z (10 ^ Z.of_nat (String.length s)))%Q).
  { split; [change 0%Q with (inject_Z 0); rewrite <- Zle_Qle; lia|].
    rewrite <- Zlt_Qlt. lia. }
  destruct (drop_while is_digit s) as [|c rest] eqn:Hdrop; [eauto|].
  destruct (Ascii.eqb c "."); [|eauto].
  set (fp := take_while is_digit rest).
  pose proof (digits_value_range fp (digits_value ip 0)
                (take_while_all is_digit rest) ltac:(lia)) as Hfp.
  fold fp in Hfp.
  assert (Hk : 0 < 10 ^ Z.of_nat (String.length fp)) by (apply Z.pow_pos_nonneg; lia).
  eexists. split; [reflexivity|]. unfold Qle, Qlt. simpl.
  rewrite Z2Pos.id by lia. split; [lia|]. nia.
Qed.

Lemma to_float_small (q : Q) :
  (q < inject_Z overflow_bound)%Q -> to_float q = Finite (nearest_double q).
Proof.
  intros H. unfold to_float.
  destruct (Qle_bool (inject_Z overflow_bound) q) eqn:Hle; [|reflexivity].
  apply Qle_bool_iff in Hle. exfalso. apply (Qlt_not_le _ _ H Hle).
Qed.

Lemma short_number_finite (text : string) :
  (String.length text <= 300)%nat ->
  is_finite (float_of_decimal text) = true
  /\ is_finite (float_mul (float_of_decimal text) 12) = true.
Proof.
  intros Hlen. destruct (float_of_decimal_value text) as (q & -> & H0 & Hq).
  assert (Hsmall : (q < inject_Z (10 ^ 300))%Q).
  { eapply Qlt_le_trans; [exact Hq|]. rewrite <- Zle_Qle.
    apply Z.pow_le_mono_r; lia. }
  assert (H12 : ((2 * q + 1) * 12 < inject_Z overflow_bound)%Q).
  { apply Qlt_trans with ((2 * inject_Z (10 ^ 300) + 1) * 12)%Q.
    - lra.
    - vm_compute. reflexivity. }
  rewrite to_float_small.
  - split; [reflexivity|]. simpl. rewrite to_float_small; [reflexivity|].
    pose proof (nearest_double_le q H0). lra.
  - eapply Qle_lt_trans; [|exact H12]. lra.
Qed.

Lemma short_phrase_finite (duration_str : string) :
  (String.length duration_str <= 300)%nat -> finite_phrase duration_str = true.
Proof.
  intros Hlen. unfold finite_phrase. cbv zeta.
  assert (Ht : (String.length (strip (lower duration_str)) <= 300)%nat).
  { etransitivity; [apply length_strip|]. unfold lower.
    rewrite length_map_chars. exact Hlen. }
  apply andb_true_intro. split.
  - destruct (search_group1 years_re _) as [y|] eqn:Hy; [|reflexivity].
    apply length_search_group1 in Hy. apply short_number_finite. lia.
  - destruct (search_group1 months_re _) as [m|] eqn:Hm; [|reflexivity].
    apply length_search_group1 in Hm. apply short_number_finite. lia.
Qed.

(** An entry whose duration text has at most 300 characters cannot
    overflow a float. *)
Lemma short_entry_finite (w : gmap string pyval) :
  (forall v, w !! "work_duration" = Some v -> (String.length (str v) <= 300)%nat) ->
  finite_entry w = true.
Proof.
  intros H. unfold finite_entry.
  destruct (w !! "work_duration") as [v|]; [|reflexivity].
  destruct (truth v); [|reflexivity].
  apply short_phrase_finite, H. reflexivity.
Qed.

(** ** Worked examples *)

Example normalize_name_example : normalize_name "O'Brien  " = "OBRIEN".
Proof. vm_compute. reflexivity. Qed.

Example exact_names_example :
  fuzzy_match_names (Some "Babu Khan") (Some "BABU  KHAN") default_threshold
  = (true, 1%Q).
Proof. vm_compute. reflexivity. Qed.

Example close_names_example :
  fuzzy_match_names (Some "Babu Khan") (Some "Babu Khna") default_threshold
  = (true, (8 # 9)%Q).
Proof. vm_compute. reflexivity. Qed.

Example missing_dob_example :
  status <$> (match verify_documents (Some "A") (Some "") sample_docs with
              | Ok r => Some r
              | Raise _ => None
              end) = Some "pending".
Proof. vm_compute. reflexivity. Qed.

Example one_mismatch_example :
  status sample_result = "failed"
  /\ verified_count sample_result = 1
  /\ total_count sample_result = 2
  /\ length (mismatches sample_result) = 1%nat.
Proof. repeat split. Qed.

(** The product [years * 12] is a rounded float: the float read from
    "0.3333333333333333" times 12 is halfway between two floats and becomes
    4.0, and the one read from "0.08333333333333333" times 12 becomes 1.0,
    so that the phrase settles the entry and its [duration_months] is not
    read. *)
Example rounded_product_example :
  calculate_total_experience_duration
    [{[ "work_duration" := PStr "0.3333333333333333 years" ]}] = Ok 4
  /\ calculate_total_experience_duration
       [<[ "work_duration" := PStr "0.08333333333333333 years" ]>
          {[ "duration_months" := PInt 7 ]}] = Ok 1.
Proof. split; vm_compute; reflexivity. Qed.

(** A total that does not fit a float makes line 452 raise. *)
Example total_overflow_example :
  calculate_total_experience_duration [{[ "duration_months" := PInt (2 ^ 1024) ]}]
  = Raise OverflowError.
Proof. vm_compute. reflexivity. Qed.

(** Ordinary totals: 143 months are stored as 11 years and the float
    nearest to 11.9, 144 months as 12 years and 12.0. *)
Example stored_years_example :
  stored_years [{[ "duration_months" := PInt 143 ]}] 0
  = Ok (11, Some (Finite (nearest_double (119 # 10))))
  /\ stored_years [{[ "duration_months" := PInt 144 ]}] 0
     = Ok (12, Some (Finite 12)).
Proof. split; vm_compute; reflexivity. Qed.

Example unreadable_year_example :
  normalize_date "15-08-9O" = Raise ValueError
  /\ verify_documents (Some "Babu Khan") (Some "15-08-9O") sample_docs
     = Raise ValueError.
Proof. split; vm_compute; reflexivity. Qed.

(** * Further properties of the modelled code *)

(** ** [verify_documents]: counts, order and composition *)

Lemma truthy_cons (c : ascii) (s : string) : truthy (Some (String c s)) = true.
Proof. reflexivity. Qed.

Lemma verify_documents_loop (c1 c2 : ascii) (n1 d1 : string) (doc : EduDoc)
    (docs : list EduDoc) :
  verify_documents (Some (String c1 n1)) (Some (String c2 d1)) (doc :: docs)
  = ('(comparisons, mismatches, verified_count) ←
       verify_loop (String c1 n1) (String c2 d1) (doc :: docs) ([], [], 0);
     Ok (mkResult
           (if verified_count =? Z.of_nat (length (doc :: docs))
            then "verified" else "failed")
           verified_count (Z.of_nat (length (doc :: docs)))
           comparisons mismatches None)).
Proof. reflexivity. Qed.

(** One round of the loop adds one comparison, no mismatch for a document
    that matches and one or two for a document that does not. *)
Lemma verify_one_counts (n d : string) (cs : list Comparison) (ms : list Mismatch)
    (vc : Z) (doc : EduDoc) (cs' : list Comparison) (ms' : list Mismatch) (vc' : Z) :
  verify_one n d (cs, ms, vc) doc = Ok (cs', ms', vc') ->
  exists c new,
    cs' = cs ++ [c] /\ ms' = ms ++ new
    /\ vc' = vc + (if overall_match c then 1 else 0)
    /\ document_id c = id doc
    /\ c_qualification c = default "Unknown" (qualification doc)
    /\ (if overall_match c then length new = 0%nat
        else (1 <= length new <= 2)%nat).
Proof.
  unfold verify_one.
  destruct (fuzzy_match_names (Some n) (extracted_name doc) default_threshold)
    as [nm sim].
  destruct (exact_match_dob (Some d) (extracted_dob doc)) as [[dm msg]|e];
    simpl; [|discriminate].
  intros [= <- <- <-]. destruct nm, dm; simpl.
  - eexists; exists []. rewrite app_nil_r. repeat split.
  - eexists; eexists [_]. repeat split; simpl; lia.
  - eexists; eexists [_]. repeat split; simpl; lia.
  - eexists; eexists [_; _]. rewrite <- app_assoc. repeat split; simpl; lia.
Qed.

Lemma verify_loop_counts (n d : string) (docs : list EduDoc) :
  forall (cs : list Comparison) (ms : list Mismatch) (vc : Z)
         (cs' : list Comparison) (ms' : list Mismatch) (vc' : Z),
  verify_loop n d docs (cs, ms, vc) = Ok (cs', ms', vc') ->
  exists newc newm,
    cs' = cs ++ newc /\ ms' = ms ++ newm
    /\ vc' = vc + count_matches newc
    /\ map document_id newc = map id docs
    /\ map c_qualification newc
       = map (fun doc => default "Unknown" (qualification doc)) docs
    /\ failures newc <= Z.of_nat (length newm) <= 2 * failures newc.
Proof.
  induction docs as [|doc docs IH]; intros cs ms vc cs' ms' vc'; simpl.
  - intros [= <- <- <-]. exists [], []. rewrite !app_nil_r.
    unfold failures. simpl. repeat split; lia.
  - intros H. apply bind_Ok in H as ([[cs1 ms1] vc1] & H1 & H2).
    apply verify_one_counts in H1 as (c & new & -> & -> & -> & Hid & Hq & Hlen).
    apply IH in H2 as (newc & newm & -> & -> & -> & Hids & Hqs & Hf).
    exists (c :: newc), (new ++ newm). rewrite <- !app_assoc.
    split; [reflexivity|]. split; [reflexivity|].
    cbn [count_matches fold_right map]. fold (count_matches newc).
    rewrite Hid, Hq, Hids, Hqs. split; [lia|]. split; [reflexivity|].
    split; [reflexivity|].
    unfold failures in *. rewrite length_app. cbn [length count_matches fold_right].
    fold (count_matches newc). destruct (overall_match c); lia.
Qed.

Lemma verify_documents_counts_aux (personal_name personal_dob : option string)
    (docs : list EduDoc) (r : VerificationResult) :
  truthy personal_name = true -> truthy personal_dob = true -> docs <> [] ->
  verify_documents personal_name personal_dob docs = Ok r ->
  verified_count r = count_matches (comparisons r)
  /\ total_count r = Z.of_nat (length (comparisons r))
  /\ total_count r = Z.of_nat (length docs)
  /\ map document_id (comparisons r) = map id docs
  /\ map c_qualification (comparisons r)
     = map (fun doc => default "Unknown" (qualification doc)) docs
  /\ failures (comparisons r) <= Z.of_nat (length (mismatches r))
     <= 2 * failures (comparisons r)
  /\ status r = (if verified_count r =? total_count r then "verified" else "failed").
Proof.
  intros Hn Hd Hdocs.
  apply truthy_true in Hn as (c1 & n1 & ->). apply truthy_true in Hd as (c2 & d1 & ->).
  destruct docs as [|doc docs]; [congruence|]. rewrite verify_documents_loop.
  intros H. apply bind_Ok in H as ([[cs ms] vc] & H1 & H2). injection H2 as <-.
  apply verify_loop_counts in H1 as (newc & newm & -> & -> & -> & Hids & Hqs & Hf).
  cbn [verified_count total_count comparisons mismatches status app].
  assert (Hlen : length newc = length (doc :: docs)).
  { rewrite <- (length_map document_id newc), Hids, length_map. reflexivity. }
  rewrite Hlen. repeat split; try assumption; lia.
Qed.

(** X1. A returned verification counts what it compared: the verified
    count lies between 0 and the total count, the total count is the number
    of documents, a "verified" result has no mismatch record and a "failed"
    one has at least one and at most two for each document that failed. *)
Theorem verify_documents_counts (personal_name personal_dob : option string)
    (docs : list EduDoc) (r : VerificationResult) :
  truthy personal_name = true -> truthy personal_dob = true -> docs <> [] ->
  verify_documents personal_name personal_dob docs = Ok r ->
  0 <= verified_count r <= total_count r
  /\ total_count r = Z.of_nat (length docs)
  /\ (status r = "verified" <-> mismatches r = [])
  /\ (status r = "failed" <-> mismatches r <> [])
  /\ total_count r - verified_count r <= Z.of_nat (length (mismatches r))
     <= 2 * (total_count r - verified_count r).
Proof.
  intros Hn Hd Hdocs H.
  destruct (verify_documents_counts_aux _ _ _ _ Hn Hd Hdocs H)
    as (Hvc & Htc & Htd & _ & _ & Hf & Hst).
  pose proof (count_matches_bounds (comparisons r)) as Hb.
  unfold failures in Hf. rewrite <- Htc, <- Hvc in Hf.
  destruct (status_eq_dec (verified_count r =? total_count r)) as [Hv Hfl].
  rewrite Hst, Hv, Hfl.
  split; [lia|]. split; [exact Htd|]. split; [|split; [|exact Hf]].
  - rewrite Z.eqb_eq. split.
    + intros Heq. destruct (mismatches r); [reflexivity | simpl in Hf; lia].
    + intros Hnil. rewrite Hnil in Hf. simpl in Hf. lia.
  - rewrite Z.eqb_neq. split.
    + intros Hne Hnil. rewrite Hnil in Hf. simpl in Hf. lia.
    + intros Hne Heq. destruct (mismatches r); [congruence | simpl in Hf; lia].
Qed.

Lemma verify_documents_counts_witness :
  0 <= verified_count sample_result <= total_count sample_result
  /\ total_count sample_result = Z.of_nat (length sample_docs)
  /\ (status sample_result = "verified" <-> mismatches sample_result = [])
  /\ (status sample_result = "failed" <-> mismatches sample_result <> [])
  /\ total_count sample_result - verified_count sample_result
     <= Z.of_nat (length (mismatches sample_result))
     <= 2 * (total_count sample_result - verified_count sample_result).
Proof.
  apply (verify_documents_counts (Some "Babu Khan") (Some "01-12-1987")
           sample_docs sample_result);
    [reflexivity | reflexivity | discriminate | vm_compute; reflexivity].
Defined.

(** X2. The comparisons of a returned verification follow the documents in
    their order: one comparison per document, with the id of the document
    and its qualification, "Unknown" when the document has none. *)
Theorem verify_documents_order (personal_name personal_dob : option string)
    (docs : list EduDoc) (r : VerificationResult) :
  truthy personal_name = true -> truthy personal_dob = true -> docs <> [] ->
  verify_documents personal_name personal_dob docs = Ok r ->
  map document_id (comparisons r) = map id docs
  /\ map c_qualification (comparisons r)
     = map (fun doc => default "Unknown" (qualification doc)) docs
  /\ forall mm, mm ∈ mismatches r -> mm_document_id mm ∈ map id docs.
Proof.
  intros Hn Hd Hdocs H.
  destruct (verify_documents_counts_aux _ _ _ _ Hn Hd Hdocs H)
    as (_ & _ & _ & Hids & Hqs & _).
  split; [exact Hids|]. split; [exact Hqs|].
  intros mm Hmm. destruct (verify_documents_mismatches _ _ _ _ H) as [Hm _].
  destruct (Hm mm Hmm) as (c & Hc & -> & _). rewrite <- Hids.
  apply list_elem_of_fmap. exists c. split; [reflexivity | exact Hc].
Qed.

Lemma verify_documents_order_witness :
  map document_id (comparisons sample_result) = map id sample_docs
  /\ map c_qualification (comparisons sample_result)
     = map (fun doc => default "Unknown" (qualification doc)) sample_docs
  /\ forall mm, mm ∈ mismatches sample_result -> mm_document_id mm ∈ map id sample_docs.
Proof.
  apply (verify_documents_order (Some "Babu Khan") (Some "01-12-1987")
           sample_docs sample_result);
    [reflexivity | reflexivity | discriminate | vm_compute; reflexivity].
Defined.

Lemma normalize_date_exn (s : string) (e : exn) :
  normalize_date s = Raise e -> e = ValueError.
Proof.
  destruct s as [|c s]; [discriminate|].
  rewrite normalize_date_parts by discriminate.
  destruct (date_parts (String c s)) as [|p0 [|p1 [|p2 [|p3 ps]]]]; try discriminate.
  destruct (_ && _); [discriminate|].
  destruct (_ =? _)%nat; [|discriminate].
  destruct (int_of_str p2) as [y|e'] eqn:Hy; simpl; [discriminate|].
  intros [= <-]. eapply int_of_str_exn; eassumption.
Qed.

Lemma exact_match_dob_exn (dob1 dob2 : option string) (e : exn) :
  exact_match_dob dob1 dob2 = Raise e -> e = ValueError.
Proof.
  unfold exact_match_dob. destruct dob1 as [d1|], dob2 as [d2|]; try discriminate.
  destruct (_ && _); [|discriminate].
  destruct (normalize_date d1) as [n1|e1] eqn:H1; simpl;
    [|intros [= <-]; eapply normalize_date_exn; eassumption].
  destruct (normalize_date d2) as [n2|e2] eqn:H2; simpl;
    [|intros [= <-]; eapply normalize_date_exn; eassumption].
  destruct (String.eqb n1 n2); discriminate.
Qed.

Lemma doc_outcome_exn (n d : string) (doc : EduDoc) (e : exn) :
  doc_outcome n d doc = Raise e -> e = ValueError.
Proof.
  unfold doc_outcome.
  destruct (exact_match_dob (Some d) (extracted_dob doc)) as [res|e'] eqn:H; simpl;
    [discriminate|].
  intros [= <-]. eapply exact_match_dob_exn; eassumption.
Qed.

Lemma tally_exn (n d : string) (docs : list EduDoc) (e : exn) :
  tally n d docs = Raise e -> e = ValueError.
Proof.
  induction docs as [|doc docs IH]; simpl; [discriminate|].
  destruct (doc_outcome n d doc) as [m|e1] eqn:H1; simpl;
    [|intros [= <-]; eapply doc_outcome_exn; eassumption].
  destruct (tally n d docs) as [k|e2]; simpl; [discriminate|].
  intros [= <-]. apply IH. reflexivity.
Qed.

Lemma tally_Permutation (n d : string) (docs docs' : list EduDoc) :
  Permutation docs docs' -> tally n d docs = tally n d docs'.
Proof.
  induction 1 as [|x l l' _ IH|x y l|l l' l'' _ IH1 _ IH2]; simpl.
  - reflexivity.
  - rewrite IH. reflexivity.
  - destruct (doc_outcome n d x) as [mx|ex] eqn:Hx,
             (doc_outcome n d y) as [my|ey] eqn:Hy; simpl.
    + destruct (tally n d l); simpl; [f_equal; destruct mx, my; lia | reflexivity].
    + apply doc_outcome_exn in Hy as ->. reflexivity.
    + apply doc_outcome_exn in Hx as ->. reflexivity.
    + apply doc_outcome_exn in Hx as ->. apply doc_outcome_exn in Hy as ->.
      reflexivity.
  - congruence.
Qed.

Lemma count_of_verify_loop (n d : string) (docs : list EduDoc) :
  forall cs ms vc,
  count_of (verify_loop n d docs (cs, ms, vc))
  = Py.bind (tally n d docs) (fun k => Ok (vc + k)).
Proof.
  induction docs as [|doc docs IH]; intros cs ms vc; simpl.
  - rewrite Z.add_0_r. reflexivity.
  - unfold verify_one, doc_outcome.
    destruct (fuzzy_match_names (Some n) (extracted_name doc) default_threshold)
      as [nm sim].
    destruct (exact_match_dob (Some d) (extracted_dob doc)) as [[dm msg]|e];
      simpl; [|reflexivity].
    rewrite IH. destruct (tally n d docs) as [k|e]; simpl; [|reflexivity].
    f_equal. destruct (nm && dm); lia.
Qed.

Lemma verify_documents_summary (c1 c2 : ascii) (n1 d1 : string) (doc : EduDoc)
    (docs : list EduDoc) :
  summary (verify_documents (Some (String c1 n1)) (Some (String c2 d1)) (doc :: docs))
  = Py.bind (tally (String c1 n1) (String c2 d1) (doc :: docs))
      (fun k =>
         Ok (if k =? Z.of_nat (length (doc :: docs)) then "verified" else "failed",
             k, Z.of_nat (length (doc :: docs)))).
Proof.
  rewrite verify_documents_loop. generalize (doc :: docs). intros l.
  pose proof (count_of_verify_loop (String c1 n1) (String c2 d1) l [] [] 0) as H.
  destruct (verify_loop (String c1 n1) (String c2 d1) l ([], [], 0))
    as [[[cs ms] vc]|e];
    destruct (tally (String c1 n1) (String c2 d1) l) as [k|e'];
    try discriminate H; injection H as ->; reflexivity.
Qed.

(** X3. The order of the documents does not matter for what a verification
    decides: two lists with the same documents give the same status, the
    same verified count and the same total count, or both raise the same
    exception. *)
Theorem verify_documents_order_independent
    (personal_name personal_dob : option string) (docs docs' : list EduDoc) :
  Permutation docs docs' ->
  summary (verify_documents personal_name personal_dob docs)
  = summary (verify_documents personal_name personal_dob docs').
Proof.
  intros Hp. pose proof (Permutation_length Hp) as Hlen.
  destruct personal_name as [[|c1 n1]|], personal_dob as [[|c2 d1]|];
    try (unfold verify_documents; simpl; rewrite Hlen; reflexivity).
  destruct docs as [|doc docs], docs' as [|doc' docs']; try discriminate Hlen;
    [reflexivity|].
  rewrite !verify_documents_summary, (tally_Permutation _ _ _ _ Hp), Hlen.
  reflexivity.
Qed.

Lemma verify_documents_order_independent_witness :
  summary (verify_documents (Some "Babu Khan") (Some "01-12-1987") sample_docs)
  = summary (verify_documents (Some "Babu Khan") (Some "01-12-1987")
               (rev sample_docs)).
Proof.
  apply verify_documents_order_independent. apply Permutation_rev.
Defined.

#[global] Arguments verify_one : simpl never.

Lemma verify_one_shift (n d : string) (cs : list Comparison) (ms : list Mismatch)
    (vc : Z) (doc : EduDoc) :
  verify_one n d (cs, ms, vc) doc
  = Py.bind (verify_one n d ([], [], 0) doc)
      (fun st => Ok (cs ++ st.1.1, ms ++ st.1.2, vc + st.2)).
Proof.
  unfold verify_one.
  destruct (fuzzy_match_names (Some n) (extracted_name doc) default_threshold)
    as [nm sim].
  destruct (exact_match_dob (Some d) (extracted_dob doc)) as [[dm msg]|e];
    simpl; [|reflexivity].
  destruct nm, dm; simpl; rewrite ?app_nil_r, <- ?app_assoc, ?Z.add_0_r;
    reflexivity.
Qed.

Lemma verify_loop_shift (n d : string) (docs : list EduDoc) :
  forall cs ms vc,
  verify_loop n d docs (cs, ms, vc)
  = Py.bind (verify_loop n d docs ([], [], 0))
      (fun st => Ok (cs ++ st.1.1, ms ++ st.1.2, vc + st.2)).
Proof.
  induction docs as [|doc docs IH]; intros cs ms vc; simpl.
  - rewrite !app_nil_r, Z.add_0_r. reflexivity.
  - rewrite verify_one_shift.
    destruct (verify_one n d ([], [], 0) doc) as [[[cs1 ms1] vc1]|e]; simpl;
      [|reflexivity].
    rewrite (IH (cs ++ cs1) (ms ++ ms1) (vc + vc1)), (IH cs1 ms1 vc1).
    destruct (verify_loop n d docs ([], [], 0)) as [[[cs2 ms2] vc2]|e]; simpl;
      [|reflexivity].
    rewrite <- !app_assoc, Z.add_assoc. reflexivity.
Qed.

Lemma verify_loop_app (n d : string) (docs1 docs2 : list EduDoc) :
  forall st,
  verify_loop n d (docs1 ++ docs2) st
  = Py.bind (verify_loop n d docs1 st) (verify_loop n d docs2).
Proof.
  induction docs1 as [|doc docs1 IH]; intros st; simpl; [reflexivity|].
  destruct (verify_one n d st doc) as [st'|e]; simpl; [apply IH | reflexivity].
Qed.

(** X4. Verifying two non-empty lists of documents one after the other
    gives the parts of the verification of the joined list: its comparisons
    and mismatches are theirs in order, its counts are the sums, and it is
    "verified" exactly when both are. *)
Theorem verify_documents_app (personal_name personal_dob : option string)
    (docs1 docs2 : list EduDoc) (r1 r2 : VerificationResult) :
  truthy personal_name = true -> truthy personal_dob = true ->
  docs1 <> [] -> docs2 <> [] ->
  verify_documents personal_name personal_dob docs1 = Ok r1 ->
  verify_documents personal_name personal_dob docs2 = Ok r2 ->
  exists r,
    verify_documents personal_name personal_dob (docs1 ++ docs2) = Ok r
    /\ comparisons r = comparisons r1 ++ comparisons r2
    /\ mismatches r = mismatches r1 ++ mismatches r2
    /\ verified_count r = verified_count r1 + verified_count r2
    /\ total_count r = total_count r1 + total_count r2
    /\ (status r = "verified"
        <-> status r1 = "verified" /\ status r2 = "verified").
Proof.
  intros Hn Hd H1 H2 Hr1 Hr2.
  destruct (verify_documents_counts_aux _ _ _ _ Hn Hd H1 Hr1)
    as (Hvc1 & Htc1 & _ & _ & _ & _ & Hst1).
  destruct (verify_documents_counts_aux _ _ _ _ Hn Hd H2 Hr2)
    as (Hvc2 & Htc2 & _ & _ & _ & _ & Hst2).
  pose proof (count_matches_bounds (comparisons r1)) as Hb1.
  pose proof (count_matches_bounds (comparisons r2)) as Hb2.
  apply truthy_true in Hn as (c1 & n1 & ->). apply truthy_true in Hd as (c2 & d1 & ->).
  destruct docs1 as [|doc1 docs1]; [congruence|].
  destruct docs2 as [|doc2 docs2]; [congruence|].
  rewrite verify_documents_loop in Hr1, Hr2.
  apply bind_Ok in Hr1 as ([[cs1 ms1] vc1] & Hl1 & Hr1). injection Hr1 as <-.
  apply bind_Ok in Hr2 as ([[cs2 ms2] vc2] & Hl2 & Hr2). injection Hr2 as <-.
  cbn [verified_count total_count comparisons mismatches status] in *.
  change ((doc1 :: docs1) ++ doc2 :: docs2)
    with (doc1 :: (docs1 ++ doc2 :: docs2)).
  rewrite verify_documents_loop.
  change (doc1 :: (docs1 ++ doc2 :: docs2))
    with ((doc1 :: docs1) ++ doc2 :: docs2).
  rewrite verify_loop_app, Hl1. cbn [Py.bind].
  rewrite verify_loop_shift, Hl2. cbn [Py.bind fst snd].
  eexists. split; [reflexivity|].
  cbn [verified_count total_count comparisons mismatches status].
  rewrite length_app, Nat2Z.inj_add.
  split; [reflexivity|]. split; [reflexivity|]. split; [reflexivity|].
  split; [reflexivity|].
  clear Hst1 Hst2. cbn [length] in *.
  rewrite !(proj1 (status_eq_dec _)), !Z.eqb_eq. lia.
Qed.

Lemma verify_documents_app_witness :
  exists r,
    verify_documents (Some "Babu Khan") (Some "01-12-1987")
      (sample_docs ++ sample_docs) = Ok r
    /\ comparisons r = comparisons sample_result ++ comparisons sample_result
    /\ mismatches r = mismatches sample_result ++ mismatches sample_result
    /\ verified_count r = verified_count sample_result + verified_count sample_result
    /\ total_count r = total_count sample_result + total_count sample_result
    /\ (status r = "verified"
        <-> status sample_result = "verified" /\ status sample_result = "verified").
Proof.
  apply (verify_documents_app (Some "Babu Khan") (Some "01-12-1987")
           sample_docs sample_docs sample_result sample_result);
    try reflexivity; try discriminate; vm_compute; reflexivity.
Defined.

(** ** Texts: reversal, stripping and character classes *)

Lemma append_cons (c : ascii) (s t : string) : String c s +:+ t = String c (s +:+ t).
Proof. reflexivity. Qed.

Lemma append_nil_l (t : string) : "" +:+ t = t.
Proof. reflexivity. Qed.

Lemma append_nil_r (s : string) : s +:+ "" = s.
Proof.
  induction s as [|c s IH]; [reflexivity | rewrite append_cons, IH; reflexivity].
Qed.

Lemma append_assoc (s1 s2 s3 : string) : (s1 +:+ s2) +:+ s3 = s1 +:+ (s2 +:+ s3).
Proof.
  induction s1 as [|c s1 IH]; [reflexivity | rewrite !append_cons, IH; reflexivity].
Qed.

Lemma rev_app_append (s1 s2 : string) :
  String.rev_app s1 s2 = String.rev s1 +:+ s2.
Proof.
  unfold String.rev. revert s2.
  induction s1 as [|c s1 IH]; intros s2; simpl; [reflexivity|].
  rewrite (IH (String c s2)), (IH (String c "")), append_assoc. reflexivity.
Qed.

Lemma rev_cons (c : ascii) (s : string) :
  String.rev (String c s) = String.rev s +:+ String c "".
Proof. unfold String.rev at 1. simpl. apply rev_app_append. Qed.

Lemma rev_append (s1 s2 : string) :
  String.rev (s1 +:+ s2) = String.rev s2 +:+ String.rev s1.
Proof.
  induction s1 as [|c s1 IH].
  - rewrite append_nil_l, append_nil_r. reflexivity.
  - rewrite append_cons, !rev_cons, IH, append_assoc. reflexivity.
Qed.

Lemma all_chars_append (p : ascii -> bool) (s1 s2 : string) :
  all_chars p (s1 +:+ s2) = all_chars p s1 && all_chars p s2.
Proof.
  induction s1 as [|c s1 IH]; [reflexivity|].
  rewrite ?append_cons. simpl. rewrite IH, andb_assoc. reflexivity.
Qed.

Lemma all_chars_rev (p : ascii -> bool) (s : string) :
  all_chars p (String.rev s) = all_chars p s.
Proof.
  induction s as [|c s IH]; [reflexivity|].
  rewrite rev_cons, all_chars_append, IH. simpl.
  rewrite andb_true_r. apply andb_comm.
Qed.

Lemma all_chars_impl (p q : ascii -> bool) (s : string) :
  (forall c, p c = true -> q c = true) ->
  all_chars p s = true -> all_chars q s = true.
Proof.
  intros Hpq. induction s as [|c s IH]; simpl; [reflexivity|].
  intros H. apply andb_prop in H as [Hc Hs]. rewrite (Hpq c Hc), (IH Hs). reflexivity.
Qed.

Lemma drop_while_all (p : ascii -> bool) (s : string) :
  all_chars p s = true -> drop_while p s = "".
Proof.
  induction s as [|c s IH]; simpl; [reflexivity|].
  intros H. apply andb_prop in H as [-> Hs]. exact (IH Hs).
Qed.

Lemma drop_while_snoc (p : ascii -> bool) (s : string) (c : ascii) :
  drop_while p (s +:+ String c "")
  = if all_chars p s then (if p c then "" else String c "")
    else drop_while p s +:+ String c "".
Proof.
  induction s as [|d s IH]; [reflexivity|].
  rewrite ?append_cons. simpl. destruct (p d); [exact IH | reflexivity].
Qed.

Lemma drop_while_end_empty (p : ascii -> bool) (s : string) :
  drop_while_end p s = "" <-> all_chars p s = true.
Proof.
  induction s as [|c s IH]; simpl; [tauto|].
  destruct (drop_while_end p s) as [|d r].
  - destruct (p c); simpl; [tauto|]. split; discriminate.
  - split; [discriminate|]. intros H. apply andb_prop in H as [_ H].
    apply IH in H. discriminate.
Qed.

(** Dropping from the end is what the double reversal of the code does. *)
Lemma rev_drop_while_rev (p : ascii -> bool) (s : string) :
  String.rev (drop_while p (String.rev s)) = drop_while_end p s.
Proof.
  induction s as [|c s IH]; [reflexivity|].
  rewrite rev_cons, drop_while_snoc, all_chars_rev. simpl.
  destruct (all_chars p s) eqn:Hall.
  - apply drop_while_end_empty in Hall as ->. destruct (p c); reflexivity.
  - rewrite rev_append, IH. change (String.rev (String c "")) with (String c "").
    rewrite append_cons, append_nil_l. simpl.
    destruct (drop_while_end p s) as [|d r] eqn:Hd; [|reflexivity].
    apply drop_while_end_empty in Hd. congruence.
Qed.

Lemma strip_eq (s : string) :
  strip s = drop_while_end isspace (drop_while isspace s).
Proof. apply rev_drop_while_rev. Qed.

Lemma drop_while_end_none (p : ascii -> bool) (s : string) :
  all_chars (fun c => negb (p c)) s = true -> drop_while_end p s = s.
Proof.
  induction s as [|c s IH]; simpl; [reflexivity|].
  intros H. apply andb_prop in H as [Hc Hs]. rewrite (IH Hs).
  apply negb_true_iff in Hc as ->. destruct s; reflexivity.
Qed.

Lemma drop_while_end_append (p : ascii -> bool) (s : string) (c : ascii) (t : string) :
  all_chars (fun c => negb (p c)) (String c t) = true ->
  drop_while_end p (s +:+ String c t) = s +:+ String c t.
Proof.
  intros H. induction s as [|d s IH].
  - apply drop_while_end_none. exact H.
  - rewrite append_cons. cbn [drop_while_end]. rewrite IH. destruct s; reflexivity.
Qed.

Lemma map_chars_append (f : ascii -> ascii) (s1 s2 : string) :
  map_chars f (s1 +:+ s2) = map_chars f s1 +:+ map_chars f s2.
Proof.
  induction s1 as [|c s1 IH]; [reflexivity|].
  rewrite ?append_cons. simpl. rewrite IH. reflexivity.
Qed.

Lemma map_chars_id (f : ascii -> ascii) (p : ascii -> bool) (s : string) :
  (forall c, p c = true -> f c = c) ->
  all_chars p s = true -> map_chars f s = s.
Proof.
  intros Hf. induction s as [|c s IH]; simpl; [reflexivity|].
  intros H. apply andb_prop in H as [Hc Hs]. rewrite (Hf c Hc), (IH Hs). reflexivity.
Qed.

Lemma map_chars_map_chars (f g : ascii -> ascii) (s : string) :
  map_chars f (map_chars g s) = map_chars (fun c => f (g c)) s.
Proof. induction s as [|c s IH]; simpl; [reflexivity | rewrite IH; reflexivity]. Qed.

Lemma map_chars_ext (f g : ascii -> ascii) (s : string) :
  (forall c, f c = g c) -> map_chars f s = map_chars g s.
Proof.
  intros H. induction s as [|c s IH]; simpl; [reflexivity | rewrite H, IH; reflexivity].
Qed.

(** A property of every character, checked on the 256 of them. *)
Ltac each_char c :=
  destruct c as [[] [] [] [] [] [] [] []]; vm_compute; try reflexivity; try discriminate;
  try (intros; discriminate); try (intros; reflexivity).

Lemma upper_lower_char (c : ascii) : upper_char (lower_char c) = upper_char c.
Proof. each_char c. Qed.

Lemma upper_upper_char (c : ascii) : upper_char (upper_char c) = upper_char c.
Proof. each_char c. Qed.

Lemma letter_or_space_upper (c : ascii) :
  letter_or_space c = true -> upper_char c = c.
Proof. each_char c. Qed.

Lemma letter_or_space_isspace (c : ascii) :
  letter_or_space c = true -> isspace c = Ascii.eqb c " ".
Proof. each_char c. Qed.

Lemma letter_or_space_keep (c : ascii) :
  letter_or_space c = true -> char_in "A" "Z" c || isspace c = true.
Proof. each_char c. Qed.

Lemma space_isspace (c : ascii) : Ascii.eqb c " " = true -> isspace c = true.
Proof. each_char c. Qed.

Lemma keep_letter_or_space (c : ascii) :
  char_in "A" "Z" c || isspace c = true -> isspace c = false ->
  letter_or_space c = true /\ Ascii.eqb c " " = false.
Proof. each_char c; intros; split; reflexivity. Qed.

(** ** The shape of a normalized name *)

Lemma keep_letters_spaces_chars (s : string) :
  all_chars (fun c => char_in "A" "Z" c || isspace c) (keep_letters_spaces s) = true.
Proof.
  induction s as [|c s IH]; simpl; [reflexivity|].
  destruct (char_in "A" "Z" c || isspace c) eqn:Hc; simpl; [rewrite Hc|]; exact IH.
Qed.

Lemma collapse_spaces_chars (s : string) :
  forall in_run,
  all_chars (fun c => char_in "A" "Z" c || isspace c) s = true ->
  all_chars letter_or_space (collapse_spaces s in_run) = true.
Proof.
  induction s as [|c s IH]; intros in_run; simpl; [reflexivity|].
  intros H. apply andb_prop in H as [Hc Hs].
  pose proof (keep_letter_or_space c Hc) as Hk.
  destruct (isspace c).
  - destruct in_run; simpl; apply IH; exact Hs.
  - simpl. destruct (Hk eq_refl) as [-> _]. apply IH. exact Hs.
Qed.

Lemma collapse_spaces_spaced (s : string) :
  forall in_run,
  all_chars (fun c => char_in "A" "Z" c || isspace c) s = true ->
  spaced (collapse_spaces s in_run) in_run = true.
Proof.
  induction s as [|c s IH]; intros in_run; simpl; [reflexivity|].
  intros H. apply andb_prop in H as [Hc Hs].
  pose proof (keep_letter_or_space c Hc) as Hk.
  destruct (isspace c).
  - destruct in_run; simpl; apply IH; exact Hs.
  - simpl. destruct (Hk eq_refl) as [_ ->]. apply IH. exact Hs.
Qed.

Lemma all_chars_drop_while (p q : ascii -> bool) (t : string) :
  all_chars q t = true -> all_chars q (drop_while p t) = true.
Proof.
  induction t as [|c t IH]; simpl; [reflexivity|].
  intros H. destruct (p c); [|exact H]. apply andb_prop in H as [_ H]. exact (IH H).
Qed.

Lemma all_chars_drop_while_end (p q : ascii -> bool) (t : string) :
  all_chars q t = true -> all_chars q (drop_while_end p t) = true.
Proof.
  induction t as [|c t IH]; simpl; [reflexivity|].
  intros H. apply andb_prop in H as [Hc Ht]. specialize (IH Ht).
  destruct (drop_while_end p t) as [|d r].
  - destruct (p c); simpl; [reflexivity | rewrite Hc; reflexivity].
  - simpl in *. rewrite Hc. exact IH.
Qed.

Lemma spaced_drop_while (t : string) :
  forall a,
  all_chars letter_or_space t = true -> spaced t a = true ->
  spaced (drop_while isspace t) true = true.
Proof.
  induction t as [|c t IH]; intros a; simpl; [reflexivity|].
  intros H. apply andb_prop in H as [Hc Ht].
  rewrite (letter_or_space_isspace c Hc).
  destruct (Ascii.eqb c " ") eqn:Hsp; simpl.
  - intros H. apply andb_prop in H as [_ H]. exact (IH true Ht H).
  - rewrite Hsp. trivial.
Qed.

Lemma single_spaced_drop_while_end (t : string) :
  forall a,
  all_chars letter_or_space t = true -> spaced t a = true ->
  match drop_while_end isspace t with
  | EmptyString => true
  | r => single_spaced r a
  end = true.
Proof.
  induction t as [|c t IH]; intros a; simpl; [reflexivity|].
  intros H. apply andb_prop in H as [Hc Ht].
  rewrite (letter_or_space_isspace c Hc).
  destruct (Ascii.eqb c " ") eqn:Hsp.
  - intros H. apply andb_prop in H as [Ha H]. specialize (IH true Ht H).
    destruct (drop_while_end isspace t) as [|d r]; [reflexivity|].
    cbn [single_spaced]. rewrite Hsp, Ha. exact IH.
  - intros H. specialize (IH false Ht H).
    destruct (drop_while_end isspace t) as [|d r];
      cbn [single_spaced]; rewrite Hsp; [reflexivity | exact IH].
Qed.

Lemma tidy_strip (t : string) :
  all_chars letter_or_space t = true -> spaced t false = true ->
  tidy (strip t) = true.
Proof.
  intros Hc Hs. rewrite strip_eq. unfold tidy.
  pose proof (all_chars_drop_while isspace _ _ Hc) as Hc'.
  pose proof (spaced_drop_while _ _ Hc Hs) as Hs'.
  pose proof (all_chars_drop_while_end isspace _ _ Hc') as Hc''.
  pose proof (single_spaced_drop_while_end _ true Hc' Hs') as Hs''.
  destruct (drop_while_end isspace (drop_while isspace t)); [reflexivity|].
  rewrite Hc''. exact Hs''.
Qed.

Lemma normalize_name_tidy (name : string) : tidy (normalize_name name) = true.
Proof.
  unfold normalize_name. destruct name as [|c name]; [reflexivity|].
  cbv zeta. apply tidy_strip.
  - apply collapse_spaces_chars, keep_letters_spaces_chars.
  - apply collapse_spaces_spaced, keep_letters_spaces_chars.
Qed.

Lemma single_spaced_spaced (t : string) :
  forall a, single_spaced t a = true -> spaced t a = true.
Proof.
  induction t as [|c t IH]; intros a; simpl; [reflexivity|].
  destruct (Ascii.eqb c " ").
  - intros H. apply andb_prop in H as [-> H]. exact (IH true H).
  - apply IH.
Qed.

Lemma single_spaced_drop_end (t : string) :
  forall a,
  all_chars letter_or_space t = true -> single_spaced t a = true ->
  drop_while_end isspace t = t.
Proof.
  induction t as [|c t IH]; intros a; simpl; [reflexivity|].
  intros H. apply andb_prop in H as [Hc Ht].
  rewrite (letter_or_space_isspace c Hc).
  destruct (Ascii.eqb c " ") eqn:Hsp.
  - intros H. apply andb_prop in H as [_ H]. rewrite (IH true Ht H).
    destruct t; [discriminate H | reflexivity].
  - intros H. rewrite (IH false Ht H). destruct t; reflexivity.
Qed.

Lemma tidy_strip_id (t : string) : tidy t = true -> strip t = t.
Proof.
  unfold tidy. intros H. apply andb_prop in H as [Hc Hs].
  destruct t as [|c t]; [reflexivity|]. rewrite strip_eq.
  assert (Hd : drop_while isspace (String c t) = String c t).
  { simpl in Hc, Hs |- *. apply andb_prop in Hc as [Hc _].
    rewrite (letter_or_space_isspace c Hc).
    destruct (Ascii.eqb c " "); [discriminate Hs | reflexivity]. }
  rewrite Hd. exact (single_spaced_drop_end _ true Hc Hs).
Qed.

Lemma keep_letters_spaces_id (t : string) :
  all_chars letter_or_space t = true -> keep_letters_spaces t = t.
Proof.
  induction t as [|c t IH]; simpl; [reflexivity|].
  intros H. apply andb_prop in H as [Hc Ht].
  rewrite (letter_or_space_keep c Hc), (IH Ht). reflexivity.
Qed.

Lemma collapse_spaces_id (t : string) :
  forall a in_run,
  all_chars letter_or_space t = true -> spaced t a = true ->
  (in_run = true -> a = true) ->
  collapse_spaces t in_run = t.
Proof.
  induction t as [|c t IH]; intros a in_run; simpl; [reflexivity|].
  intros H. apply andb_prop in H as [Hc Ht].
  rewrite (letter_or_space_isspace c Hc).
  destruct (Ascii.eqb c " ") eqn:Hsp.
  - intros H Hrun. apply andb_prop in H as [Ha H]. apply negb_true_iff in Ha.
    destruct in_run; [rewrite Hrun in Ha by reflexivity; discriminate|].
    apply Ascii.eqb_eq in Hsp as ->.
    rewrite (IH true true Ht H); reflexivity.
  - intros H _. rewrite (IH false false Ht H); [reflexivity | discriminate].
Qed.

Lemma tidy_normalize_name (t : string) : tidy t = true -> normalize_name t = t.
Proof.
  intros H. pose proof (tidy_strip_id t H) as Hstrip.
  unfold tidy in H. apply andb_prop in H as [Hc Hs].
  unfold normalize_name. destruct t as [|c t]; [reflexivity|]. cbv zeta.
  unfold upper. rewrite (map_chars_id _ _ _ letter_or_space_upper Hc).
  rewrite Hstrip, (keep_letters_spaces_id _ Hc).
  rewrite (collapse_spaces_id _ true false Hc); [exact Hstrip | | discriminate].
  apply single_spaced_spaced. exact Hs.
Qed.

Lemma length_keep_letters_spaces (s : string) :
  (String.length (keep_letters_spaces s) <= String.length s)%nat.
Proof.
  induction s as [|c s IH]; simpl; [lia|].
  destruct (char_in "A" "Z" c || isspace c); simpl; lia.
Qed.

Lemma length_collapse_spaces (s : string) :
  forall in_run, (String.length (collapse_spaces s in_run) <= String.length s)%nat.
Proof.
  induction s as [|c s IH]; intros in_run; simpl; [lia|].
  destruct (isspace c); [destruct in_run|]; simpl.
  - specialize (IH true). lia.
  - specialize (IH true). lia.
  - specialize (IH false). lia.
Qed.

(** X5. A normalized name is made of words of capital letters A to Z with
    exactly one space between two words: it has no other character, no
    space at either end and no two spaces in a row. It is never longer than
    the name it comes from. *)
Theorem normalize_name_shape (name : string) :
  tidy (normalize_name name) = true
  /\ (String.length (normalize_name name) <= String.length name)%nat.
Proof.
  split; [apply normalize_name_tidy|].
  unfold normalize_name. destruct name as [|c name]; [reflexivity|]. cbv zeta.
  etransitivity; [apply length_strip|].
  etransitivity; [apply length_collapse_spaces|].
  etransitivity; [apply length_keep_letters_spaces|].
  etransitivity; [apply length_strip|].
  unfold upper. rewrite length_map_chars. reflexivity.
Qed.

(** X6. Normalizing a name twice changes nothing more, and the names that
    normalizing leaves as they are, are exactly the tidy ones. *)
Theorem normalize_name_fixed_points (name : string) :
  normalize_name (normalize_name name) = normalize_name name
  /\ (normalize_name name = name <-> tidy name = true).
Proof.
  split.
  - apply tidy_normalize_name, normalize_name_tidy.
  - split; [intros <-; apply normalize_name_tidy | apply tidy_normalize_name].
Qed.

(** ** Names are compared without their case *)

Lemma normalize_name_lower (name : string) :
  normalize_name (lower name) = normalize_name name.
Proof.
  unfold normalize_name. destruct name as [|c name]; [reflexivity|].
  change (lower (String c name)) with (String (lower_char c) (lower name)).
  cbv zeta. f_equal. f_equal. f_equal. f_equal.
  change (String (lower_char c) (lower name)) with (lower (String c name)).
  unfold upper, lower. rewrite map_chars_map_chars.
  apply map_chars_ext, upper_lower_char.
Qed.

Lemma normalize_name_upper (name : string) :
  normalize_name (upper name) = normalize_name name.
Proof.
  unfold normalize_name. destruct name as [|c name]; [reflexivity|].
  change (upper (String c name)) with (String (upper_char c) (upper name)) at 1.
  cbv zeta. f_equal. f_equal. f_equal. f_equal.
  change (String (upper_char c) (upper name)) with (upper (String c name)).
  unfold upper. rewrite map_chars_map_chars.
  apply map_chars_ext, upper_upper_char.
Qed.

Lemma truthy_map_chars (f : ascii -> ascii) (s : string) :
  truthy (Some (map_chars f s)) = truthy (Some s).
Proof. destruct s; reflexivity. Qed.

(** X7. The case of the letters plays no part in a name comparison:
    writing either name in small or in capital letters gives the same
    verdict and the same similarity. *)
Theorem fuzzy_match_names_ignores_case (name1 name2 : string) (threshold : Q) :
  let same n1 n2 :=
    fuzzy_match_names (Some n1) (Some n2) threshold
    = fuzzy_match_names (Some name1) (Some name2) threshold in
  same (lower name1) name2 /\ same (upper name1) name2
  /\ same name1 (lower name2) /\ same name1 (upper name2)
  /\ same (lower name1) (upper name2).
Proof.
  cbv zeta. unfold fuzzy_match_names, lower, upper.
  rewrite !truthy_map_chars. fold (lower name1) (lower name2) (upper name1) (upper name2).
  rewrite !normalize_name_lower, !normalize_name_upper. repeat split.
Qed.

(** ** The date comparison does not depend on the side *)

(** X8. Swapping the two dates of a comparison gives the same verdict, or
    the same exception. *)
Theorem exact_match_dob_symmetric (dob1 dob2 : option string) :
  verdict (exact_match_dob dob1 dob2) = verdict (exact_match_dob dob2 dob1).
Proof.
  unfold exact_match_dob.
  destruct dob1 as [[|c1 d1]|], dob2 as [[|c2 d2]|]; try reflexivity.
  cbn [truthy andb].
  destruct (normalize_date (String c1 d1)) as [n1|e1] eqn:H1,
           (normalize_date (String c2 d2)) as [n2|e2] eqn:H2; simpl; try reflexivity.
  - rewrite (String.eqb_sym n2 n1). destruct (String.eqb n1 n2); reflexivity.
  - apply normalize_date_exn in H1 as ->. apply normalize_date_exn in H2 as ->.
    reflexivity.
Qed.

(** ** Dates written with digits *)

Lemma join3_written (a b c : string) : join3 a b c = written a "-" b "-" c.
Proof. reflexivity. Qed.

Lemma digit_not_space (c : ascii) : is_digit c = true -> negb (isspace c) = true.
Proof. each_char c. Qed.

Lemma digit_not_sep (c : ascii) : is_digit c = true -> is_sep c = false.
Proof. each_char c. Qed.

Lemma digit_not_hyphen (c : ascii) :
  is_digit c = true -> negb (Ascii.eqb c "-") = true.
Proof. each_char c. Qed.

Lemma replace_seps (s : string) :
  replace " " "-" (replace "." "-" (replace "/" "-" s))
  = map_chars (fun c => if is_sep c then "-"%char else c) s.
Proof.
  unfold replace. rewrite !map_chars_map_chars. apply map_chars_ext.
  intros c. each_char c.
Qed.

Lemma split_append (sep : ascii) (a rest : string) :
  all_chars (fun c => negb (Ascii.eqb c sep)) a = true ->
  split sep (a +:+ String sep rest) = a :: split sep rest.
Proof.
  induction a as [|c a IH].
  - intros _. rewrite append_nil_l. simpl. rewrite Ascii.eqb_refl. reflexivity.
  - simpl. intros H. apply andb_prop in H as [Hc Ha]. apply negb_true_iff in Hc.
    rewrite Hc, (IH Ha). reflexivity.
Qed.

Lemma split_plain (sep : ascii) (a : string) :
  all_chars (fun c => negb (Ascii.eqb c sep)) a = true -> split sep a = [a].
Proof.
  induction a as [|c a IH]; simpl; [reflexivity|].
  intros H. apply andb_prop in H as [Hc Ha]. apply negb_true_iff in Hc.
  rewrite Hc, (IH Ha). reflexivity.
Qed.

Lemma isdigit_all (s : string) : isdigit s = true -> all_chars is_digit s = true.
Proof. destruct s; [discriminate | trivial]. Qed.

(** A date of three digit texts and two separators splits into the three. *)
Lemma date_parts_written (a b c : string) (s1 s2 : ascii) :
  isdigit a = true -> isdigit b = true -> isdigit c = true ->
  is_sep s1 = true -> is_sep s2 = true ->
  date_parts (written a s1 b s2 c) = [a; b; c].
Proof.
  intros Ha Hb Hc H1 H2. unfold date_parts, hyphenated, written.
  assert (Hstrip : strip (a +:+ String s1 (b +:+ String s2 c))
                   = a +:+ String s1 (b +:+ String s2 c)).
  { rewrite strip_eq.
    assert (Hd : drop_while isspace (a +:+ String s1 (b +:+ String s2 c))
                 = a +:+ String s1 (b +:+ String s2 c)).
    { destruct a as [|x a]; [discriminate|]. simpl in Ha.
      apply andb_prop in Ha as [Hx _]. apply digit_not_space in Hx.
      apply negb_true_iff in Hx. rewrite ?append_cons. simpl. rewrite Hx.
      reflexivity. }
    rewrite Hd.
    replace (a +:+ String s1 (b +:+ String s2 c))
      with ((a +:+ String s1 (b +:+ String s2 "")) +:+ c)
      by (rewrite !append_assoc, !append_cons, !append_assoc, !append_cons;
          reflexivity).
    destruct c as [|x c]; [discriminate|]. apply drop_while_end_append.
    apply (all_chars_impl is_digit); [apply digit_not_space | exact Hc]. }
  rewrite Hstrip, replace_seps.
  apply isdigit_all in Ha, Hb, Hc.
  assert (Hid : forall t, all_chars is_digit t = true ->
                map_chars (fun c => if is_sep c then "-"%char else c) t = t).
  { intros t. apply map_chars_id. intros x Hx. rewrite (digit_not_sep x Hx).
    reflexivity. }
  rewrite map_chars_append. cbn [map_chars]. rewrite map_chars_append.
  cbn [map_chars]. rewrite H1, H2, !Hid by assumption.
  rewrite split_append
    by (apply (all_chars_impl is_digit); [apply digit_not_hyphen | exact Ha]).
  rewrite split_append
    by (apply (all_chars_impl is_digit); [apply digit_not_hyphen | exact Hb]).
  rewrite split_plain
    by (apply (all_chars_impl is_digit); [apply digit_not_hyphen | exact Hc]).
  reflexivity.
Qed.

Lemma written_nonempty (a b c : string) (s1 s2 : ascii) : written a s1 b s2 c <> "".
Proof. unfold written. destruct a; discriminate. Qed.

(** Day and month filled to two digits. *)
Lemma zfill_two_digits (d : string) :
  isdigit d = true -> (String.length d <= 2)%nat ->
  isdigit (zfill 2 d) = true /\ String.length (zfill 2 d) = 2%nat.
Proof.
  destruct d as [|x [|y [|z d]]]; simpl; try discriminate; try lia.
  - intros H _. rewrite andb_true_r in H.
    destruct (is_digit_plain x H) as (_ & Hm & Hp).
    unfold zfill. simpl. rewrite Hm, Hp. simpl. rewrite H. split; reflexivity.
  - intros H _. split; [exact H | reflexivity].
Qed.

Lemma normalize_date_day_first_aux (d m y : string) (s1 s2 : ascii) :
  isdigit d = true -> isdigit m = true -> isdigit y = true ->
  (String.length d <= 2)%nat -> String.length y = 4%nat ->
  is_sep s1 = true -> is_sep s2 = true ->
  normalize_date (written d s1 m s2 y) = Ok (join3 (zfill 2 d) (zfill 2 m) y).
Proof.
  intros Hd Hm Hy Ld Ly H1 H2.
  rewrite normalize_date_parts by apply written_nonempty.
  rewrite date_parts_written by assumption.
  destruct (Nat.eqb_spec (String.length d) 4) as [E|_]; [lia|].
  rewrite Ly. reflexivity.
Qed.

Lemma normalize_date_year_first_aux (d m y : string) (s1 s2 : ascii) :
  isdigit d = true -> isdigit m = true -> isdigit y = true ->
  String.length y = 4%nat ->
  is_sep s1 = true -> is_sep s2 = true ->
  normalize_date (written y s1 m s2 d) = Ok (join3 (zfill 2 d) (zfill 2 m) y).
Proof.
  intros Hd Hm Hy Ly H1 H2.
  rewrite normalize_date_parts by apply written_nonempty.
  rewrite date_parts_written by assumption.
  rewrite Ly, Hy. reflexivity.
Qed.

(** X9. A date written day first with digits (a day and a month of one or
    two digits, a year of four, any of the separators) is normalized to
    day-month-year with hyphens and two-digit day and month, and that form
    is a fixed point: normalizing it again returns it. *)
Theorem normalize_date_day_first (d m y : string) (s1 s2 : ascii) :
  isdigit d = true -> isdigit m = true -> isdigit y = true ->
  (String.length d <= 2)%nat -> (String.length m <= 2)%nat ->
  String.length y = 4%nat ->
  is_sep s1 = true -> is_sep s2 = true ->
  normalize_date (written d s1 m s2 y) = Ok (join3 (zfill 2 d) (zfill 2 m) y)
  /\ normalize_date (join3 (zfill 2 d) (zfill 2 m) y)
     = Ok (join3 (zfill 2 d) (zfill 2 m) y).
Proof.
  intros Hd Hm Hy Ld Lm Ly H1 H2.
  split; [apply normalize_date_day_first_aux; assumption|].
  destruct (zfill_two_digits d Hd Ld) as [Hd' Ld'].
  destruct (zfill_two_digits m Hm Lm) as [Hm' Lm'].
  rewrite join3_written, normalize_date_day_first_aux;
    try assumption; try reflexivity; try lia.
  unfold zfill at 1 3. rewrite Ld', Lm'. reflexivity.
Qed.

Lemma normalize_date_day_first_witness :
  normalize_date "7/3.1990" = Ok "07-03-1990"
  /\ normalize_date "07-03-1990" = Ok "07-03-1990".
Proof.
  apply (normalize_date_day_first "7" "3" "1990" "/" "."); simpl; try reflexivity; lia.
Defined.

(** X10. The same date written day first and year first is one date for
    [exact_match_dob], whatever separators the two texts use and whether or
    not day and month carry a leading zero on the day-first side. *)
Theorem exact_match_dob_both_orders (d m y : string) (s1 s2 s3 s4 : ascii) :
  isdigit d = true -> isdigit m = true -> isdigit y = true ->
  (String.length d <= 2)%nat -> String.length y = 4%nat ->
  is_sep s1 = true -> is_sep s2 = true -> is_sep s3 = true -> is_sep s4 = true ->
  exact_match_dob (Some (written d s1 m s2 y)) (Some (written y s3 m s4 d))
  = Ok (true, "DOBs match").
Proof.
  intros Hd Hm Hy Ld Ly H1 H2 H3 H4. unfold exact_match_dob.
  assert (T : forall a b c x z, truthy (Some (written a x b z c)) = true).
  { intros a b c x z. pose proof (written_nonempty a b c x z).
    destruct (written a x b z c); [congruence | reflexivity]. }
  rewrite !T. cbn [andb].
  rewrite (normalize_date_day_first_aux d m y s1 s2) by assumption.
  rewrite (normalize_date_year_first_aux d m y s3 s4) by assumption.
  simpl. rewrite String.eqb_refl. reflexivity.
Qed.

Lemma exact_match_dob_both_orders_witness :
  exact_match_dob (Some "1/12/1987") (Some "1987-12-1") = Ok (true, "DOBs match").
Proof.
  apply (exact_match_dob_both_orders "1" "12" "1987" "/" "/" "-" "-");
    simpl; try reflexivity; lia.
Defined.

(** ** The total of the experience: sign, composition and order *)

Lemma from_work_duration_pos (w : gmap string pyval) (months : Z) :
  from_work_duration w = Ok (Some months) -> 0 < months.
Proof.
  unfold from_work_duration. destruct (present_and_true "work_duration" w);
    [|discriminate].
  cbv zeta. intros H.
  apply bind_Ok in H as (m1 & _ & H). apply bind_Ok in H as (m2 & _ & H).
  destruct (Z.ltb_spec 0 m2); congruence.
Qed.

Lemma from_other_fields_nonneg (w : gmap string pyval) (months : Z) :
  from_other_fields w = Ok months -> 0 <= months.
Proof.
  unfold from_other_fields. destruct (present_and_true "duration_months" w).
  - intros H. apply bind_Ok in H as (n & _ & [= <-]). lia.
  - destruct (w !! "start_date") as [sd|]; [|intros [= <-]; lia].
    destruct (w !! "end_date") as [ed|]; [|intros [= <-]; lia].
    intros H. apply bind_Ok in H as ([sy sm] & _ & H).
    apply bind_Ok in H as ([ey em] & _ & [= <-]). lia.
Qed.

Lemma workplace_months_nonneg (w : gmap string pyval) (months : Z) :
  workplace_months w = Ok months -> 0 <= months.
Proof.
  unfold workplace_months, try_body.
  destruct (from_work_duration w) as [[m|]|e] eqn:Hd; simpl.
  - intros [= <-]. apply from_work_duration_pos in Hd. lia.
  - destruct (from_other_fields w) as [m|[]] eqn:Ho; intros [= <-];
      [eapply from_other_fields_nonneg; eassumption | lia | lia].
  - destruct e; intros [= <-]; lia.
Qed.

Lemma duration_loop_nonneg (ws : list (gmap string pyval)) :
  forall total_months total,
  duration_loop ws total_months = Ok total -> total_months <= total.
Proof.
  induction ws as [|w ws IH]; intros t total; simpl.
  - intros [= <-]. lia.
  - intros H. apply bind_Ok in H as (m & Hm & H).
    apply workplace_months_nonneg in Hm. apply IH in H. lia.
Qed.

Lemma calculate_total_Ok (workplaces : list (gmap string pyval)) (total : Z) :
  calculate_total_experience_duration workplaces = Ok total
  <-> duration_loop workplaces 0 = Ok total /\ fits_float total = true.
Proof.
  rewrite calculate_is_loop.
  destruct (duration_loop workplaces 0) as [t|e]; cbn [Py.bind].
  - destruct (fits_float t) eqn:Hf; split.
    + intros [= <-]. auto.
    + intros [[= <-] _]. reflexivity.
    + discriminate.
    + intros [[= <-] H]. congruence.
  - split; [discriminate | intros [H _]; discriminate H].
Qed.

Lemma calculate_total_nonneg_aux (workplaces : list (gmap string pyval)) (total : Z) :
  calculate_total_experience_duration workplaces = Ok total -> 0 <= total.
Proof.
  intros H. apply calculate_total_Ok in H as [H _].
  apply duration_loop_nonneg in H. exact H.
Qed.

(** X11. The total of the experience is never negative, and the only
    exception that leaves [calculate_total_experience_duration] is the
    [OverflowError] of a number too large for a float: a field that cannot
    be read never makes it fail. *)
Theorem calculate_total_nonneg (workplaces : list (gmap string pyval)) :
  match calculate_total_experience_duration workplaces with
  | Ok total_months => 0 <= total_months
  | Raise e => e = OverflowError
  end.
Proof.
  destruct (calculate_total_experience_duration workplaces) as [total|e] eqn:H.
  - eapply calculate_total_nonneg_aux. exact H.
  - eapply calculate_total_exn. exact H.
Qed.

Lemma duration_loop_shift (ws : list (gmap string pyval)) :
  forall total_months,
  duration_loop ws total_months
  = Py.bind (duration_loop ws 0) (fun months => Ok (total_months + months)).
Proof.
  induction ws as [|w ws IH]; intros t; simpl.
  - rewrite Z.add_0_r. reflexivity.
  - destruct (workplace_months w) as [m|e]; simpl; [|reflexivity].
    rewrite (IH (t + m)), (IH (0 + m)).
    destruct (duration_loop ws 0) as [s|e]; simpl; [|reflexivity].
    f_equal. lia.
Qed.

Lemma duration_loop_app (ws1 ws2 : list (gmap string pyval)) :
  forall total_months,
  duration_loop (ws1 ++ ws2) total_months
  = Py.bind (duration_loop ws1 total_months) (duration_loop ws2).
Proof.
  induction ws1 as [|w ws1 IH]; intros t; simpl; [reflexivity|].
  destruct (workplace_months w) as [m|e]; simpl; [apply IH | reflexivity].
Qed.

(** X12. The total of two lists of workplaces put together is the sum of
    their totals, as long as that sum still fits a float; when it does not,
    the call for the joined list raises [OverflowError] at line 452,
    although each list alone has a total. *)
Theorem calculate_total_app (workplaces1 workplaces2 : list (gmap string pyval))
    (total1 total2 : Z) :
  calculate_total_experience_duration workplaces1 = Ok total1 ->
  calculate_total_experience_duration workplaces2 = Ok total2 ->
  calculate_total_experience_duration (workplaces1 ++ workplaces2)
  = if fits_float (total1 + total2) then Ok (total1 + total2)
    else Raise OverflowError.
Proof.
  intros H1 H2. apply calculate_total_Ok in H1 as [H1 _], H2 as [H2 _].
  rewrite calculate_is_loop, duration_loop_app, H1. cbn [Py.bind].
  rewrite duration_loop_shift, H2. reflexivity.
Qed.

Lemma calculate_total_app_witness :
  calculate_total_experience_duration
    ([{[ "work_duration" := PStr "2 years" ]}]
     ++ [{[ "duration_months" := PInt 7 ]}])
  = Ok 31
  /\ calculate_total_experience_duration
       ([{[ "duration_months" := PInt (10 ^ 308) ]}]
        ++ [{[ "duration_months" := PInt (10 ^ 308) ]}])
     = Raise OverflowError.
Proof.
  assert (H1 : calculate_total_experience_duration
                 [{[ "work_duration" := PStr "2 years" ]}] = Ok 24)
    by (vm_compute; reflexivity).
  assert (H2 : calculate_total_experience_duration
                 [{[ "duration_months" := PInt 7 ]}] = Ok 7)
    by (vm_compute; reflexivity).
  assert (H3 : calculate_total_experience_duration
                 [{[ "duration_months" := PInt (10 ^ 308) ]}] = Ok (10 ^ 308))
    by (vm_compute; reflexivity).
  rewrite (calculate_total_app _ _ _ _ H1 H2), (calculate_total_app _ _ _ _ H3 H3).
  split; vm_compute; reflexivity.
Defined.

Lemma duration_loop_Permutation (ws ws' : list (gmap string pyval)) :
  Permutation ws ws' ->
  forall total_months, duration_loop ws total_months = duration_loop ws' total_months.
Proof.
  induction 1 as [|x l l' _ IH|x y l|l l' l'' _ IH1 _ IH2]; intros t; simpl.
  - reflexivity.
  - destruct (workplace_months x); simpl; [apply IH | reflexivity].
  - destruct (workplace_months x) as [mx|ex] eqn:Hx,
             (workplace_months y) as [my|ey] eqn:Hy; simpl.
    + f_equal. lia.
    + reflexivity.
    + reflexivity.
    + apply workplace_months_exn in Hx as ->. apply workplace_months_exn in Hy as ->.
      reflexivity.
  - rewrite IH1. apply IH2.
Qed.

(** X13. The order of the workplaces does not matter: two lists with the
    same entries give the same total, or both overflow. *)
Theorem calculate_total_order_independent (workplaces workplaces' : list (gmap string pyval)) :
  Permutation workplaces workplaces' ->
  calculate_total_experience_duration workplaces
  = calculate_total_experience_duration workplaces'.
Proof.
  intros Hp. rewrite !calculate_is_loop. f_equal.
  apply duration_loop_Permutation. exact Hp.
Qed.

Lemma calculate_total_order_independent_witness :
  calculate_total_experience_duration
    [{[ "work_duration" := PStr "2 years" ]}; {[ "duration_months" := PInt 7 ]}]
  = calculate_total_experience_duration
      [{[ "duration_months" := PInt 7 ]}; {[ "work_duration" := PStr "2 years" ]}].
Proof.
  apply calculate_total_order_independent. apply perm_swap.
Defined.

(** ** The stored years and the months they come from *)

Lemma below_overflow (q : Q) :
  (q < pow2 53)%Q -> Qle_bool (inject_Z overflow_bound) q = false.
Proof.
  intros H. destruct (Qle_bool (inject_Z overflow_bound) q) eqn:Hb; [|reflexivity].
  apply Qle_bool_iff in Hb. exfalso. apply (Qlt_irrefl q).
  eapply Qlt_le_trans; [exact H|]. eapply Qle_trans; [|exact Hb].
  vm_compute. discriminate.
Qed.

(** A twelfth of a total below [2**50], as a float: it is less than
    [2**-7] away from the exact quotient, and it is the exact quotient when
    the total is a multiple of 3. *)
Lemma twelfth_rounded (t : Z) (q : Q) :
  0 < t < 2 ^ 50 -> (q == inject_Z t / 12)%Q ->
  (0 < q < pow2 47)%Q
  /\ (q - (1 # 128) <= nearest_double q <= q + (1 # 128))%Q
  /\ (t mod 3 = 0 -> (nearest_double q == q)%Q).
Proof.
  intros Ht Hq.
  assert (Hq' : (q == t # 12)%Q).
  { rewrite Hq. unfold Qdiv, Qmult, Qinv, Qeq, inject_Z. simpl. lia. }
  assert (Hr : (0 < q < pow2 47)%Q).
  { rewrite Hq'. unfold Qlt. simpl. lia. }
  split; [exact Hr|]. split.
  - pose proof (nearest_double_near q) as Hn.
    assert (Hu : (pow2 (Z.max (ilog2 q - 52) (-1074)) <= pow2 (46 - 52))%Q).
    { apply ulp_small; [|lia]. rewrite Qabs_pos by (apply Qlt_le_weak, Hr). apply Hr. }
    change (pow2 (46 - 52)) with (1 # 64)%Q in Hu.
    set (p := pow2 (Z.max (ilog2 q - 52) (-1074))) in *. lra.
  - intros H3. pose proof (Z.div_mod t 3 ltac:(lia)) as Ed.
    apply (nearest_double_exact q (t / 3) (-2));
      [|change (2 ^ 53) with 9007199254740992;
        change (2 ^ 50) with 1125899906842624 in Ht; lia | lia].
    rewrite Hq'. change (pow2 (-2)) with (1 # 4)%Q.
    unfold Qmult, Qeq, inject_Z. simpl. lia.
Qed.

Lemma experience_years_int_small (total_months : Z) :
  0 < total_months < 2 ^ 50 ->
  experience_years_int total_months = Ok (total_months / 12).
Proof.
  intros Ht. unfold experience_years_int, int_truediv. cbv zeta.
  set (q := (inject_Z total_months / inject_Z 12)%Q).
  destruct (twelfth_rounded total_months q Ht ltac:(reflexivity)) as ([H0 Hq] & Hn & He).
  rewrite (Qabs_pos q) by (apply Qlt_le_weak, H0).
  rewrite below_overflow
    by (eapply Qlt_trans; [exact Hq | vm_compute; reflexivity]).
  cbn [mbind result_bind Py.bind int_of_float]. f_equal. unfold truncate.
  assert (Hpos : Qle_bool 0 (nearest_double q) = true)
    by (apply Qle_bool_iff, nearest_double_nonneg, Qlt_le_weak, H0).
  rewrite Hpos.
  assert (Hq' : (q == total_months # 12)%Q).
  { unfold q, Qdiv, Qmult, Qinv, Qeq, inject_Z. simpl. lia. }
  pose proof (Z.div_mod total_months 12 ltac:(lia)) as Ed.
  pose proof (Z.mod_pos_bound total_months 12 ltac:(lia)) as Hr.
  destruct (Z.eq_dec (total_months mod 12) 0) as [Hz|Hz].
  - assert (H3 : total_months mod 3 = 0).
    { rewrite Ed, Hz, Z.add_0_r. replace (12 * (total_months / 12))
        with (4 * (total_months / 12) * 3) by lia. apply Z.mod_mul. lia. }
    rewrite (He H3), Hq'. unfold Qfloor. rewrite Hz, Z.add_0_r in Ed. reflexivity.
  - apply Qfloor_between.
    assert (Hlo : (inject_Z (total_months / 12) + (1 # 12) <= q)%Q).
    { rewrite Hq'. unfold Qle, Qplus, inject_Z. simpl. lia. }
    assert (Hhi : (q <= inject_Z (total_months / 12) + (11 # 12))%Q).
    { rewrite Hq'. unfold Qle, Qplus, inject_Z. simpl. lia. }
    rewrite inject_Z_plus. change (inject_Z 1) with 1%Q. lra.
Qed.

Lemma fits_float_small (n : Z) : 0 <= n < 2 ^ 64 -> fits_float n = true.
Proof.
  intros H. unfold fits_float. apply Z.ltb_lt. rewrite Z.abs_eq by lia.
  assert (Hb : 2 ^ 64 < overflow_bound) by (vm_compute; reflexivity).
  lia.
Qed.

(** The tenths that one decimal of [total_months / 12] has. *)
Lemma tenths_of_twelfths (t : Z) :
  0 < t ->
  let z := round_half_even ((t # 12) * inject_Z 10) in
  -6 <= 12 * z - 10 * t <= 6
  /\ (t mod 3 <> 0 -> -4 <= 12 * z - 10 * t <= 4)
  /\ 10 * (t / 12) <= z <= 10 * (t / 12) + 9
  /\ (z = 10 * (t / 12) <-> t mod 12 = 0).
Proof.
  intros Ht z. pose proof (round_half_even_near ((t # 12) * inject_Z 10)) as H.
  change (Qnum ((t # 12) * inject_Z 10)) with (t * 10) in H.
  change (Z.pos (Qden ((t # 12) * inject_Z 10))) with 12 in H.
  fold z in H.
  pose proof (Z.div_mod t 12 ltac:(lia)) as E12.
  pose proof (Z.mod_pos_bound t 12 ltac:(lia)) as H12.
  pose proof (Z.div_mod t 3 ltac:(lia)) as E3.
  pose proof (Z.mod_pos_bound t 3 ltac:(lia)) as H3.
  repeat split; try lia.
Qed.

Lemma round_ndigits_1 (x : Q) :
  round_ndigits x 1 = Qred (round_half_even (x * inject_Z 10) # 10).
Proof. reflexivity. Qed.

Lemma experience_years_float_small (total_months : Z) :
  0 < total_months < 2 ^ 50 ->
  experience_years_float total_months
  = Ok (Finite (nearest_double (round_ndigits (total_months # 12) 1))).
Proof.
  intros Ht. unfold experience_years_float.
  rewrite int_div_float_fits, fits_float_small
    by (change (2 ^ 64) with 18446744073709551616;
        change (2 ^ 50) with 1125899906842624 in Ht; lia).
  cbn [mbind result_bind Py.bind float_div].
  set (y := nearest_double (inject_Z total_months)).
  assert (Hy : (y == inject_Z total_months)%Q).
  { apply (nearest_double_exact _ total_months 0); [|
      change (2 ^ 53) with 9007199254740992;
      change (2 ^ 50) with 1125899906842624 in Ht; lia | lia].
    change (pow2 0) with 1%Q. ring. }
  assert (Hq : (y / 12 == inject_Z total_months / 12)%Q) by (rewrite Hy; reflexivity).
  destruct (twelfth_rounded total_months (y / 12) Ht Hq) as ([H0 Hlt] & Hn & He).
  assert (Hq' : (y / 12 == total_months # 12)%Q).
  { rewrite Hq. unfold Qdiv, Qmult, Qinv, Qeq, inject_Z. simpl. lia. }
  unfold to_float at 1.
  rewrite below_overflow by (eapply Qlt_trans; [exact Hlt | vm_compute; reflexivity]).
  set (x := nearest_double (y / 12)) in *.
  destruct (tenths_of_twelfths total_months ltac:(lia)) as (Hz & Hz3 & Hk & _).
  set (z := round_half_even ((total_months # 12) * inject_Z 10)) in *.
  assert (Hx : round_half_even (x * inject_Z 10) = z).
  { destruct (Z.eq_dec (total_months mod 3) 0) as [H3|H3].
    - apply round_half_even_comp. rewrite (He H3), Hq'. reflexivity.
    - specialize (Hz3 H3). apply round_half_even_unique.
      assert (Hlo : (inject_Z z - (1 # 3) <= (total_months # 12) * inject_Z 10)%Q).
      { unfold Qle, Qminus. unfold Qplus, Qopp, Qmult, inject_Z. simpl. lia. }
      assert (Hhi : ((total_months # 12) * inject_Z 10 <= inject_Z z + (1 # 3))%Q).
      { unfold Qle. unfold Qplus, Qmult, inject_Z. simpl. lia. }
      rewrite <- Hq' in Hlo, Hhi. change (inject_Z 10) with 10%Q in *.
      destruct Hn as [Hn1 Hn2]. split; lra. }
  change (round_ndigits (total_months # 12) 1) with (Qred (z # 10)).
  unfold round_float. rewrite round_ndigits_1, Hx.
  unfold to_float. rewrite below_overflow; [reflexivity|].
  rewrite Qred_correct.
  pose proof (Z.div_mod total_months 12 ltac:(lia)) as E12.
  pose proof (Z.mod_pos_bound total_months 12 ltac:(lia)) as H12.
  change (pow2 53) with (inject_Z 9007199254740992).
  change (2 ^ 50) with 1125899906842624 in Ht.
  unfold Qlt, inject_Z. simpl. lia.
Qed.

Lemma floor_of_years_float (total_months : Z) :
  0 < total_months < 2 ^ 50 ->
  Qfloor (nearest_double (round_ndigits (total_months # 12) 1)) = total_months / 12.
Proof.
  intros Ht. rewrite round_ndigits_1.
  destruct (tenths_of_twelfths total_months ltac:(lia)) as (Hz & _ & Hk & Hk0).
  set (z := round_half_even ((total_months # 12) * inject_Z 10)) in *.
  set (r := Qred (z # 10)).
  assert (Hr : (r == z # 10)%Q) by apply Qred_correct.
  pose proof (Z.div_mod total_months 12 ltac:(lia)) as E12.
  pose proof (Z.mod_pos_bound total_months 12 ltac:(lia)) as H12.
  change (2 ^ 50) with 1125899906842624 in Ht.
  set (k := total_months / 12) in *.
  destruct (Z.eq_dec (total_months mod 12) 0) as [H0|H0].
  - apply Hk0 in H0.
    assert (Hrk : (r == inject_Z k)%Q).
    { rewrite Hr, H0. unfold Qeq, inject_Z. simpl. lia. }
    assert (He : (nearest_double r == r)%Q).
    { apply (nearest_double_exact r k 0);
        [rewrite Hrk; change (pow2 0) with 1%Q; ring
        | change (2 ^ 53) with 9007199254740992; lia | lia]. }
    rewrite He, Hrk. apply Qfloor_Z.
  - assert (Hz1 : 10 * k + 1 <= z) by (destruct Hk0 as [Hk0 _]; lia).
    assert (Hlo : (inject_Z k + (1 # 10) <= r)%Q).
    { rewrite Hr. unfold Qle. unfold Qplus, inject_Z. simpl. lia. }
    assert (Hhi : (r <= inject_Z k + (9 # 10))%Q).
    { rewrite Hr. unfold Qle. unfold Qplus, inject_Z. simpl. lia. }
    assert (H47 : (inject_Z k + (9 # 10) < pow2 47)%Q).
    { change (pow2 47) with (inject_Z 140737488355328).
      unfold Qlt. unfold Qplus, inject_Z. simpl. lia. }
    assert (Hpos : (0 <= inject_Z k)%Q).
    { change 0%Q with (inject_Z 0). rewrite <- Zle_Qle. unfold k.
      apply Z.div_pos; lia. }
    pose proof (nearest_double_near r) as Hn.
    assert (Hu : (pow2 (Z.max (ilog2 r - 52) (-1074)) <= pow2 (46 - 52))%Q).
    { apply ulp_small; [|lia]. rewrite Qabs_pos by lra. change (46 + 1) with 47. lra. }
    change (pow2 (46 - 52)) with (1 # 64)%Q in Hu.
    set (p := pow2 (Z.max (ilog2 r - 52) (-1074))) in *.
    apply Qfloor_between. rewrite inject_Z_plus. change (inject_Z 1) with 1%Q. lra.
Qed.

(** X14. What [save_experience] stores for the years follows from the
    total of the months. With a total of zero (or no workplace) the years
    the function had are kept and no float is stored. With a total above
    zero and below [2**50], the integer years are the whole quotient of the
    months by 12, the float years are the float nearest to months/12
    rounded to one decimal (a tie going to the even digit), and the integer
    years are the floor of the float years. *)
Theorem stored_years_from_months (workplaces : list (gmap string pyval))
    (experience_years total_months : Z) :
  calculate_total_experience_duration workplaces = Ok total_months ->
  (total_months = 0 -> stored_years workplaces experience_years = Ok (experience_years, None))
  /\ (0 < total_months < 2 ^ 50 ->
      stored_years workplaces experience_years
      = Ok (total_months / 12,
            Some (Finite (nearest_double (round_ndigits (total_months # 12) 1))))
      /\ Qfloor (nearest_double (round_ndigits (total_months # 12) 1))
         = total_months / 12).
Proof.
  intros H. unfold stored_years. rewrite H. cbn [mbind result_bind Py.bind]. split.
  - intros ->. rewrite andb_false_r. reflexivity.
  - intros Ht. split; [|apply floor_of_years_float; exact Ht].
    assert (Hc : negb (length workplaces =? 0)%nat && (0 <? total_months) = true).
    { destruct workplaces; [injection H as <-; lia|].
      apply andb_true_intro. split; [reflexivity | apply Z.ltb_lt; lia]. }
    rewrite Hc, (experience_years_float_small _ Ht), (experience_years_int_small _ Ht).
    reflexivity.
Qed.

Lemma stored_years_from_months_witness :
  stored_years [{[ "work_duration" := PStr "11 years 11 months" ]}] 0
  = Ok (143 / 12, Some (Finite (nearest_double (round_ndigits (143 # 12) 1))))
  /\ Qfloor (nearest_double (round_ndigits (143 # 12) 1)) = 143 / 12.
Proof.
  apply (stored_years_from_months
           [{[ "work_duration" := PStr "11 years 11 months" ]}] 0 143).
  - vm_compute. reflexivity.
  - split; reflexivity.
Defined.

(** ** What persisting a verification writes *)

Section Rows.

Context {A : Type}.
Variables (key : A -> option Z) (written : A -> bool) (row : A -> DocRow).

Lemma update_all_worker (l : list A) (db : Db) :
  worker_verification_status (update_all key written row l db)
  = worker_verification_status db
  /\ worker_verification_errors (update_all key written row l db)
     = worker_verification_errors db.
Proof.
  induction l as [|x l IH] using rev_ind; [split; reflexivity|].
  rewrite update_all_snoc. destruct (written x); [|exact IH].
  destruct (key x); exact IH.
Qed.

Lemma last_row_snoc (l : list A) (x : A) (d : Z) :
  last_row key written row (l ++ [x]) d
  = if written x && bool_decide (key x = Some d) then Some (row x)
    else last_row key written row l d.
Proof. unfold last_row. rewrite fold_left_app. reflexivity. Qed.

(** The row of a document after the loop: the last row written for it, if
    it is stored and an element names it. *)
Lemma update_all_lookup (l : list A) (db : Db) (d : Z) :
  educational_documents (update_all key written row l db) !! d
  = match last_row key written row l d with
    | Some rw => (fun _ => rw) <$> educational_documents db !! d
    | None => educational_documents db !! d
    end.
Proof.
  induction l as [|x l IH] using rev_ind; [reflexivity|].
  rewrite update_all_snoc, last_row_snoc.
  destruct (written x); [|exact IH]. cbn [andb].
  destruct (bool_decide_reflect (key x = Some d)) as [Hk|Hk].
  - rewrite Hk, update_lookup_eq, IH.
    destruct (last_row key written row l d), (educational_documents db !! d);
      destruct (row x); reflexivity.
  - rewrite update_lookup_ne by exact Hk. exact IH.
Qed.

End Rows.

Lemma Db_eq (db1 db2 : Db) :
  worker_verification_status db1 = worker_verification_status db2 ->
  worker_verification_errors db1 = worker_verification_errors db2 ->
  (forall d, educational_documents db1 !! d = educational_documents db2 !! d) ->
  db1 = db2.
Proof.
  destruct db1, db2; simpl. intros -> -> H. f_equal. apply map_eq. exact H.
Qed.

Lemma persist_verification_worker_aux (r : VerificationResult) (db : Db) :
  worker_verification_status (persist_verification r db)
  = (if String.eqb (status r) "verified" then "verified" else "failed")
  /\ worker_verification_errors (persist_verification r db)
     = (if String.eqb (status r) "verified" then worker_verification_errors db
        else Some (mismatches r)).
Proof.
  destruct (String.eqb_spec (status r) "verified") as [Hv|Hv].
  - rewrite (persist_verified r db Hv).
    destruct (update_all_worker document_id overall_match
                (fun _ => mkDocRow "verified" None) (comparisons r)
                (update_worker_verification db "verified" None)) as [-> ->].
    split; reflexivity.
  - rewrite (persist_not_verified r db Hv).
    destruct (update_all_worker mm_document_id (fun _ => true)
                (fun mm => mkDocRow "failed" (Some (field mm, reason mm)))
                (mismatches r)
                (update_worker_verification db "failed" (Some (mismatches r))))
      as [-> ->].
    split; reflexivity.
Qed.

(** X15. What persisting writes on the worker: the status "verified" for a
    verified result and "failed" for every other one; the errors of the
    worker are replaced by the mismatches of a result that is not verified
    and are left as they were, not cleared, by a verified one. *)
Theorem persist_verification_worker (r : VerificationResult) (db : Db) :
  worker_verification_status (persist_verification r db)
  = (if String.eqb (status r) "verified" then "verified" else "failed")
  /\ worker_verification_errors (persist_verification r db)
     = (if String.eqb (status r) "verified" then worker_verification_errors db
        else Some (mismatches r)).
Proof.
  destruct (String.eqb_spec (status r) "verified") as [Hv|Hv].
  - rewrite (persist_verified r db Hv).
    destruct (update_all_worker document_id overall_match
                (fun _ => mkDocRow "verified" None) (comparisons r)
                (update_worker_verification db "verified" None)) as [-> ->].
    split; reflexivity.
  - rewrite (persist_not_verified r db Hv).
    destruct (update_all_worker mm_document_id (fun _ => true)
                (fun mm => mkDocRow "failed" (Some (field mm, reason mm)))
                (mismatches r)
                (update_worker_verification db "failed" (Some (mismatches r))))
      as [-> ->].
    split; reflexivity.
Qed.

(** X16. Persisting neither creates nor deletes a document row, and it
    leaves the row of every document that the verification did not compare
    as it was. *)
Theorem persist_verification_other_documents (personal_name personal_dob : option string)
    (docs : list EduDoc) (r : VerificationResult) (db : Db) (d : Z) :
  verify_documents personal_name personal_dob docs = Ok r ->
  (is_Some (educational_documents (persist_verification r db) !! d)
   <-> is_Some (educational_documents db !! d))
  /\ (Some d ∉ map id docs ->
      educational_documents (persist_verification r db) !! d
      = educational_documents db !! d).
Proof.
  intros Hr. split.
  - destruct (String.eqb_spec (status r) "verified") as [Hv|Hv].
    + rewrite (persist_verified r db Hv).
      etransitivity; [apply update_all_present | reflexivity].
    + rewrite (persist_not_verified r db Hv).
      etransitivity; [apply update_all_present | reflexivity].
  - intros Hd.
    assert (Hc : forall c, c ∈ comparisons r -> document_id c <> Some d).
    { intros c Hin Hid. apply Hd. rewrite <- Hid.
      unfold verify_documents in Hr.
      destruct personal_name as [[|c1 n1]|], personal_dob as [[|c2 d1]|];
        try (injection Hr as <-; apply elem_of_nil in Hin as []).
      destruct docs as [|doc docs];
        [injection Hr as <-; apply elem_of_nil in Hin as []|].
      destruct (verify_documents_counts_aux (Some (String c1 n1)) (Some (String c2 d1))
                  (doc :: docs) r eq_refl eq_refl ltac:(discriminate) Hr)
        as (_ & _ & _ & <- & _).
      apply list_elem_of_fmap. exists c. split; [reflexivity | exact Hin]. }
    destruct (String.eqb_spec (status r) "verified") as [Hv|Hv].
    + rewrite (persist_verified r db Hv).
      etransitivity; [apply update_all_untouched | reflexivity].
      intros c Hin _. apply Hc. exact Hin.
    + rewrite (persist_not_verified r db Hv).
      etransitivity; [apply update_all_untouched | reflexivity].
      intros mm Hin _. destruct (verify_documents_mismatches _ _ _ _ Hr) as [Hm _].
      destruct (Hm mm Hin) as (c & Hin' & -> & _). apply Hc. exact Hin'.
Qed.

Lemma persist_verification_other_documents_witness :
  (is_Some (educational_documents (persist_verification sample_result sample_db) !! 7)
   <-> is_Some (educational_documents sample_db !! 7))
  /\ (Some 7 ∉ map id sample_docs ->
      educational_documents (persist_verification sample_result sample_db) !! 7
      = educational_documents sample_db !! 7).
Proof.
  apply (persist_verification_other_documents (Some "Babu Khan") (Some "01-12-1987")
           sample_docs).
  vm_compute. reflexivity.
Defined.

(** X17. Persisting the same verification a second time changes nothing. *)
Theorem persist_verification_idempotent (r : VerificationResult) (db : Db) :
  persist_verification r (persist_verification r db) = persist_verification r db.
Proof.
  apply Db_eq.
  - rewrite !(proj1 (persist_verification_worker_aux r _)). reflexivity.
  - rewrite !(proj2 (persist_verification_worker_aux r _)).
    destruct (String.eqb (status r) "verified"); reflexivity.
  - intros d. destruct (String.eqb_spec (status r) "verified") as [Hv|Hv].
    + rewrite !(persist_verified r _ Hv).
      rewrite update_all_lookup.
      cbn [educational_documents update_worker_verification].
      rewrite !update_all_lookup.
      cbn [educational_documents update_worker_verification].
      destruct (last_row _ _ _ _ d), (educational_documents db !! d); reflexivity.
    + rewrite !(persist_not_verified r _ Hv).
      rewrite update_all_lookup.
      cbn [educational_documents update_worker_verification].
      rewrite !update_all_lookup.
      cbn [educational_documents update_worker_verification].
      destruct (last_row _ _ _ _ d), (educational_documents db !! d); reflexivity.
Qed.

(** ** The mobile number of a signup *)

Lemma remove_non_digits_all (s : string) :
  all_chars is_digit (remove_non_digits s) = true.
Proof.
  induction s as [|c s IH]; simpl; [reflexivity|].
  destruct (is_digit c) eqn:Hc; simpl; [rewrite Hc|]; exact IH.
Qed.

Lemma remove_non_digits_append (a b : string) :
  remove_non_digits (a +:+ b) = remove_non_digits a +:+ remove_non_digits b.
Proof.
  induction a as [|c a IH]; [reflexivity|]. rewrite ?append_cons. simpl.
  destruct (is_digit c); rewrite IH; reflexivity.
Qed.

Lemma remove_non_digits_id (s : string) :
  all_chars is_digit s = true -> remove_non_digits s = s.
Proof.
  induction s as [|c s IH]; simpl; [reflexivity|].
  intros H. apply andb_prop in H as [-> Hs]. rewrite (IH Hs). reflexivity.
Qed.

Lemma validate_mobile_number_eq (mobile : string) :
  validate_mobile_number mobile
  = (String.length (remove_non_digits mobile) =? 10)%nat.
Proof.
  unfold validate_mobile_number. destruct mobile as [|c m]; [reflexivity|].
  cbv zeta. destruct (Nat.eqb_spec (String.length (remove_non_digits (String c m))) 10)
    as [H|H]; [|reflexivity].
  unfold isdigit. pose proof (remove_non_digits_all (String c m)) as Hall.
  destruct (remove_non_digits (String c m)); [discriminate H | exact Hall].
Qed.

(** X18. Only the digits of a mobile number count: a character that is not a
    digit, wherever it stands, does not change whether the number is
    accepted. *)
Theorem validate_mobile_number_ignores (a b : string) (c : ascii) :
  is_digit c = false ->
  validate_mobile_number (a +:+ String c b) = validate_mobile_number (a +:+ b).
Proof.
  intros Hc. rewrite !validate_mobile_number_eq, !remove_non_digits_append.
  simpl. rewrite Hc. reflexivity.
Qed.

Lemma validate_mobile_number_ignores_witness :
  validate_mobile_number "98765-43210" = validate_mobile_number "9876543210".
Proof.
  apply (validate_mobile_number_ignores "98765" "43210" "-"). reflexivity.
Defined.

(** X19. A number written with digits only is accepted exactly when it has
    ten of them: a ten-digit number with its country code in front is
    refused. *)
Theorem validate_mobile_number_ten_digits (mobile : string) :
  all_chars is_digit mobile = true ->
  validate_mobile_number mobile = (String.length mobile =? 10)%nat.
Proof.
  intros H. rewrite validate_mobile_number_eq, (remove_non_digits_id mobile H).
  reflexivity.
Qed.

Lemma validate_mobile_number_ten_digits_witness :
  validate_mobile_number "919876543210" = (String.length "919876543210" =? 10)%nat.
Proof. apply validate_mobile_number_ten_digits. reflexivity. Defined.

(** ** Cleaning a name before it is compared *)

Lemma take_drop_while (p : ascii -> bool) (s : string) :
  take_while p s +:+ drop_while p s = s.
Proof.
  induction s as [|c s IH]; [reflexivity|]. simpl.
  destruct (p c); [rewrite ?append_cons, IH|]; reflexivity.
Qed.

Lemma drop_while_end_rest (p : ascii -> bool) (s : string) :
  exists y, s = drop_while_end p s +:+ y /\ all_chars p y = true.
Proof.
  induction s as [|c s (y & Hy & Hall)]; [exists ""; split; reflexivity|].
  cbn [drop_while_end]. destruct (drop_while_end p s) as [|d r] eqn:Hd.
  - rewrite append_nil_l in Hy. subst y. destruct (p c) eqn:Hc.
    + exists (String c s). split; [reflexivity|]. simpl. rewrite Hc. exact Hall.
    + exists s. split; [reflexivity | exact Hall].
  - exists y. split; [|exact Hall]. rewrite append_cons, <- Hy. reflexivity.
Qed.

(** What [s.strip(chars)] removes: a text before and a text after the
    result, both made of the characters of the set. *)
Lemma strip_chars_ends (p : ascii -> bool) (s : string) :
  exists x y,
    s = x +:+ strip_chars p s +:+ y
    /\ all_chars p x = true /\ all_chars p y = true.
Proof.
  unfold strip_chars. rewrite rev_drop_while_rev.
  destruct (drop_while_end_rest p (drop_while p s)) as (y & Hy & Hally).
  exists (take_while p s), y. split; [|split; [apply take_while_all | exact Hally]].
  rewrite <- Hy. symmetry. apply take_drop_while.
Qed.

Lemma strip_ends (s : string) :
  exists x y,
    s = x +:+ strip s +:+ y
    /\ all_chars isspace x = true /\ all_chars isspace y = true.
Proof. exact (strip_chars_ends isspace s). Qed.

Lemma isspace_junk (c : ascii) :
  isspace c = true -> isspace c || quote_char c = true.
Proof. intros ->. reflexivity. Qed.

Lemma quote_char_junk (c : ascii) :
  quote_char c = true -> isspace c || quote_char c = true.
Proof. intros ->. apply orb_true_r. Qed.

(** What [_normalize_name] removes from a name. *)
Lemma _normalize_name_ends (name : string) :
  exists x y,
    name = x +:+ _normalize_name name +:+ y
    /\ all_chars (fun c => isspace c || quote_char c) x = true
    /\ all_chars (fun c => isspace c || quote_char c) y = true.
Proof.
  unfold _normalize_name. destruct name as [|c name];
    [exists "", ""; repeat split|].
  cbv zeta. set (s := String c name).
  destruct (strip_ends s) as (x1 & y1 & H1 & Hx1 & Hy1).
  destruct (strip_chars_ends quote_char (strip s)) as (x2 & y2 & H2 & Hx2 & Hy2).
  destruct (strip_ends (strip_chars quote_char (strip s)))
    as (x3 & y3 & H3 & Hx3 & Hy3).
  exists (x1 +:+ x2 +:+ x3), (y3 +:+ y2 +:+ y1).
  split; [|split].
  - rewrite H1 at 1. rewrite H2 at 1. rewrite H3 at 1.
    rewrite !append_assoc. reflexivity.
  - rewrite !all_chars_append.
    rewrite (all_chars_impl _ _ _ isspace_junk Hx1),
            (all_chars_impl _ _ _ quote_char_junk Hx2),
            (all_chars_impl _ _ _ isspace_junk Hx3). reflexivity.
  - rewrite !all_chars_append.
    rewrite (all_chars_impl _ _ _ isspace_junk Hy1),
            (all_chars_impl _ _ _ quote_char_junk Hy2),
            (all_chars_impl _ _ _ isspace_junk Hy3). reflexivity.
Qed.

Lemma keep_letters_spaces_append (a b : string) :
  keep_letters_spaces (a +:+ b) = keep_letters_spaces a +:+ keep_letters_spaces b.
Proof.
  induction a as [|c a IH]; [reflexivity|]. rewrite ?append_cons. simpl.
  destruct (char_in "A" "Z" c || isspace c); rewrite IH; reflexivity.
Qed.

Lemma junk_char (c : ascii) :
  isspace c || quote_char c = true ->
  upper_char c = c /\ char_in "A" "Z" c = false.
Proof. each_char c; intros; split; reflexivity. Qed.

(** Of white space and quotes the filter keeps white space only. *)
Lemma keep_upper_junk (x : string) :
  all_chars (fun c => isspace c || quote_char c) x = true ->
  all_chars isspace (keep_letters_spaces (upper x)) = true.
Proof.
  induction x as [|c x IH]; simpl; [reflexivity|].
  intros H. apply andb_prop in H as [Hc Hx].
  destruct (junk_char c Hc) as [-> ->]. simpl.
  destruct (isspace c) eqn:Hsp; simpl; [rewrite Hsp|]; exact (IH Hx).
Qed.

Lemma collapse_spaces_lstrip (v : string) :
  drop_while isspace (collapse_spaces v false)
  = drop_while isspace (collapse_spaces v true).
Proof.
  destruct v as [|c v]; [reflexivity|]. simpl.
  destruct (isspace c); reflexivity.
Qed.

Lemma collapse_spaces_leading (w v : string) :
  forall in_run,
  all_chars isspace w = true ->
  drop_while isspace (collapse_spaces (w +:+ v) in_run)
  = drop_while isspace (collapse_spaces v true).
Proof.
  induction w as [|c w IH]; intros in_run.
  - intros _. rewrite append_nil_l. destruct in_run;
      [reflexivity | apply collapse_spaces_lstrip].
  - simpl. intros H. apply andb_prop in H as [Hc Hw].
    rewrite ?append_cons. simpl. rewrite Hc.
    destruct in_run; simpl; apply IH; exact Hw.
Qed.

Lemma collapse_spaces_all_space (w : string) :
  forall in_run,
  all_chars isspace w = true ->
  all_chars isspace (collapse_spaces w in_run) = true.
Proof.
  induction w as [|c w IH]; intros in_run; simpl; [reflexivity|].
  intros H. apply andb_prop in H as [Hc Hw]. rewrite Hc.
  destruct in_run; simpl; apply IH; exact Hw.
Qed.

Lemma collapse_spaces_trailing (v w : string) :
  forall in_run,
  all_chars isspace w = true ->
  drop_while_end isspace (collapse_spaces (v +:+ w) in_run)
  = drop_while_end isspace (collapse_spaces v in_run).
Proof.
  induction v as [|c v IH]; intros in_run Hw.
  - rewrite append_nil_l. simpl. apply drop_while_end_empty.
    apply collapse_spaces_all_space. exact Hw.
  - rewrite ?append_cons. simpl. destruct (isspace c); [destruct in_run|].
    + apply IH. exact Hw.
    + cbn [drop_while_end]. rewrite (IH true Hw). reflexivity.
    + cbn [drop_while_end]. rewrite (IH false Hw). reflexivity.
Qed.

Lemma drop_while_drop_while_end (p : ascii -> bool) (s : string) :
  drop_while p (drop_while_end p s) = drop_while_end p (drop_while p s).
Proof.
  induction s as [|c s IH]; [reflexivity|]. cbn [drop_while].
  destruct (p c) eqn:Hc.
  - rewrite <- IH. cbn [drop_while_end].
    destruct (drop_while_end p s) as [|d r]; rewrite ?Hc; [reflexivity|].
    cbn [drop_while]. rewrite Hc. reflexivity.
  - cbn [drop_while_end].
    destruct (drop_while_end p s) as [|d r]; rewrite ?Hc; cbn [drop_while];
      rewrite Hc; reflexivity.
Qed.

(** White space before and after a text does not show once its runs are
    collapsed and the ends are stripped. *)
Lemma strip_collapse_spaces_ends (w1 v w2 : string) :
  all_chars isspace w1 = true -> all_chars isspace w2 = true ->
  strip (collapse_spaces (w1 +:+ v +:+ w2) false)
  = strip (collapse_spaces v false).
Proof.
  intros H1 H2. rewrite !strip_eq.
  rewrite (collapse_spaces_leading w1 (v +:+ w2) false H1).
  rewrite <- collapse_spaces_lstrip, <- !drop_while_drop_while_end.
  rewrite (collapse_spaces_trailing v w2 false H2). reflexivity.
Qed.

Lemma keep_letters_spaces_space (w : string) :
  all_chars isspace w = true -> keep_letters_spaces w = w.
Proof.
  induction w as [|c w IH]; simpl; [reflexivity|].
  intros H. apply andb_prop in H as [Hc Hw].
  rewrite Hc, orb_true_r, (IH Hw). reflexivity.
Qed.

(** The first [strip] of [normalize_name] could be left out. *)
Lemma normalize_name_eq (name : string) :
  normalize_name name
  = strip (collapse_spaces (keep_letters_spaces (upper name)) false).
Proof.
  unfold normalize_name. destruct name as [|c name]; [reflexivity|]. cbv zeta.
  destruct (strip_ends (upper (String c name))) as (x & y & H & Hx & Hy).
  rewrite H at 2. rewrite !keep_letters_spaces_append.
  rewrite (keep_letters_spaces_space x Hx), (keep_letters_spaces_space y Hy).
  rewrite strip_collapse_spaces_ends by assumption. reflexivity.
Qed.

(** X20. Cleaning an extracted name with [_normalize_name] before it is
    stored does not change the name the verifier compares: the normalized
    form of the cleaned name is the normalized form of the name. *)
Theorem normalize_name_after_cleaning (name : string) :
  normalize_name (_normalize_name name) = normalize_name name.
Proof.
  destruct (_normalize_name_ends name) as (x & y & H & Hx & Hy).
  rewrite (normalize_name_eq name). rewrite H at 2.
  unfold upper. rewrite !map_chars_append. fold (upper x) (upper y).
  rewrite !keep_letters_spaces_append.
  rewrite strip_collapse_spaces_ends by (apply keep_upper_junk; assumption).
  rewrite normalize_name_eq. reflexivity.
Qed.

(** ** A date normalized when it is extracted *)

Lemma normalize_date_format_eq (date_str : string) :
  normalize_date_format date_str = normalize_date date_str.
Proof. reflexivity. Qed.

(** X21. A date of birth that the extractor has normalized is read by the
    verifier as the extractor stored it: for a date written with digits,
    day first or year first with a year of four digits, the second
    normalization returns the stored text. *)
Theorem normalize_date_of_stored (d m y : string) (s1 s2 : ascii) (stored : string) :
  isdigit d = true -> isdigit m = true -> isdigit y = true ->
  (String.length d <= 2)%nat -> (String.length m <= 2)%nat ->
  String.length y = 4%nat ->
  is_sep s1 = true -> is_sep s2 = true ->
  normalize_date_format (written d s1 m s2 y) = Ok stored
  \/ normalize_date_format (written y s1 m s2 d) = Ok stored ->
  normalize_date stored = Ok stored.
Proof.
  intros Hd Hm Hy Ld Lm Ly H1 H2 Hst.
  assert (Hs : stored = join3 (zfill 2 d) (zfill 2 m) y).
  { rewrite !normalize_date_format_eq in Hst.
    rewrite normalize_date_day_first_aux, normalize_date_year_first_aux in Hst
      by assumption.
    destruct Hst as [Hst|Hst]; injection Hst as <-; reflexivity. }
  subst stored.
  destruct (zfill_two_digits d Hd Ld) as [Hd' Ld'].
  destruct (zfill_two_digits m Hm Lm) as [Hm' Lm'].
  rewrite join3_written, normalize_date_day_first_aux;
    try assumption; try reflexivity; try lia.
  unfold zfill at 1 3. rewrite Ld', Lm'. reflexivity.
Qed.

Lemma normalize_date_of_stored_witness :
  normalize_date "01-12-1987" = Ok "01-12-1987".
Proof.
  apply (normalize_date_of_stored "1" "12" "1987" "." "." "01-12-1987");
    try reflexivity; simpl; try lia.
  right. reflexivity.
Defined.

(** ** The error stored on a document that failed *)

Section LastRow.

Context {A : Type}.
Variables (key : A -> option Z) (written : A -> bool) (row : A -> DocRow).

Lemma last_row_app (l1 l2 : list A) (d : Z) :
  last_row key written row (l1 ++ l2) d
  = match last_row key written row l2 d with
    | Some rw => Some rw
    | None => last_row key written row l1 d
    end.
Proof.
  induction l2 as [|x l2 IH] using rev_ind; [rewrite app_nil_r; reflexivity|].
  rewrite app_assoc, !last_row_snoc, IH.
  destruct (written x && bool_decide (key x = Some d)); reflexivity.
Qed.

Lemma last_row_none (l : list A) (d : Z) :
  (forall x, x ∈ l -> key x <> Some d) -> last_row key written row l d = None.
Proof.
  induction l as [|x l IH] using rev_ind; intros H; [reflexivity|].
  rewrite last_row_snoc, IH.
  - rewrite bool_decide_eq_false_2, andb_false_r; [reflexivity|].
    apply H. apply elem_of_app. right. left.
  - intros y Hy. apply H. apply elem_of_app. left. exact Hy.
Qed.

End LastRow.

(** The mismatches of one document end with the one of the date of birth
    when the dates differ, and are the one of the name otherwise. *)
Lemma verify_one_last (n d : string) (doc : EduDoc) (cs : list Comparison)
    (ms : list Mismatch) (vc : Z) (dm : bool) (msg : string) (d0 : Z) :
  verify_one n d ([], [], 0) doc = Ok (cs, ms, vc) ->
  exact_match_dob (Some d) (extracted_dob doc) = Ok (dm, msg) ->
  (fuzzy_match_names (Some n) (extracted_name doc) default_threshold).1 && dm = false ->
  id doc = Some d0 ->
  last_row mm_document_id (fun _ => true)
    (fun mm => mkDocRow "failed" (Some (field mm, reason mm))) ms d0
  = Some (mkDocRow "failed"
            (Some (if dm
                   then ("name",
                         NameBelowThreshold
                           (fuzzy_match_names (Some n) (extracted_name doc)
                              default_threshold).2)
                   else ("dob", DobMessage msg)))).
Proof.
  unfold verify_one. intros H Hdob Hov Hid. rewrite Hdob in H.
  destruct (fuzzy_match_names (Some n) (extracted_name doc) default_threshold)
    as [nm sim].
  simpl in H, Hov |- *. injection H as <- <- <-.
  unfold last_row. destruct nm, dm; try discriminate Hov; simpl;
    rewrite Hid, ?bool_decide_eq_true_2 by reflexivity; reflexivity.
Qed.

Lemma verify_loop_cons (n d : string) (doc : EduDoc) (docs : list EduDoc)
    (cs : list Comparison) (ms : list Mismatch) (vc : Z) :
  verify_loop n d (doc :: docs) ([], [], 0) = Ok (cs, ms, vc) ->
  exists cs1 ms1 vc1 cs2 ms2 vc2,
    verify_one n d ([], [], 0) doc = Ok (cs1, ms1, vc1)
    /\ verify_loop n d docs ([], [], 0) = Ok (cs2, ms2, vc2)
    /\ cs = cs1 ++ cs2 /\ ms = ms1 ++ ms2.
Proof.
  cbn [verify_loop]. intros H.
  apply bind_Ok in H as ([[cs1 ms1] vc1] & H1 & H2).
  rewrite verify_loop_shift in H2.
  apply bind_Ok in H2 as ([[cs2 ms2] vc2] & H2 & [= <- <- <-]).
  exists cs1, ms1, vc1, cs2, ms2, vc2. auto.
Qed.

Lemma verify_loop_ids (n d : string) (docs : list EduDoc) (cs : list Comparison)
    (ms : list Mismatch) (vc : Z) :
  verify_loop n d docs ([], [], 0) = Ok (cs, ms, vc) ->
  forall mm, mm ∈ ms -> mm_document_id mm ∈ map id docs.
Proof.
  intros H mm Hmm.
  destruct (verify_loop_counts _ _ _ _ _ _ _ _ _ H)
    as (newc & newm & Hc & _ & _ & Hids & _).
  destruct (verify_loop_mismatches _ _ _ _ _ _ _ _ _ H)
    as (newc' & newm' & Hc' & Hm' & Hin & _).
  simpl in Hc, Hc', Hm'. subst cs newc' ms.
  destruct (Hin mm Hmm) as (c & Hc & -> & _). rewrite <- Hids.
  apply list_elem_of_fmap. exists c. split; [reflexivity | exact Hc].
Qed.

Lemma verify_loop_last (n d : string) (doc : EduDoc) (dm : bool) (msg : string)
    (d0 : Z) (docs : list EduDoc) :
  forall cs ms vc,
  verify_loop n d docs ([], [], 0) = Ok (cs, ms, vc) ->
  NoDup (map id docs) -> doc ∈ docs -> id doc = Some d0 ->
  exact_match_dob (Some d) (extracted_dob doc) = Ok (dm, msg) ->
  (fuzzy_match_names (Some n) (extracted_name doc) default_threshold).1 && dm = false ->
  last_row mm_document_id (fun _ => true)
    (fun mm => mkDocRow "failed" (Some (field mm, reason mm))) ms d0
  = Some (mkDocRow "failed"
            (Some (if dm
                   then ("name",
                         NameBelowThreshold
                           (fuzzy_match_names (Some n) (extracted_name doc)
                              default_threshold).2)
                   else ("dob", DobMessage msg)))).
Proof.
  induction docs as [|doc' docs IH]; intros cs ms vc H Hnd Hin Hid Hdob Hov.
  - apply elem_of_nil in Hin as [].
  - apply verify_loop_cons in H
      as (cs1 & ms1 & vc1 & cs2 & ms2 & vc2 & H1 & H2 & -> & ->).
    cbn [map] in Hnd. apply NoDup_cons in Hnd as [Hnotin Hnd].
    rewrite last_row_app. apply elem_of_cons in Hin as [<-|Hin].
    + rewrite last_row_none.
      * eapply verify_one_last; eassumption.
      * intros mm Hmm Hk. apply Hnotin. rewrite Hid, <- Hk.
        eapply verify_loop_ids; eassumption.
    + rewrite (IH _ _ _ H2 Hnd Hin Hid Hdob Hov). reflexivity.
Qed.

(** X22. The reason stored on a document that failed. When the documents
    have distinct ids, a stored document that does not match the personal
    data ends with the status "failed" and one error: the date-of-birth
    message when the dates differ, also when the name differs too, and the
    name reason only when the dates are equal. *)
Theorem persist_verification_stored_error
    (personal_name personal_dob : string) (docs : list EduDoc)
    (r : VerificationResult) (db : Db) (doc : EduDoc) (d : Z)
    (dm : bool) (msg : string) :
  verify_documents (Some personal_name) (Some personal_dob) docs = Ok r ->
  personal_name <> "" -> personal_dob <> "" ->
  NoDup (map id docs) -> doc ∈ docs -> id doc = Some d ->
  is_Some (educational_documents db !! d) ->
  exact_match_dob (Some personal_dob) (extracted_dob doc) = Ok (dm, msg) ->
  (fuzzy_match_names (Some personal_name) (extracted_name doc)
     default_threshold).1 && dm = false ->
  educational_documents (persist_verification r db) !! d
  = Some (mkDocRow "failed"
            (Some (if dm
                   then ("name",
                         NameBelowThreshold
                           (fuzzy_match_names (Some personal_name)
                              (extracted_name doc) default_threshold).2)
                   else ("dob", DobMessage msg)))).
Proof.
  intros Hr Hn Hd Hnd Hin Hid [rw Hrow] Hdob Hov.
  destruct personal_name as [|c1 n1]; [congruence|].
  destruct personal_dob as [|c2 d1]; [congruence|].
  assert (Hdocs : docs <> []) by (intros ->; apply elem_of_nil in Hin as []).
  destruct (verify_documents_counts_aux (Some (String c1 n1)) (Some (String c2 d1))
              docs r eq_refl eq_refl Hdocs Hr)
    as (Hvc & Htc & _ & _ & _ & Hf & Hst).
  pose proof (count_matches_bounds (comparisons r)) as Hb.
  destruct docs as [|doc' docs]; [congruence|].
  rewrite verify_documents_loop in Hr.
  apply bind_Ok in Hr as ([[cs ms] vc] & Hl & Hr). injection Hr as <-.
  cbn [verified_count total_count comparisons mismatches status] in *.
  pose proof (verify_loop_last _ _ _ _ _ _ _ _ _ _ Hl Hnd Hin Hid Hdob Hov) as Hlast.
  assert (Hms : ms <> []) by (intros ->; discriminate Hlast).
  assert (Hnv : (if vc =? Z.of_nat (length (doc' :: docs))
                 then "verified" else "failed") <> "verified").
  { destruct (Z.eqb_spec vc (Z.of_nat (length (doc' :: docs)))) as [E|E];
      [|discriminate].
    exfalso. unfold failures in Hf. destruct ms; [congruence|].
    cbn [length] in Hf, E. lia. }
  rewrite persist_not_verified by exact Hnv.
  cbn [mismatches]. rewrite update_all_lookup, Hlast.
  cbn [educational_documents update_worker_verification]. rewrite Hrow.
  reflexivity.
Qed.

Lemma persist_verification_stored_error_witness :
  educational_documents (persist_verification sample_result sample_db) !! 2
  = Some (mkDocRow "failed"
            (Some ("dob", DobMessage "DOB mismatch: 01-12-1987 vs 01-12-1988"))).
Proof.
  apply (persist_verification_stored_error "Babu Khan" "01-12-1987" sample_docs
           sample_result sample_db
           (mkEduDoc (Some 2) (Some "Class 12") (Some "Babu Khan") (Some "01-12-1988"))
           2 false "DOB mismatch: 01-12-1987 vs 01-12-1988");
    try (vm_compute; reflexivity); try discriminate.
  - apply (bool_decide_unpack _). vm_compute. exact I.
  - right. left.
  - eexists. reflexivity.
Defined.

(** ** Dates of the form YYYY-MM *)

Lemma int_digits_all (s : string) :
  forall acc prev,
  all_chars is_digit s = true -> (s <> "" \/ prev = true) ->
  int_digits s acc prev = Some (digits_value s acc).
Proof.
  induction s as [|c s IH]; intros acc prev Hall Hne; simpl.
  - destruct Hne as [Hne| ->]; [congruence | reflexivity].
  - simpl in Hall. apply andb_prop in Hall as [Hc Hs]. rewrite Hc.
    apply IH; [exact Hs | right; reflexivity].
Qed.

Lemma digit_not_int_space (c : ascii) :
  is_digit c = true -> negb (int_space c) = true.
Proof. each_char c. Qed.

(** [int] of a text of digits is the number the digits write. *)
Lemma int_of_str_digits (s : string) :
  isdigit s = true -> int_of_str s = Ok (digits_value s 0).
Proof.
  intros H. destruct s as [|c s]; [discriminate|]. unfold isdigit in H.
  unfold int_of_str. rewrite rev_drop_while_rev.
  assert (Hc : is_digit c = true) by (simpl in H; apply andb_prop in H as [H _]; exact H).
  destruct (is_digit_plain c Hc) as (Hsp & Hm & Hp).
  assert (Hd : drop_while int_space (String c s) = String c s)
    by (simpl; rewrite Hsp; reflexivity).
  rewrite Hd, drop_while_end_none
    by (apply (all_chars_impl is_digit); [apply digit_not_int_space | exact H]).
  rewrite Hm, Hp. rewrite int_digits_all; [reflexivity | exact H | left; discriminate].
Qed.

(** One case of [parse_date] on a year of four digits and a month. *)
Ltac parse_year_month Ha Hb Hc Hd Hyear Hpos :=
  match goal with
  | |- parse_date (?s +:+ String "-" (month_text ?k)) = _ =>
      let t := eval vm_compute in (month_text k) in
      change (month_text k) with t
  end;
  rewrite !append_cons, append_nil_l;
  unfold parse_date; cbn [String.length Nat.eqb];
  unfold strptime, re_match, match_here, format_ym, four_digits, directive_m;
  cbn [rmatch]; rewrite Ha, Hb, Hc, Hd; cbn;
  repeat match goal with
         | |- context [char_in ?x ?y ?z] =>
             let v := eval vm_compute in (char_in x y z) in
             change (char_in x y z) with v
         end;
  cbn; unfold group_int, group; cbn [lookup_group snd fst Nat.eqb Nat.sub];
  cbn [String.substring]; rewrite Hyear;
  match goal with
  | |- context [int_of_str ?t] =>
      let v := eval vm_compute in (int_of_str t) in
      change (int_of_str t) with v
  end;
  cbn [mbind result_bind Py.bind];
  rewrite (proj2 (Z.leb_le 1 _) Hpos); unfold days_in_month; cbn;
  try reflexivity; match goal with
                   | |- context [is_leap ?y] => destruct (is_leap y); reflexivity
                   end.

Lemma parse_date_year_month (year : string) (month : Z) :
  isdigit year = true -> String.length year = 4%nat ->
  1 <= digits_value year 0 -> 1 <= month <= 12 ->
  parse_date (year_month year month) = Ok (digits_value year 0, month).
Proof.
  intros Hy Hlen Hpos Hm.
  destruct year as [|a [|b [|c [|d [|e rest]]]]]; try discriminate Hlen.
  simpl in Hy. rewrite andb_true_r in Hy.
  apply andb_prop in Hy as [Ha Hy]. apply andb_prop in Hy as [Hb Hy].
  apply andb_prop in Hy as [Hc Hd].
  assert (Hyear : int_of_str (String a (String b (String c (String d ""))))
                  = Ok (digits_value (String a (String b (String c (String d "")))) 0)).
  { apply int_of_str_digits. simpl. rewrite Ha, Hb, Hc, Hd. reflexivity. }
  remember (digits_value (String a (String b (String c (String d "")))) 0) as y
    eqn:Ey.
  clear Ey Hlen.
  assert (Hcases : month = 1 \/ month = 2 \/ month = 3 \/ month = 4 \/ month = 5
                   \/ month = 6 \/ month = 7 \/ month = 8 \/ month = 9
                   \/ month = 10 \/ month = 11 \/ month = 12) by lia.
  unfold year_month. clear Hm.
  repeat destruct Hcases as [->|Hcases]; try subst month;
    parse_year_month Ha Hb Hc Hd Hyear Hpos.
Qed.

Lemma month_text_digits (month : Z) :
  1 <= month <= 12 -> isdigit (month_text month) = true.
Proof.
  intros Hm.
  assert (Hcases : month = 1 \/ month = 2 \/ month = 3 \/ month = 4 \/ month = 5
                   \/ month = 6 \/ month = 7 \/ month = 8 \/ month = 9
                   \/ month = 10 \/ month = 11 \/ month = 12) by lia.
  repeat destruct Hcases as [->|Hcases]; try subst month; reflexivity.
Qed.

Lemma strip_year_month (year : string) (month : Z) :
  isdigit year = true -> 1 <= month <= 12 ->
  strip (year_month year month) = year_month year month.
Proof.
  intros Hy Hm. pose proof (month_text_digits month Hm) as Hmt.
  unfold year_month. destruct (month_text month) as [|c t]; [discriminate|].
  unfold isdigit in Hmt. rewrite strip_eq.
  assert (Hd : drop_while isspace (year +:+ String "-" (String c t))
               = year +:+ String "-" (String c t)).
  { destruct year as [|a year]; [discriminate|]. simpl in Hy.
    apply andb_prop in Hy as [Ha _]. apply digit_not_space in Ha.
    apply negb_true_iff in Ha. rewrite append_cons. simpl. rewrite Ha. reflexivity. }
  rewrite Hd.
  replace (year +:+ String "-" (String c t))
    with ((year +:+ String "-" "") +:+ String c t)
    by (rewrite append_assoc, append_cons, append_nil_l; reflexivity).
  apply drop_while_end_append.
  apply (all_chars_impl is_digit); [apply digit_not_space | exact Hmt].
Qed.

Lemma four_digits_value (year : string) :
  isdigit year = true -> String.length year = 4%nat ->
  0 <= digits_value year 0 < 10000.
Proof.
  intros Hd Hlen. destruct year as [|c year]; [discriminate|]. unfold isdigit in Hd.
  pose proof (digits_value_range _ 0 Hd ltac:(lia)) as H.
  rewrite Hlen in H. exact H.
Qed.

(** X23. An entry that gives only its dates, both as a year of four digits
    and a month of two, adds the months from the start to the end, and
    nothing when the end is before the start. *)
Theorem workplace_months_between_dates (workplace : gmap string pyval)
    (start_year end_year : string) (start_month end_month : Z) :
  present_and_true "work_duration" workplace = false ->
  present_and_true "duration_months" workplace = false ->
  workplace !! "start_date" = Some (PStr (year_month start_year start_month)) ->
  workplace !! "end_date" = Some (PStr (year_month end_year end_month)) ->
  isdigit start_year = true -> String.length start_year = 4%nat ->
  1 <= digits_value start_year 0 -> 1 <= start_month <= 12 ->
  isdigit end_year = true -> String.length end_year = 4%nat ->
  1 <= digits_value end_year 0 -> 1 <= end_month <= 12 ->
  calculate_total_experience_duration [workplace]
  = Ok (Z.max 0 ((digits_value end_year 0 - digits_value start_year 0) * 12
                 + (end_month - start_month))).
Proof.
  intros Hwd Hdm Hs He Hy1 Hl1 Hp1 Hm1 Hy2 Hl2 Hp2 Hm2.
  rewrite calculate_is_loop.
  unfold duration_loop, workplace_months, try_body, from_work_duration,
    from_other_fields.
  rewrite Hwd, Hdm, Hs, He. cbn [mbind result_bind Py.bind str].
  rewrite !strip_year_month by assumption.
  rewrite !parse_date_year_month by assumption.
  cbn [mbind result_bind Py.bind]. rewrite Z.add_0_l.
  rewrite fits_float_small; [reflexivity|].
  pose proof (four_digits_value start_year Hy1 Hl1).
  pose proof (four_digits_value end_year Hy2 Hl2). lia.
Qed.

Lemma workplace_months_between_dates_witness :
  calculate_total_experience_duration
    [<[ "start_date" := PStr "2019-11" ]> {[ "end_date" := PStr "2021-02" ]}]
  = Ok (Z.max 0 ((2021 - 2019) * 12 + (2 - 11))).
Proof.
  apply (workplace_months_between_dates
           (<[ "start_date" := PStr "2019-11" ]> {[ "end_date" := PStr "2021-02" ]})
           "2019" "2021" 11 2);
    try reflexivity; try lia; vm_compute; discriminate.
Defined.

(** ** The verification step of the handler *)

Lemma verify_documents_status (personal_name personal_dob : option string)
    (docs : list EduDoc) (r : VerificationResult) :
  truthy personal_name = true -> truthy personal_dob = true -> docs <> [] ->
  verify_documents personal_name personal_dob docs = Ok r ->
  status r = "verified" \/ status r = "failed".
Proof.
  intros Hn Hd Hdocs Hr.
  destruct (verify_documents_counts_aux _ _ _ _ Hn Hd Hdocs Hr)
    as (_ & _ & _ & _ & _ & _ & ->).
  destruct (_ =? _); [left | right]; reflexivity.
Qed.

(** X24. The verification step of the handler, run on the extraction
    status and on the documents that the two queries of the database give
    for one worker. It reports "pending" exactly when the personal name,
    the personal date of birth or the documents are missing, and then it
    writes nothing; and whenever it changes the database, the status it
    stores on the worker is the status it reports. *)
Theorem verification_step_status (personal_name personal_dob : option string)
    (docs : list EduDoc) (db : Db) :
  let extraction_status :=
    Handler.get_worker_extraction_status personal_name personal_dob
      (Z.of_nat (length docs)) in
  let out := Handler.verification_step extraction_status docs db in
  (out.2 = "pending"
   <-> truthy personal_name && truthy personal_dob && negb (Nat.eqb (length docs) 0)
       = false)
  /\ (out.2 = "pending" -> out.1 = db)
  /\ (out.1 = db \/ worker_verification_status out.1 = out.2).
Proof.
  cbv zeta. unfold Handler.verification_step, Handler.get_worker_extraction_status.
  cbn [Handler.personal_extracted Handler.educational_extracted
       Handler.personal_name Handler.personal_dob].
  assert (Hpending : forall b : bool,
            (((db, "pending").2 = "pending" <-> b = b)
             /\ ((db, "pending").2 = "pending" -> (db, "pending").1 = db)
             /\ ((db, "pending").1 = db
                 \/ worker_verification_status (db, "pending").1 = (db, "pending").2)))
    by (intros b; split; [split; reflexivity | split; [reflexivity | left; reflexivity]]).
  destruct (truthy personal_name) eqn:Hn; [|apply (Hpending false)].
  destruct (truthy personal_dob) eqn:Hd; [|apply (Hpending false)].
  destruct docs as [|doc docs]; [apply (Hpending false)|].
  assert (Hz : (Z.of_nat (length (doc :: docs)) =? 0) = false)
    by (apply Z.eqb_neq; simpl; lia).
  rewrite Hz. change (Nat.eqb (length (doc :: docs)) 0) with false.
  cbn [andb negb].
  unfold run_verification.
  destruct (verify_documents personal_name personal_dob (doc :: docs)) as [r|e] eqn:Hr;
    cbn [fst snd].
  - destruct (verify_documents_status personal_name personal_dob (doc :: docs) r
                Hn Hd ltac:(discriminate) Hr) as [Hs|Hs];
      rewrite Hs; (split; [split; intros H; discriminate H|]);
      (split; [intros H; discriminate H|]); right;
      rewrite (proj1 (persist_verification_worker_aux r db)), Hs; reflexivity.
  - split; [split; intros H; discriminate H|].
    split; [intros H; discriminate H | left; reflexivity].
Qed.
